(** * download_c2db: crawl, de-duplication and resumable download

    A shallow embedding of [scripts/download_c2db.py] and the properties
    of its crawl (pagination, identifier extraction, ordered-unique
    collection), of its per-item download and of its manifest.

    Python values are modelled as follows.
    - [str] is a sequence of Unicode code points: [list N].
    - [int] is [Z].
    - [pathlib.Path] is a root and a list of components ([Path]).
    - a [dict] whose insertion order is observable is an association
      list; the [set] used for de-duplication is a [gset].
    - the network, the disk, [time.sleep] and the run's observable
      calls are threaded through a state-and-exception monad.

    Not modelled: the calls of [logging], the parsing of the command
    line, the interpreter's limit on the number of digits [int]
    converts, and failures of the disk other than a missing parent
    directory or a file or directory in the way. *)

From Stdlib Require Import ZArith NArith QArith List Ascii String Lia.
From stdpp Require Import base option list gmap pretty.

Local Open Scope N_scope.

(** ** Strings *)

Abbreviation str := (list N).

(** The code points of a literal (all literals of the script are ASCII). *)
Definition cp (s : string) : str := map N_of_ascii (list_ascii_of_string s).

(** [str.startswith]. *)
Fixpoint starts_with (p s : str) : bool :=
  match p, s with
  | [], _ => true
  | a :: p', b :: s' => (a =? b) && starts_with p' s'
  | _ :: _, [] => false
  end.

(** ** Character classes of the [re] module (patterns over [str])

    [\s] is [str.isspace] on one code point; the table is the one of
    CPython's [_PyUnicode_IsWhitespace]. *)
Definition is_space (c : N) : bool :=
  ((9 <=? c) && (c <=? 13)) || ((28 <=? c) && (c <=? 32))
  || (c =? 133) || (c =? 160) || (c =? 5760)
  || ((8192 <=? c) && (c <=? 8202))
  || (c =? 8232) || (c =? 8233) || (c =? 8239) || (c =? 8287)
  || (c =? 12288).

(** The negated class of [MATERIAL_PATH_RE]: any code point that is
    neither whitespace nor a double quote (34) nor a single quote (39). *)
Definition slug_char (c : N) : bool :=
  negb (is_space c || (c =? 34) || (c =? 39)).

(** ** A backtracking matcher for the constructs the two patterns use *)

Inductive regex :=
| Lit (s : str)              (* a literal string *)
| Plus (cls : N -> bool)     (* [c+] for a character class, greedy *)
| Group (r : regex)          (* the capturing group *)
| Seq (r1 r2 : regex).

(** Length of the longest prefix of [s] inside the class. *)
Fixpoint span (cls : N -> bool) (s : str) : nat :=
  match s with
  | c :: s' => if cls c then S (span cls s') else 0%nat
  | [] => 0%nat
  end.

Section Matcher.
Context {R : Type}.

(** Greedy repetition: the longest repetition first, then shorter
    ones, down to one. *)
Fixpoint backtrack (k : nat -> option R) (n : nat) : option R :=
  match n with
  | O => None
  | S m => match k (S m) with
           | Some r => Some r
           | None => backtrack k m
           end
  end.

(** [match_re r s cap k]: match [r] at the start of [s], then continue
    with [k] on the rest of the input and the group captured so far. *)
Fixpoint match_re (r : regex) (s : str) (cap : option str)
    (k : str -> option str -> option R) : option R :=
  match r with
  | Lit l => if starts_with l s then k (drop (length l) s) cap else None
  | Plus cls => backtrack (fun n => k (drop n s) cap) (span cls s)
  | Group r' =>
      match_re r' s cap
        (fun rest _ => k rest (Some (take (length s - length rest) s)))
  | Seq r1 r2 =>
      match_re r1 s cap (fun rest cap' => match_re r2 rest cap' k)
  end.
End Matcher.

(** A match at the start of [s]: the number of code points consumed and
    the text of group 1. *)
Definition match_at (r : regex) (s : str) : option (nat * str) :=
  match_re r s None
    (fun rest cap => Some ((length s - length rest)%nat, default [] cap)).

(** [re.finditer] / [re.findall] for a pattern with one group: scan from
    left to right, the search resumes where the last match ended.
    [skip] counts the code points of the last match still to pass. *)
Fixpoint scan (r : regex) (skip : nat) (s : str) : list str :=
  match s with
  | [] => []
  | _ :: s' =>
      match skip with
      | S k => scan r k s'
      | O =>
          match match_at r s with
          | Some (n, g) => g :: scan r (pred n) s'
          | None => scan r 0 s'
          end
      end
  end.

Definition findall (r : regex) (s : str) : list str := scan r 0 s.

(** [MATERIAL_PATH_RE]: the literal href=/material/ followed by the
    captured run of one or more slug characters. *)
Definition MATERIAL_PATH_RE : regex :=
  Seq (Lit (cp "href=/material/")) (Group (Plus slug_char)).

(** [max] of a non-empty sequence: the first item, replaced by each
    later item that is greater. *)
Definition py_max (x : Z) (xs : list Z) : Z :=
  fold_left (fun m v => if (m <? v)%Z then v else m) xs x.

(** [extract_material_slugs]: the loop over the matches, with the set
    [seen] and the list [ordered_slugs]. *)
Definition add_unseen (st : gset str * list str) (slug : str)
    : gset str * list str :=
  let '(seen, ordered_slugs) := st in
  if decide (slug ∈ seen) then st
  else (seen ∪ {[slug]}, ordered_slugs ++ [slug]).

Definition extract_material_slugs (html : str) : list str :=
  snd (fold_left add_unseen (findall MATERIAL_PATH_RE html) (∅, [])).

(** ** Paths ([pathlib.PurePosixPath])

    A path is its root (none, one slash, or exactly two slashes) and its
    components.  Paths are compared by name: the model has no symbolic
    links and does not resolve a component of two dots. *)

Inductive root := Relative | Slash | DoubleSlash.

Record Path := mkPath { root_of : root; parts : list str }.

#[global] Instance root_eq_dec : EqDecision root.
Proof. solve_decision. Defined.

#[global] Instance Path_eq_dec : EqDecision Path.
Proof. solve_decision. Defined.

Definition root_code (r : root) : nat :=
  match r with Relative => 0 | Slash => 1 | DoubleSlash => 2 end%nat.

Definition root_decode (n : nat) : root :=
  match n with O => Relative | S O => Slash | _ => DoubleSlash end.

#[global] Instance Path_countable : Countable Path.
Proof.
  refine (inj_countable' (fun p => (root_code (root_of p), parts p))
            (fun x => mkPath (root_decode (fst x)) (snd x)) _).
  intros [[] ps]; reflexivity.
Defined.

(** [s.split(sep)] for the separator / (code point 47). *)
Fixpoint split_sep (s : str) : list str :=
  match s with
  | [] => [[]]
  | c :: s' =>
      if c =? 47 then [] :: split_sep s'
      else match split_sep s' with
           | h :: t => (c :: h) :: t
           | [] => [[c]]
           end
  end.

(** The components of a raw path: empty ones and single dots are dropped. *)
Definition components (s : str) : list str :=
  filter (fun x => x <> [] /\ x <> cp ".") (split_sep s).

Definition parse_root (s : str) : root :=
  if starts_with (cp "/") s then
    if starts_with (cp "//") s && negb (starts_with (cp "///") s)
    then DoubleSlash else Slash
  else Relative.

Definition parse_path (s : str) : Path := mkPath (parse_root s) (components s).

(** [p / seg]: an absolute segment replaces [p]. *)
Definition joinpath (p : Path) (seg : str) : Path :=
  if starts_with (cp "/") seg then parse_path seg
  else mkPath (root_of p) (parts p ++ components seg).

Definition root_str (r : root) : str :=
  match r with Relative => [] | Slash => cp "/" | DoubleSlash => cp "//" end.

Fixpoint join_sep (l : list str) : str :=
  match l with
  | [] => []
  | [x] => x
  | x :: r => x ++ cp "/" ++ join_sep r
  end.

(** [str(p)]. *)
Definition path_str (p : Path) : str :=
  match root_str (root_of p) ++ join_sep (parts p) with
  | [] => cp "."
  | s => s
  end.

(** [p.relative_to(other)]; [None] stands for the [ValueError]. *)
Definition relative_to (p other : Path) : option Path :=
  if decide (root_of p = root_of other /\ parts other `prefix_of` parts p)
  then Some (mkPath Relative (drop (length (parts other)) (parts p)))
  else None.

(** [p.parent]. *)
Definition parent (p : Path) : Path :=
  mkPath (root_of p) (removelast (parts p)).

(** ** Dictionaries with observable insertion order *)

Abbreviation entry := (list (str * str)).

(** [d[k] = v]: replaces the value of an existing key in place, appends
    a new key otherwise. *)
Fixpoint dict_set (k v : str) (d : entry) : entry :=
  match d with
  | [] => [(k, v)]
  | (k', v') :: d' =>
      if decide (k' = k) then (k, v) :: d' else (k', v') :: dict_set k v d'
  end.

Fixpoint dict_get (k : str) (d : entry) : option str :=
  match d with
  | [] => None
  | (k', v) :: d' => if decide (k' = k) then Some v else dict_get k d'
  end.

(** ** The disk *)

Inductive content :=
| Bytes (b : str)                 (* a downloaded file *)
| Json (records : list entry).    (* a manifest *)

Inductive node := Dir | File (c : content).

#[global] Instance content_eq_dec : EqDecision content.
Proof. solve_decision. Defined.

#[global] Instance node_eq_dec : EqDecision node.
Proof. solve_decision. Defined.

Abbreviation Disk := (gmap Path node).

(** The current directory and the roots always exist. *)
Definition lookup_node (d : Disk) (p : Path) : option node :=
  match parts p with
  | [] => Some Dir
  | _ => d !! p
  end.

(** [p.exists()]. *)
Definition path_exists (d : Disk) (p : Path) : bool :=
  bool_decide (is_Some (lookup_node d p)).

(** [p.mkdir(parents=True, exist_ok=True)] on the reversed components:
    an existing directory is accepted, a file in the way raises, a
    missing parent is created first.  [None] stands for the [OSError]. *)
Fixpoint mkdir_rev (r : root) (rparts : list str) (d : Disk) : option Disk :=
  match rparts with
  | [] => Some d
  | _ :: rparent =>
      match d !! mkPath r (rev rparts) with
      | Some Dir => Some d
      | Some (File _) => None
      | None =>
          match mkdir_rev r rparent d with
          | Some d' => Some (<[mkPath r (rev rparts) := Dir]> d')
          | None => None
          end
      end
  end.

Definition mkdir_p (p : Path) (d : Disk) : option Disk :=
  mkdir_rev (root_of p) (rev (parts p)) d.

(** Opening [p] for writing creates or truncates the file; it needs the
    parent directory, and [p] must not be a directory. *)
Definition open_write (p : Path) (d : Disk) : option Disk :=
  match lookup_node d (parent p), lookup_node d p with
  | Some Dir, Some Dir => None
  | Some Dir, _ => Some (<[p := File (Bytes [])]> d)
  | _, _ => None
  end.

(** [handle.write(chunk)] on a file opened in binary mode. *)
Definition append_file (p : Path) (chunk : str) (d : Disk) : Disk :=
  alter (fun n => match n with
                  | File (Bytes b) => File (Bytes (b ++ chunk))
                  | _ => n
                  end) p d.

(** ** The network, the clock and the trace of a run *)

(** A [float]: the delay is only ever passed on to [time.sleep]. *)
Inductive pyfloat := Finite (q : Q) | Infinity (negative : bool) | NaN.

(** What the server sends for one request: the decoded text, the body
    as the chunks [iter_content] yields, and whether the body arrives
    whole ([false]: the connection breaks after the chunks listed). *)
Record Response := mkResponse {
  text : str;
  chunks : list str;
  complete : bool
}.

Inductive mode := WriteBinary | WriteText.

Inductive event :=
| EvGet (url : str) (stream : bool) (ok : bool)   (* session.get, raise_for_status *)
| EvBroken (url : str)                            (* the body stream failed *)
| EvSleep (d : pyfloat)                           (* time.sleep returned *)
| EvMkdir (p : Path)                              (* Path.mkdir *)
| EvOpen (p : Path) (m : mode)                    (* Path.open *)
| EvDump (p : Path) (records : list entry).       (* json.dump, newline *)

Record World := mkWorld {
  disk : Disk;
  trace : list event;     (* oldest event first *)
  requests : nat          (* number of requests sent so far *)
}.

(** ** Exceptions and the monad of the script *)

Inductive exn := TransportError | ValueError | OverflowError | OSError.

(** What [time.sleep] does with a delay: it sleeps, or it raises
    [ValueError] (a negative delay, or NaN), or it raises
    [OverflowError] (an infinite delay, or one beyond the range of the
    platform's clock). *)
Inductive sleep_outcome := Sleeps | RaisesValueError | RaisesOverflowError.

Definition sleep_exn (o : sleep_outcome) : option exn :=
  match o with
  | Sleeps => None
  | RaisesValueError => Some ValueError
  | RaisesOverflowError => Some OverflowError
  end.

Inductive result (A : Type) :=
| Ok (a : A)
| Raise (e : exn).
Arguments Ok {A} a.
Arguments Raise {A} e.

Definition M (A : Type) : Type := World -> result A * World.

Definition ret {A} (a : A) : M A := fun w => (Ok a, w).

Definition bind {A B} (m : M A) (f : A -> M B) : M B :=
  fun w => match m w with
           | (Ok a, w') => f a w'
           | (Raise e, w') => (Raise e, w')
           end.

Definition raise {A} (e : exn) : M A := fun w => (Raise e, w).

Notation "'let*' x ':=' m 'in' k" := (bind m (fun x => k))
  (at level 10, x name, m at level 100, k at level 200,
   format "'[v' 'let*'  x  ':='  m  'in' '/' k ']'").

(** A [for] loop with a body that may raise. *)
Fixpoint for_each {A} (l : list A) (body : A -> M unit) : M unit :=
  match l with
  | [] => ret tt
  | x :: l' => bind (body x) (fun _ => for_each l' body)
  end.

(** A [for] loop that updates a local variable. *)
Fixpoint for_fold {A S} (l : list A) (body : S -> A -> M S) (s : S) : M S :=
  match l with
  | [] => ret s
  | x :: l' => bind (body s x) (fun s' => for_fold l' body s')
  end.

Definition emit (e : event) : M unit :=
  fun w => (Ok tt, mkWorld (disk w) (trace w ++ [e]) (requests w)).

Definition get_disk : M Disk := fun w => (Ok (disk w), w).

(** The text written into an open file replaces its content. *)
Definition set_disk_file (p : Path) (c : content) : M unit :=
  fun w => (Ok tt, mkWorld (<[p := File c]> (disk w)) (trace w) (requests w)).

(** An operation of the file system that may fail with [OSError]. *)
Definition fs_op (f : Disk -> option Disk) : M unit :=
  fun w => match f (disk w) with
           | Some d => (Ok tt, mkWorld d (trace w) (requests w))
           | None => (Raise OSError, w)
           end.

Section Program.

(** The decimal digits of the interpreter's Unicode database outside
    ASCII (category Nd), with their values: the table depends on the
    Unicode version the interpreter was built with. *)
Variable nd : N -> option Z.

(** The value of a decimal digit, as [\d] and [int] see it. *)
Definition decimal (c : N) : option Z :=
  if (48 <=? c) && (c <=? 57) then Some (Z.of_N (c - 48))
  else if c <? 128 then None
  else nd c.

Definition is_digit (c : N) : bool := bool_decide (is_Some (decimal c)).

(** [PAGE_RE]: /table?sid= digits &page= (digits). *)
Definition PAGE_RE : regex :=
  Seq (Lit (cp "/table?sid="))
    (Seq (Plus is_digit)
      (Seq (Lit (cp "&page=")) (Group (Plus is_digit)))).

(** [int] on a string of decimal digits (the only strings the script
    converts are matches of [\d+]). *)
Definition int (s : str) : Z :=
  fold_left (fun acc c => (10 * acc + default 0 (decimal c))%Z) s 0%Z.

Definition extract_last_page (html : str) (fallback : Z) : Z :=
  let pages := map int (findall PAGE_RE html) in
  match pages with
  | [] => fallback
  | p :: ps => py_max p ps
  end.


(** ** The environment of a run *)

(** What [time.sleep] does with each delay: where the range of the
    clock ends depends on the platform. *)
Variable time_sleep : pyfloat -> sleep_outcome.

(** The server: what the request number [n] of the run receives for a
    URL; [None] is a request that fails ([TransportError]). *)
Variable net : nat -> str -> option Response.

Definition BASE_URL : str := cp "https://c2db.fysik.dtu.dk".
Definition TABLE_ENDPOINT : str := BASE_URL ++ cp "/table".
Definition DOWNLOAD_TYPES : list (str * str) :=
  [(cp "json", cp "json"); (cp "cif", cp "cif")].

(** [str(n)] for an [int], as an f-string formats it. *)
Definition str_of_int (z : Z) : str := cp (pretty z).

(** [range(lo, hi)]. *)
Definition py_range (lo hi : Z) : list Z :=
  map (fun i => (lo + Z.of_nat i)%Z) (seq 0 (Z.to_nat (hi - lo))).

(** [l[:n]]. *)
Definition slice_to {A} (n : Z) (l : list A) : list A :=
  take (Z.to_nat (if (n <? 0)%Z then Z.max 0 (Z.of_nat (length l) + n) else n)) l.

(** ** The script *)

Definition fetch (url : str) (stream : bool) : M Response :=
  fun w =>
    let sent ok :=
      mkWorld (disk w) (trace w ++ [EvGet url stream ok]) (S (requests w)) in
    match net (requests w) url with
    | Some r =>
        if stream || complete r then (Ok r, sent true)
        else (Raise TransportError, sent false)
    | None => (Raise TransportError, sent false)
    end.

Definition sleep (d : pyfloat) : M unit :=
  match sleep_exn (time_sleep d) with
  | None => emit (EvSleep d)
  | Some e => raise e
  end.

Definition mkdir (p : Path) : M unit :=
  let* _ := emit (EvMkdir p) in
  fs_op (mkdir_p p).

Definition page_url (sid page : Z) : str :=
  TABLE_ENDPOINT ++ cp "?sid=" ++ str_of_int sid
    ++ cp "&page=" ++ str_of_int page.

Definition collect_slugs (sid : Z) (delay : pyfloat) : M (list str) :=
  let* r := fetch (page_url sid 0) false in
  let html := text r in
  let last_page := extract_last_page html 0 in
  let st := fold_left add_unseen (extract_material_slugs html) (∅, []) in
  let* st' :=
    for_fold (py_range 1 (last_page + 1))
      (fun st page =>
         let* r := fetch (page_url sid page) false in
         let st' := fold_left add_unseen (extract_material_slugs (text r)) st in
         let* _ := sleep delay in
         ret st')
      st in
  ret (snd st').

Definition write_chunk (p : Path) (chunk : str) : M unit :=
  match chunk with
  | [] => ret tt
  | _ => fun w =>
      (Ok tt, mkWorld (append_file p chunk (disk w)) (trace w) (requests w))
  end.

Definition download_file (url : str) (destination : Path) (delay : pyfloat)
    : M unit :=
  let* d := get_disk in
  if path_exists d destination then ret tt
  else
    let* response := fetch url true in
    let* _ := emit (EvOpen destination WriteBinary) in
    let* _ := fs_op (open_write destination) in
    let* _ := for_each (chunks response) (write_chunk destination) in
    let* _ := (if complete response then ret tt
               else let* _ := emit (EvBroken url) in raise TransportError) in
    sleep delay.

Definition download_url (slug kind : str) : str :=
  BASE_URL ++ cp "/material/" ++ slug ++ cp "/download/" ++ kind.

Definition download_material (slug : str) (out_dir : Path) (delay : pyfloat)
    : M entry :=
  let material_dir := joinpath out_dir slug in
  let* _ := mkdir material_dir in
  for_fold DOWNLOAD_TYPES
    (fun manifest_entry ks =>
       let url := download_url slug (fst ks) in
       let destination := joinpath material_dir (slug ++ cp "." ++ snd ks) in
       let* _ := download_file url destination delay in
       match relative_to destination out_dir with
       | Some rel => ret (dict_set (fst ks) (path_str rel) manifest_entry)
       | None => raise ValueError
       end)
    [(cp "slug", slug)].

Definition write_manifest (records : list entry) (destination : Path)
    : M unit :=
  let* _ := mkdir (parent destination) in
  let* _ := emit (EvOpen destination WriteText) in
  let* _ := fs_op (open_write destination) in
  let* _ := emit (EvDump destination records) in
  set_disk_file destination (Json records).

Record Args := mkArgs {
  sid : Z;
  output : Path;
  delay : pyfloat;
  manifest : option Path;
  max_materials : option Z
}.

Definition main (args : Args) : M Z :=
  let out_dir := output args in
  let* _ := mkdir out_dir in
  let manifest_path :=
    match manifest args with
    | Some p => p
    | None => joinpath out_dir (cp "manifest.json")
    end in
  let* slugs := collect_slugs (sid args) (delay args) in
  let slugs :=
    match max_materials args with
    | Some n => slice_to n slugs
    | None => slugs
    end in
  let* records :=
    for_fold slugs
      (fun records slug =>
         let* e := download_material slug out_dir (delay args) in
         ret (records ++ [e]))
      [] in
  let* _ := write_manifest records manifest_path in
  ret 0%Z.

End Program.

(** ** Sample inputs *)

(** A first page whose markers name the pages 0, 3, 1 and 2. *)
Definition sample_pagination : str :=
  cp "<a href=/table?sid=7&page=0>1</a><a href=/table?sid=7&page=3>4</a><a href=/table?sid=7&page=1>2</a><a href=/table?sid=7&page=2>3</a>".

(** A platform whose [time.sleep] sleeps for every finite delay that is
    not negative (a clock of unbounded range), and an interpreter
    without further decimal digits. *)
Definition sample_sleep (d : pyfloat) : sleep_outcome :=
  match d with
  | Finite q => if Qle_bool 0 q then Sleeps else RaisesValueError
  | Infinity _ => RaisesOverflowError
  | NaN => RaisesValueError
  end.

Definition no_nd : N -> option Z := fun _ => None.

(** A catalog of two pages: page 0 lists A, B and A again and announces
    page 1; page 1 lists B and C.  Every download succeeds. *)
Definition sample_page0 : str :=
  cp "<a href=/material/A >A</a> <a href=/material/B >B</a> <a href=/material/A >A</a> <a href=/table?sid=7&page=1>2</a>".

Definition sample_page1 : str :=
  cp "<a href=/material/B >B</a> <a href=/material/C >C</a>".

Definition whole (s : str) : Response := mkResponse s [s] true.

Definition sample_net (n : nat) (url : str) : option Response :=
  if decide (url = page_url 7 0) then Some (whole sample_page0)
  else if decide (url = page_url 7 1) then Some (whole sample_page1)
  else Some (whole (cp "data")).

Definition empty_world : World := mkWorld ∅ [] 0.

(** The crawl of the sample catalog, from the empty world. *)
Definition sample_crawl : result (list str) * World :=
  collect_slugs no_nd sample_sleep sample_net 7 (Finite 1) empty_world.

(** The output root of the samples, and a disk that holds it. *)
Definition out_root : Path := mkPath Relative [cp "out"].

Definition fresh_world : World := mkWorld (<[out_root := Dir]> ∅) [] 0.

(** A disk on which the two files of the item A are present. *)
Definition resumed_disk : Disk :=
  <[mkPath Relative [cp "out"; cp "A"; cp "A.cif"] := File (Bytes (cp "cif"))]>
    (<[mkPath Relative [cp "out"; cp "A"; cp "A.json"] := File (Bytes (cp "{}"))]>
       (<[mkPath Relative [cp "out"; cp "A"] := Dir]>
          (<[out_root := Dir]> ∅))).

Definition resumed_world : World := mkWorld resumed_disk [] 0.

(** An identifier that begins with a slash, as the page text
    href=/material//x yields it, and a disk with the two files that
    [download_material] takes for its targets. *)
Definition absolute_slug : str := cp "/x".

Definition absolute_world : World :=
  mkWorld
    (<[mkPath Slash [cp "x.cif"] := File (Bytes [])]>
       (<[mkPath Slash [cp "x.json"] := File (Bytes [])]> ∅))
    [] 0.

(** A server on which the cif file of the item B cannot be fetched. *)
Definition failing_net (n : nat) (url : str) : option Response :=
  if decide (url = download_url (cp "B") (cp "cif")) then None
  else sample_net n url.

(** A run over the sample catalog that is capped at two items. *)
Definition capped_args : Args :=
  mkArgs 7 out_root (Finite 1) None (Some 2%Z).

Definition capped_made : World := snd (mkdir (output capped_args) empty_world).

Definition capped_crawl : result (list str) * World :=
  collect_slugs no_nd sample_sleep sample_net 7 (Finite 1) capped_made.

Definition capped_run : result Z * World :=
  main no_nd sample_sleep sample_net capped_args empty_world.

(** ** Specification vocabulary *)

(** The first-seen-order list of the distinct elements of [l]: the
    head, then the distinct elements of the tail other than the head. *)
Fixpoint first_seen (l : list str) : list str :=
  match l with
  | [] => []
  | x :: r => x :: filter (fun y => y <> x) (first_seen r)
  end.

(** [l.index(x)]: the position of the first occurrence. *)
Fixpoint index_of (x : str) (l : list str) : option nat :=
  match l with
  | [] => None
  | y :: r => if decide (y = x) then Some O else S <$> index_of x r
  end.

(** The texts a crawl reads: [fetch_pages net sid n pages] are the
    texts of the responses to the requests number [n], [n+1], ... for
    the pages listed, when each of them arrives whole. *)
Fixpoint fetch_pages (net : nat -> str -> option Response) (sid : Z)
    (n : nat) (pages : list Z) : option (list str) :=
  match pages with
  | [] => Some []
  | p :: ps =>
      match net n (page_url sid p) with
      | Some r =>
          if complete r
          then cons (text r) <$> fetch_pages net sid (S n) ps
          else None
      | None => None
      end
  end.

(** The pages of a crawl that starts with request number [n]: page 0,
    then the pages 1 to the last page that page 0 announces. *)
Definition crawl_texts (nd : N -> option Z)
    (net : nat -> str -> option Response) (sid : Z) (n : nat)
    : option (list str) :=
  match fetch_pages net sid n [0%Z] with
  | Some [html0] =>
      cons html0 <$>
        fetch_pages net sid (S n)
          (py_range 1 (extract_last_page nd html0 0 + 1))
  | _ => None
  end.

(** The body of the loop of [collect_slugs] over the pages 1 to the last
    page, and what it does to the identifiers collected. *)
Definition page_body (time_sleep : pyfloat -> sleep_outcome)
    (net : nat -> str -> option Response) (sid : Z) (delay : pyfloat)
    (st : gset str * list str) (page : Z) : M (gset str * list str) :=
  let* r := fetch net (page_url sid page) false in
  let st' := fold_left add_unseen (extract_material_slugs (text r)) st in
  let* _ := sleep time_sleep delay in
  ret st'.

Definition merge (st : gset str * list str) (html : str)
    : gset str * list str :=
  fold_left add_unseen (extract_material_slugs html) st.

(** The events of a crawl that succeeds. *)
Definition crawl_events (sid : Z) (delay : pyfloat) (last_page : Z)
    : list event :=
  EvGet (page_url sid 0) false true
  :: flat_map (fun p => [EvGet (page_url sid p) false true; EvSleep delay])
       (py_range 1 (last_page + 1)).

(** The events of a request that failed: the request itself, or the
    stream of its body. *)
Definition is_failure (e : event) : bool :=
  match e with
  | EvGet _ _ false => true
  | EvBroken _ => true
  | _ => false
  end.

(** The events only the Manifest Writer causes. *)
Definition is_manifest_event (e : event) : bool :=
  match e with
  | EvOpen _ WriteText => true
  | EvDump _ _ => true
  | _ => false
  end.

(** How failed requests show in the events of a command: a command that
    raises [TransportError] ends with the failure, its only one; any
    other command has none. *)
Definition abort_inv (o : option exn) (evs : list event) : Prop :=
  match o with
  | Some TransportError =>
      exists pre e,
        evs = pre ++ [e] /\ is_failure e = true
        /\ Forall (fun e => is_failure e = false) pre
  | _ => Forall (fun e => is_failure e = false) evs
  end.

(** The parts of [main]: the path of the manifest, the identifiers kept,
    and the loop over them. *)
Definition manifest_path (args : Args) : Path :=
  match manifest args with
  | Some p => p
  | None => joinpath (output args) (cp "manifest.json")
  end.

Definition kept (args : Args) (slugs : list str) : list str :=
  match max_materials args with
  | Some n => slice_to n slugs
  | None => slugs
  end.

Definition download_all (time_sleep : pyfloat -> sleep_outcome)
    (net : nat -> str -> option Response) (out_dir : Path) (delay : pyfloat)
    (slugs : list str) (records : list entry) : M (list entry) :=
  for_fold slugs
    (fun records slug =>
       let* e := download_material time_sleep net slug out_dir delay in
       ret (records ++ [e]))
    records.

(** The calls of the Item Downloader in a run from [w] to [w']: one call
    per identifier of the list, in order, each from the world the call
    before left, up to the end of the list or to the first call that
    raises; [recs] are the records the calls returned. *)
Inductive downloads (time_sleep : pyfloat -> sleep_outcome)
    (net : nat -> str -> option Response) (out_dir : Path) (delay : pyfloat)
    : list str -> World -> list entry -> option exn -> World -> Prop :=
| DlDone w :
    downloads time_sleep net out_dir delay [] w [] None w
| DlRaise slug slugs w e w' :
    download_material time_sleep net slug out_dir delay w = (Raise e, w') ->
    downloads time_sleep net out_dir delay (slug :: slugs) w [] (Some e) w'
| DlNext slug slugs w rec w1 recs o w' :
    download_material time_sleep net slug out_dir delay w = (Ok rec, w1) ->
    downloads time_sleep net out_dir delay slugs w1 recs o w' ->
    downloads time_sleep net out_dir delay (slug :: slugs) w (rec :: recs) o w'.

Definition is_sleep (e : event) : bool :=
  match e with EvSleep _ => true | _ => false end.

(** The number of delays that lie between two requests: the sleeps
    that a request follows at once. *)
Fixpoint delays_between_fetches (evs : list event) : nat :=
  match evs with
  | [] => 0
  | e :: r =>
      (match e, r with
       | EvSleep _, EvGet _ _ _ :: _ => 1
       | _, _ => 0
       end + delays_between_fetches r)%nat
  end.

(** A component of a parsed path: not empty, no separator, not a dot. *)
Definition valid_component (x : str) : Prop :=
  x <> [] /\ (47 ∉ x) /\ x <> cp ".".

(** A disk as a file system keeps it: what exists lies in a directory. *)
Definition disk_wf (d : Disk) : Prop :=
  forall p n, d !! p = Some n -> lookup_node d (parent p) = Some Dir.

#[global] Instance disk_wf_dec (d : Disk) : Decision (disk_wf d).
Proof.
  change (Decision
            (map_Forall (fun p (_ : node) => lookup_node d (parent p) = Some Dir) d)).
  apply _.
Defined.

#[global] Instance valid_component_dec (x : str) : Decision (valid_component x).
Proof. unfold valid_component. apply _. Defined.

(** The directory and the two files of an item, as [download_material]
    computes them. *)
Definition material_dir (out_dir : Path) (slug : str) : Path :=
  joinpath out_dir slug.

Definition target (out_dir : Path) (slug suffix : str) : Path :=
  joinpath (material_dir out_dir slug) (slug ++ cp "." ++ suffix).

(** The disk after the chunks of a body were written to an open file. *)
Definition write_all (p : Path) (cs : list str) (d : Disk) : Disk :=
  fold_left (fun d c => match c with [] => d | _ => append_file p c d end) cs d.

(** Where a file of a record comes from, in a run from [w] to [w'] that
    added the events [evs]: it was on the disk before the run and the
    run left it as it was, or it was not and the run fetched its URL
    and wrote it. *)
Definition provenance (w w' : World) (evs : list event) (url : str)
    (dest : Path) : Prop :=
  (path_exists (disk w) dest = true
   /\ lookup_node (disk w') dest = lookup_node (disk w) dest
   /\ EvOpen dest WriteBinary ∉ evs)
  \/ (path_exists (disk w) dest = false
      /\ EvGet url true true ∈ evs
      /\ EvOpen dest WriteBinary ∈ evs
      /\ exists b, lookup_node (disk w') dest = Some (File (Bytes b))).

(** The ways a call of [download_file] ends, with the world it leaves. *)
Inductive download_file_runs (time_sleep : pyfloat -> sleep_outcome)
    (net : nat -> str -> option Response)
    (url : str) (dest : Path) (delay : pyfloat) (w : World)
    : result unit -> World -> Prop :=
| DfSkip :
    path_exists (disk w) dest = true ->
    download_file_runs time_sleep net url dest delay w (Ok tt) w
| DfFetchFails :
    path_exists (disk w) dest = false ->
    net (requests w) url = None ->
    download_file_runs time_sleep net url dest delay w
      (Raise TransportError)
      (mkWorld (disk w) (trace w ++ [EvGet url true false]) (S (requests w)))
| DfOpenFails r :
    path_exists (disk w) dest = false ->
    net (requests w) url = Some r ->
    open_write dest (disk w) = None ->
    download_file_runs time_sleep net url dest delay w
      (Raise OSError)
      (mkWorld (disk w)
         (trace w ++ [EvGet url true true; EvOpen dest WriteBinary])
         (S (requests w)))
| DfBroken r d1 :
    path_exists (disk w) dest = false ->
    net (requests w) url = Some r ->
    open_write dest (disk w) = Some d1 ->
    complete r = false ->
    download_file_runs time_sleep net url dest delay w
      (Raise TransportError)
      (mkWorld (write_all dest (chunks r) d1)
         (trace w ++ [EvGet url true true; EvOpen dest WriteBinary; EvBroken url])
         (S (requests w)))
| DfSleepFails r d1 e :
    path_exists (disk w) dest = false ->
    net (requests w) url = Some r ->
    open_write dest (disk w) = Some d1 ->
    complete r = true ->
    sleep_exn (time_sleep delay) = Some e ->
    download_file_runs time_sleep net url dest delay w
      (Raise e)
      (mkWorld (write_all dest (chunks r) d1)
         (trace w ++ [EvGet url true true; EvOpen dest WriteBinary])
         (S (requests w)))
| DfDone r d1 :
    path_exists (disk w) dest = false ->
    net (requests w) url = Some r ->
    open_write dest (disk w) = Some d1 ->
    complete r = true ->
    time_sleep delay = Sleeps ->
    download_file_runs time_sleep net url dest delay w
      (Ok tt)
      (mkWorld (write_all dest (chunks r) d1)
         (trace w ++ [EvGet url true true; EvOpen dest WriteBinary; EvSleep delay])
         (S (requests w))).

(** An invariant of the added events admits a set of events when it
    holds of no event, composes, and holds of each event of the set
    alone: with no exception when the event is no failure, with
    [TransportError] when it is one; and holds of an exception other
    than [TransportError] raised without an event. *)
Definition admits (I : option exn -> list event -> Prop)
    (allowed : event -> Prop) : Prop :=
  I None []
  /\ (forall o e1 e2, I None e1 -> I o e2 -> I o (e1 ++ e2))
  /\ (forall e, allowed e -> is_failure e = false -> I None [e])
  /\ (forall e, allowed e -> is_failure e = true -> I (Some TransportError) [e])
  /\ (forall e, e <> TransportError -> I (Some e) []).

(** The events of a crawl, and the events of the download of an item. *)
Definition crawl_event (sid : Z) (delay : pyfloat) (e : event) : Prop :=
  match e with
  | EvGet u false _ => exists page, u = page_url sid page
  | EvSleep d => d = delay
  | _ => False
  end.

Definition item_event (slug : str) (out_dir : Path) (delay : pyfloat)
    (e : event) : Prop :=
  match e with
  | EvMkdir p => p = material_dir out_dir slug
  | EvGet u true _ =>
      exists ks, ks ∈ DOWNLOAD_TYPES /\ u = download_url slug (fst ks)
  | EvBroken u =>
      exists ks, ks ∈ DOWNLOAD_TYPES /\ u = download_url slug (fst ks)
  | EvOpen p WriteBinary =>
      exists ks, ks ∈ DOWNLOAD_TYPES /\ p = target out_dir slug (snd ks)
  | EvSleep d => d = delay
  | _ => False
  end.

Definition manifest_event (p : Path) (e : event) : Prop :=
  match e with
  | EvMkdir q => q = parent p
  | EvOpen q WriteText => q = p
  | EvDump q _ => q = p
  | _ => False
  end.

(** A link to an identifier in a text: the literal of the link, the
    identifier, and then the end of the text or a code point that no
    identifier holds. *)
Definition link_to (slug html : str) : Prop :=
  exists pre post,
    html = pre ++ cp "href=/material/" ++ slug ++ post
    /\ match post with [] => True | c :: _ => slug_char c = false end.

(** The URLs of the requests among some events, in order. *)
Definition requested (evs : list event) : list str :=
  flat_map (fun e => match e with EvGet u _ _ => [u] | _ => [] end) evs.

(** A server on which the body of the json file of the item A breaks
    off after its first chunk. *)
Definition broken_net (n : nat) (url : str) : option Response :=
  if decide (url = download_url (cp "A") (cp "json"))
  then Some (mkResponse [] [cp "da"] false)
  else sample_net n url.


(** A disk on which a regular file stands where the directory of the
    item A goes. *)
Definition blocked_world : World :=
  mkWorld (<[mkPath Relative [cp "out"; cp "A"] := File (Bytes (cp "x"))]>
             (<[out_root := Dir]> ∅)) [] 0.

(** * Properties *)

(** ** Ordered-unique collection *)

Lemma first_seen_elem (l : list str) (x : str) :
  x ∈ first_seen l <-> x ∈ l.
Proof.
  induction l as [|a l IH]; simpl; [reflexivity|].
  rewrite !elem_of_cons, list_elem_of_filter, IH.
  destruct (decide (x = a)); tauto.
Qed.

Lemma first_seen_NoDup (l : list str) : NoDup (first_seen l).
Proof.
  induction l as [|a l IH]; simpl; constructor.
  - rewrite list_elem_of_filter. tauto.
  - now apply NoDup_filter.
Qed.

Lemma filter_not_in_app (acc : list str) (x : str) (L : list str) :
  filter (fun y => y ∉ acc ++ [x]) L
  = filter (fun y => y ∉ acc) (filter (fun y => y <> x) L).
Proof.
  rewrite list_filter_filter. apply list_filter_iff. intros y.
  rewrite elem_of_app, list_elem_of_singleton. tauto.
Qed.

Lemma filter_not_in_absorb (acc : list str) (x : str) (L : list str) :
  x ∈ acc ->
  filter (fun y => y ∉ acc) (filter (fun y => y <> x) L)
  = filter (fun y => y ∉ acc) L.
Proof.
  intros Hx. rewrite list_filter_filter. apply list_filter_iff. intros y.
  split; [tauto|]. intros Hy. split; [assumption|congruence].
Qed.

(** The loop with [seen] and the list computes [first_seen], from any
    state in which [seen] holds the elements of the list. *)
Lemma fold_add_unseen (l : list str) (seen : gset str) (acc : list str) :
  (forall x, x ∈ seen <-> x ∈ acc) ->
  snd (fold_left add_unseen l (seen, acc))
  = acc ++ filter (fun y => y ∉ acc) (first_seen l)
  /\ (forall x, x ∈ fst (fold_left add_unseen l (seen, acc))
                <-> x ∈ snd (fold_left add_unseen l (seen, acc))).
Proof.
  revert seen acc. induction l as [|a l IH]; intros seen acc Hinv; simpl.
  - rewrite filter_nil, app_nil_r. auto.
  - destruct (decide (a ∈ seen)) as [Hin|Hnot].
    + destruct (IH seen acc Hinv) as [-> Hs]. split; [|exact Hs].
      apply Hinv in Hin. rewrite filter_cons_False by tauto.
      now rewrite filter_not_in_absorb.
    + assert (Hinv' : forall x, x ∈ seen ∪ {[a]} <-> x ∈ acc ++ [a]).
      { intros x. rewrite elem_of_union, elem_of_singleton, elem_of_app,
          list_elem_of_singleton, Hinv. tauto. }
      destruct (IH _ _ Hinv') as [-> Hs]. split; [|exact Hs].
      rewrite filter_cons_True by (rewrite <- Hinv; exact Hnot).
      rewrite <- app_assoc. simpl. now rewrite filter_not_in_app.
Qed.

Lemma filter_all (P : str -> Prop) `{!forall x, Decision (P x)} (L : list str) :
  (forall y, y ∈ L -> P y) -> filter P L = L.
Proof.
  induction L as [|a L IH]; intros HP; [reflexivity|].
  rewrite filter_cons_True by (apply HP; left).
  f_equal. apply IH. intros y Hy. apply HP. now right.
Qed.

Lemma elem_of_concat_map {A} (f : A -> list str) (l : list A) (x : str) :
  x ∈ concat (map f l) <-> exists h, h ∈ l /\ x ∈ f h.
Proof.
  induction l as [|a l IH]; simpl.
  - rewrite elem_of_nil. split; [tauto|]. intros (h & Hh & _).
    now apply elem_of_nil in Hh.
  - rewrite elem_of_app, IH. split.
    + intros [Hx|(h & Hh & Hx)]; [exists a|exists h]; split; auto; [left|now right].
    + intros (h & Hh & Hx). apply elem_of_cons in Hh as [->|Hh]; eauto.
Qed.

Lemma first_seen_app (l1 l2 : list str) :
  first_seen (l1 ++ l2)
  = first_seen l1 ++ filter (fun y => y ∉ l1) (first_seen l2).
Proof.
  induction l1 as [|a l1 IH]; simpl.
  - symmetry. apply filter_all. intros y _. apply not_elem_of_nil.
  - f_equal. rewrite IH, filter_app, list_filter_filter. f_equal.
    apply list_filter_iff. intros y. rewrite not_elem_of_cons. tauto.
Qed.

Lemma index_of_elem (x : str) (l : list str) :
  x ∈ l -> exists a, index_of x l = Some a.
Proof.
  induction l as [|y l IH]; intros Hx; [now apply elem_of_nil in Hx|].
  simpl. destruct (decide (y = x)); [eauto|].
  apply elem_of_cons in Hx as [->|Hx]; [congruence|].
  destruct (IH Hx) as [a ->]. simpl. eauto.
Qed.

Lemma index_of_lookup (x : str) (l : list str) (a : nat) :
  index_of x l = Some a ->
  l !! a = Some x /\ forall b y, (b < a)%nat -> l !! b = Some y -> y <> x.
Proof.
  revert a. induction l as [|y l IH]; intros a; simpl; [discriminate|].
  destruct (decide (y = x)) as [->|Hne].
  - intros [= <-]. split; [reflexivity|]. intros; lia.
  - destruct (index_of x l) as [a'|]; simpl; [|discriminate].
    intros [= <-]. destruct (IH a' eq_refl) as [Hl Hb]. split; [exact Hl|].
    intros [|b] z Hlt; simpl.
    + intros [= <-]. exact Hne.
    + apply Hb. lia.
Qed.

(** A filter keeps the relative order of what it keeps. *)
Lemma filter_lookup_order (P : str -> Prop) `{!forall x, Decision (P x)}
    (L : list str) (i j : nat) (x y : str) :
  filter P L !! i = Some x -> filter P L !! j = Some y -> (i < j)%nat ->
  exists i' j', L !! i' = Some x /\ L !! j' = Some y /\ (i' < j')%nat.
Proof.
  revert i j. induction L as [|a L IH]; intros i j; [now rewrite filter_nil|].
  destruct (decide (P a)) as [Ha|Ha].
  - rewrite filter_cons_True by assumption. destruct i as [|i], j as [|j];
      simpl; try lia.
    + intros [= <-] Hy _.
      assert (Hin : y ∈ filter P L) by (eapply list_elem_of_lookup_2; eauto).
      apply list_elem_of_filter in Hin as [_ Hin].
      apply list_elem_of_lookup_1 in Hin as [j' Hj'].
      exists O, (S j'). repeat split; [assumption|lia].
    + intros Hx Hy Hlt. destruct (IH i j Hx Hy) as (i' & j' & ? & ? & ?); [lia|].
      exists (S i'), (S j'). repeat split; [assumption..|lia].
  - rewrite filter_cons_False by assumption. intros Hx Hy Hlt.
    destruct (IH i j Hx Hy Hlt) as (i' & j' & ? & ? & ?).
    exists (S i'), (S j'). repeat split; [assumption..|lia].
Qed.

(** The elements of [first_seen l] stand in the order of their first
    occurrences in [l]. *)
Lemma first_seen_order (l : list str) (i j : nat) (x y : str) :
  first_seen l !! i = Some x -> first_seen l !! j = Some y -> (i < j)%nat ->
  exists a b, index_of x l = Some a /\ index_of y l = Some b /\ (a < b)%nat.
Proof.
  revert i j. induction l as [|h l IH]; intros i j; simpl; [discriminate|].
  destruct i as [|i], j as [|j]; simpl; try lia.
  - intros [= <-] Hy _.
    apply list_elem_of_lookup_2, list_elem_of_filter in Hy as [Hne Hy].
    apply (proj1 (first_seen_elem _ _)), index_of_elem in Hy as [b Hb].
    exists O, (S b). rewrite decide_True by reflexivity.
    rewrite decide_False by congruence. rewrite Hb. repeat split. lia.
  - intros Hx Hy Hlt.
    pose proof (list_elem_of_lookup_2 _ _ _ Hx) as Hx'.
    pose proof (list_elem_of_lookup_2 _ _ _ Hy) as Hy'.
    apply list_elem_of_filter in Hx' as [Hxh _].
    apply list_elem_of_filter in Hy' as [Hyh _].
    destruct (filter_lookup_order _ _ _ _ _ _ Hx Hy) as (i' & j' & Hi & Hj & Hij);
      [lia|].
    destruct (IH _ _ Hi Hj Hij) as (a & b & Ha & Hb & Hab).
    exists (S a), (S b). rewrite !decide_False by congruence.
    rewrite Ha, Hb. repeat split. lia.
Qed.

(** ** The matcher on the two patterns *)

Lemma span_le (cls : N -> bool) (s : str) : (span cls s <= length s)%nat.
Proof. induction s as [|c s IH]; simpl; [lia|]. destruct (cls c); simpl; lia. Qed.

Lemma starts_with_length (p s : str) :
  starts_with p s = true -> (length p <= length s)%nat.
Proof.
  revert s. induction p as [|a p IH]; intros [|b s]; simpl; try lia; try discriminate.
  intros H. apply andb_true_iff in H as [_ H]. apply IH in H. lia.
Qed.

(** A continuation that accepts every repetition gets the longest one. *)
Lemma backtrack_total {R} (k : nat -> option R) (f : nat -> R) (n : nat) :
  (forall m, k (S m) = Some (f (S m))) ->
  backtrack k n = match n with O => None | S _ => Some (f n) end.
Proof. intros Hk. destruct n as [|n]; simpl; [reflexivity|]. now rewrite Hk. Qed.

(** [MATERIAL_PATH_RE] at a position: the literal, then the longest
    non-empty run of slug characters, which is the group. *)
Lemma match_at_material (s : str) :
  match_at MATERIAL_PATH_RE s
  = if starts_with (cp "href=/material/") s then
      let rest := drop 15 s in
      match span slug_char rest with
      | O => None
      | S n => Some ((15 + S n)%nat, take (S n) rest)
      end
    else None.
Proof.
  unfold match_at, MATERIAL_PATH_RE. cbn [match_re].
  destruct (starts_with (cp "href=/material/") s) eqn:Hs; [|reflexivity].
  apply starts_with_length in Hs. change (length (cp "href=/material/")) with 15%nat in *.
  cbv zeta.
  pose proof (span_le slug_char (drop 15 s)) as Hle. rewrite length_drop in Hle.
  rewrite (backtrack_total _
    (fun n => ((length s - length (drop n (drop 15 s)))%nat,
               take (length (drop 15 s) - length (drop n (drop 15 s))) (drop 15 s))))
    by reflexivity.
  destruct (span slug_char (drop 15 s)) as [|n] eqn:Hn; [reflexivity|].
  rewrite !length_drop. do 2 f_equal; [lia|]. f_equal. lia.
Qed.

(** ** C2: the Identifier Extractor *)

(** C2. For every page content, [extract_material_slugs] returns the
    identifiers matched in the content with duplicates removed: it is
    the first-seen list of the matches, it has no duplicate, it holds
    exactly the matched identifiers, and its elements stand in the order
    of their first occurrences among the matches. *)
Theorem extract_material_slugs_first_seen (html : str) :
  let found := findall MATERIAL_PATH_RE html in
  let out := extract_material_slugs html in
  out = first_seen found
  /\ NoDup out
  /\ (forall x, x ∈ out <-> x ∈ found)
  /\ (forall i j x y,
        out !! i = Some x -> out !! j = Some y -> (i < j)%nat ->
        exists a b,
          index_of x found = Some a /\ index_of y found = Some b /\ (a < b)%nat).
Proof.
  intros found out.
  assert (Hout : out = first_seen found).
  { unfold out, extract_material_slugs. fold found.
    destruct (fold_add_unseen found ∅ []) as [-> _].
    - intros x. rewrite elem_of_nil. set_solver.
    - simpl. apply filter_all. intros y _. apply not_elem_of_nil. }
  rewrite Hout. repeat split.
  - apply first_seen_NoDup.
  - apply first_seen_elem.
  - apply first_seen_elem.
  - apply first_seen_order.
Qed.

Lemma span_drop (cls : N -> bool) (s : str) (m : nat) :
  (m < span cls s)%nat -> exists c t, drop m s = c :: t /\ cls c = true.
Proof.
  revert m. induction s as [|c s IH]; intros m; simpl; [lia|].
  destruct (cls c) eqn:Hc; [|lia]. destruct m as [|m]; simpl.
  - eauto.
  - intros Hm. apply IH. lia.
Qed.

(** When every shorter repetition fails, only the longest one counts. *)
Lemma backtrack_longest {R} (k : nat -> option R) (n : nat) :
  (forall m, (0 < m < n)%nat -> k m = None) ->
  backtrack k n = match n with O => None | S _ => k n end.
Proof.
  intros Hk. destruct n as [|n]; [reflexivity|]. simpl.
  destruct (k (S n)); [reflexivity|].
  assert (H : forall j, (j <= n)%nat -> backtrack k j = None).
  { induction j as [|j IH]; intros Hj; simpl; [reflexivity|].
    rewrite Hk by lia. apply IH. lia. }
  now apply H.
Qed.

Section Pagination.
Variable nd : N -> option Z.

Lemma ampersand_not_digit : is_digit nd 38 = false.
Proof. reflexivity. Qed.

(** [PAGE_RE] at a position: the literal, the longest run of digits,
    the literal of the page parameter, and the longest run of digits,
    which is the group.  Giving digits back never helps, because the
    ampersand is not a digit. *)
Lemma match_at_page (s : str) :
  match_at (PAGE_RE nd) s
  = if starts_with (cp "/table?sid=") s then
      let r1 := drop 11 s in
      match span (is_digit nd) r1 with
      | O => None
      | S n1 =>
          if starts_with (cp "&page=") (drop (S n1) r1) then
            let r2 := drop 6 (drop (S n1) r1) in
            match span (is_digit nd) r2 with
            | O => None
            | S n2 => Some ((11 + S n1 + 6 + S n2)%nat, take (S n2) r2)
            end
          else None
      end
    else None.
Proof.
  unfold match_at, PAGE_RE. cbn [match_re].
  destruct (starts_with (cp "/table?sid=") s) eqn:Hs; [|reflexivity].
  apply starts_with_length in Hs.
  change (length (cp "/table?sid=")) with 11%nat in *.
  change (length (cp "&page=")) with 6%nat in *. cbv zeta.
  set (r1 := drop 11 s).
  rewrite backtrack_longest.
  - destruct (span (is_digit nd) r1) as [|n1] eqn:Hn1; [reflexivity|].
    destruct (starts_with (cp "&page=") (drop (S n1) r1)) eqn:Hp; [|reflexivity].
    apply starts_with_length in Hp.
    change (length (cp "&page=")) with 6%nat in Hp.
    set (r2 := drop 6 (drop (S n1) r1)) in *.
    pose proof (span_le (is_digit nd) r2) as Hle.
    rewrite (backtrack_total _
      (fun n => ((length s - length (drop n r2))%nat,
                 take (length r2 - length (drop n r2)) r2)))
      by reflexivity.
    destruct (span (is_digit nd) r2) as [|n2] eqn:Hn2; [reflexivity|].
    assert (Hr2 : length r2 = (length s - 11 - S n1 - 6)%nat)
      by (unfold r2, r1; rewrite !length_drop; lia).
    rewrite length_drop in Hp. unfold r1 in Hp. rewrite length_drop in Hp.
    rewrite !length_drop. do 2 f_equal; [lia|]. f_equal. lia.
  - intros m Hm. destruct (span_drop (is_digit nd) r1 m) as (c & t & -> & Hc); [lia|].
    cbn [starts_with cp map list_ascii_of_string].
    destruct (N.eqb_spec (N_of_ascii "&") c) as [<-|]; [|reflexivity].
    change (N_of_ascii "&") with 38 in Hc.
    now rewrite ampersand_not_digit in Hc.
Qed.

(** ** C3: the Pagination Resolver *)

Lemma py_max_spec (x : Z) (xs : list Z) :
  py_max x xs ∈ x :: xs /\ forall m, m ∈ x :: xs -> (m <= py_max x xs)%Z.
Proof.
  unfold py_max. revert x. induction xs as [|v xs IH]; intros x; simpl.
  - split; [left|]. intros m Hm. apply list_elem_of_singleton in Hm. lia.
  - destruct (IH (if (x <? v)%Z then v else x)) as [Hin Hub]. split.
    + apply elem_of_cons in Hin as [->|Hin].
      * destruct (x <? v)%Z; [right; left|left].
      * right; now right.
    + intros m Hm.
      pose proof (Hub _ (list_elem_of_here _ _)) as Hx'.
      apply elem_of_cons in Hm as [->|Hm];
        [destruct (Z.ltb_spec x v); lia|].
      apply elem_of_cons in Hm as [->|Hm];
        [destruct (Z.ltb_spec x v); lia|].
      apply Hub. now right.
Qed.

(** C3. For every first-page content, [extract_last_page] returns 0
    when the content has no page marker, and otherwise the greatest of
    the page numbers of all markers, whatever their order: the result
    is the same for any content whose markers are a rearrangement, and
    markers for the pages 0, 3, 1, 2 yield 3. *)
Theorem extract_last_page_max (html : str) :
  let markers := map (int nd) (findall (PAGE_RE nd) html) in
  let last := extract_last_page nd html 0 in
  (markers = [] -> last = 0%Z)
  /\ (markers <> [] ->
      last ∈ markers /\ forall m, m ∈ markers -> (m <= last)%Z)
  /\ (forall html',
        map (int nd) (findall (PAGE_RE nd) html') ≡ₚ markers ->
        extract_last_page nd html' 0 = last)
  /\ map (int nd) (findall (PAGE_RE nd) sample_pagination) = [0; 3; 1; 2]%Z
  /\ extract_last_page nd sample_pagination 0 = 3%Z.
Proof.
  assert (Hspec : forall h,
    let ms := map (int nd) (findall (PAGE_RE nd) h) in
    (ms = [] -> extract_last_page nd h 0 = 0%Z)
    /\ (ms <> [] -> extract_last_page nd h 0 ∈ ms
                    /\ forall m, m ∈ ms -> (m <= extract_last_page nd h 0)%Z)).
  { intros h ms. unfold extract_last_page. fold ms.
    destruct ms as [|p ps]; split; try congruence; intros _.
    apply py_max_spec. }
  intros markers last. destruct (Hspec html) as [Hnil Hmax].
  fold markers last in Hnil, Hmax. repeat split.
  - exact Hnil.
  - now apply Hmax.
  - now apply Hmax.
  - intros html' Hperm. destruct (Hspec html') as [Hnil' Hmax'].
    set (ms' := map (int nd) (findall (PAGE_RE nd) html')) in *.
    destruct (decide (markers = [])) as [He|Hne].
    + rewrite Hnil by exact He. apply Hnil'.
      rewrite He in Hperm. now apply Permutation_nil_r in Hperm.
    + assert (Hne' : ms' <> []).
      { intros He'. rewrite He' in Hperm.
        apply Permutation_nil_l in Hperm. congruence. }
      destruct (Hmax Hne) as [Hin Hub], (Hmax' Hne') as [Hin' Hub'].
      apply Z.le_antisymm.
      * apply Hub. now rewrite <- Hperm.
      * apply Hub'. now rewrite Hperm.
Qed.

End Pagination.

(** ** Invariants of runs

    A relation between the world before a command, its outcome and the
    world after it that holds of [ret] and composes along [bind] holds
    of every command built from commands it holds of. *)

Definition outcome {A} (r : result A) : option exn :=
  match r with Ok _ => None | Raise e => Some e end.

Section Invariants.
Variable J : World -> option exn -> World -> Prop.
Hypothesis J_refl : forall w, J w None w.
Hypothesis J_trans :
  forall w1 w2 w3 o, J w1 None w2 -> J w2 o w3 -> J w1 o w3.

Definition sat {A} (m : M A) : Prop :=
  forall w, J w (outcome (fst (m w))) (snd (m w)).

Lemma sat_ret {A} (a : A) : sat (ret a).
Proof. intros w. apply J_refl. Qed.

Lemma sat_bind {A B} (m : M A) (f : A -> M B) :
  sat m -> (forall a, sat (f a)) -> sat (bind m f).
Proof.
  intros Hm Hf w. unfold bind. specialize (Hm w).
  destruct (m w) as [[a|e] w1]; simpl in *; [|exact Hm].
  eapply J_trans; [exact Hm|]. apply Hf.
Qed.

Lemma sat_for_each {A} (l : list A) (body : A -> M unit) :
  (forall x, sat (body x)) -> sat (for_each l body).
Proof.
  intros Hb. induction l as [|x l IH]; simpl.
  - apply sat_ret.
  - apply sat_bind; [apply Hb|]. intros _. exact IH.
Qed.

Lemma sat_for_fold {A S} (l : list A) (body : S -> A -> M S) (s : S) :
  (forall s x, sat (body s x)) -> sat (for_fold l body s).
Proof.
  intros Hb. revert s. induction l as [|x l IH]; intros s; simpl.
  - apply sat_ret.
  - apply sat_bind; [apply Hb|]. intros s'. apply IH.
Qed.

Lemma sat_if {A} (b : bool) (m1 m2 : M A) :
  sat m1 -> sat m2 -> sat (if b then m1 else m2).
Proof. destruct b; auto. Qed.

End Invariants.

(** Invariants that speak of the events a command adds to the trace. *)
Definition on_events (I : option exn -> list event -> Prop)
    : World -> option exn -> World -> Prop :=
  fun w o w' => exists evs, trace w' = trace w ++ evs /\ I o evs.

Lemma on_events_refl (I : option exn -> list event -> Prop) :
  I None [] -> forall w, on_events I w None w.
Proof. intros H w. exists []. now rewrite app_nil_r. Qed.

Lemma on_events_trans (I : option exn -> list event -> Prop) :
  (forall o e1 e2, I None e1 -> I o e2 -> I o (e1 ++ e2)) ->
  forall w1 w2 w3 o,
    on_events I w1 None w2 -> on_events I w2 o w3 -> on_events I w1 o w3.
Proof.
  intros H w1 w2 w3 o (e1 & H1 & I1) (e2 & H2 & I2).
  exists (e1 ++ e2). split; [|now apply H].
  now rewrite H2, H1, app_assoc.
Qed.

(** ** The crawl *)

Section Crawl.
Variable nd : N -> option Z.
Variable time_sleep : pyfloat -> sleep_outcome.
Variable net : nat -> str -> option Response.
Variable sid : Z.
Variable delay : pyfloat.

Lemma crawl_loop_ok (pages : list Z) (htmls : list str)
    (st : gset str * list str) (w : World) :
  fetch_pages net sid (requests w) pages = Some htmls ->
  pages = [] \/ time_sleep delay = Sleeps ->
  for_fold pages (page_body time_sleep net sid delay) st w
  = (Ok (fold_left merge htmls st),
     mkWorld (disk w)
       (trace w ++ flat_map (fun p => [EvGet (page_url sid p) false true;
                                       EvSleep delay]) pages)
       (requests w + length pages)).
Proof.
  revert htmls st w. induction pages as [|p ps IH]; intros htmls st w; simpl.
  - intros [= <-] _. unfold ret. destruct w; simpl.
    now rewrite app_nil_r, Nat.add_0_r.
  - destruct (net (requests w) (page_url sid p)) as [r|] eqn:Hnet; [|discriminate].
    destruct (complete r) eqn:Hc; [|discriminate].
    destruct (fetch_pages net sid (S (requests w)) ps) as [hs|] eqn:Hps;
      [|discriminate].
    intros [= <-] [Hnil|Hsl]; [discriminate|].
    unfold bind at 1, page_body at 1, bind at 1, fetch. rewrite Hnet, Hc. simpl.
    unfold bind at 1, sleep. rewrite Hsl. unfold emit, ret. simpl.
    rewrite (IH hs) by (simpl; auto). simpl. f_equal. f_equal.
    + now rewrite <- !app_assoc.
    + lia.
Qed.

Lemma crawl_loop_inv (pages : list Z) (st st' : gset str * list str)
    (w w' : World) :
  for_fold pages (page_body time_sleep net sid delay) st w = (Ok st', w') ->
  (exists htmls, fetch_pages net sid (requests w) pages = Some htmls)
  /\ (pages = [] \/ time_sleep delay = Sleeps).
Proof.
  revert st w. induction pages as [|p ps IH]; intros st w; simpl.
  - intros _. eauto.
  - unfold bind at 1, page_body at 1, bind at 1, fetch.
    destruct (net (requests w) (page_url sid p)) as [r|] eqn:Hnet; [|discriminate].
    destruct (complete r) eqn:Hc; simpl; [|discriminate].
    unfold bind at 1, sleep.
    destruct (time_sleep delay) eqn:Hsl; [|discriminate..].
    unfold emit, ret. simpl. intros Hrun.
    apply IH in Hrun as [[hs Hhs] _]. simpl in Hhs. rewrite Hhs. simpl. eauto.
Qed.

Lemma fold_merge (htmls : list str) (st : gset str * list str) :
  fold_left merge htmls st
  = fold_left add_unseen (concat (map extract_material_slugs htmls)) st.
Proof.
  revert st. induction htmls as [|h hs IH]; intros st; simpl; [reflexivity|].
  now rewrite fold_left_app, IH.
Qed.

Lemma merge_first_seen (htmls : list str) :
  snd (fold_left merge htmls (∅, []))
  = first_seen (concat (map extract_material_slugs htmls)).
Proof.
  rewrite fold_merge.
  destruct (fold_add_unseen (concat (map extract_material_slugs htmls)) ∅ [])
    as [-> _].
  - intros x. rewrite elem_of_nil. set_solver.
  - simpl. apply filter_all. intros y _. apply not_elem_of_nil.
Qed.

Lemma fetch_pages_spec (pages : list Z) (n : nat) (htmls : list str) :
  fetch_pages net sid n pages = Some htmls ->
  length htmls = length pages
  /\ forall i p, pages !! i = Some p ->
       exists r, net (n + i)%nat (page_url sid p) = Some r
                 /\ complete r = true /\ htmls !! i = Some (text r).
Proof.
  revert n htmls. induction pages as [|p ps IH]; intros n htmls; simpl.
  - intros [= <-]. split; [reflexivity|]. intros i q Hq. discriminate.
  - destruct (net n (page_url sid p)) as [r|] eqn:Hnet; [|discriminate].
    destruct (complete r) eqn:Hc; [|discriminate].
    destruct (fetch_pages net sid (S n) ps) as [hs|] eqn:Hps; [|discriminate].
    intros [= <-]. destruct (IH _ _ Hps) as [Hlen Hi]. split; [simpl; lia|].
    intros [|i] q; simpl.
    + intros [= <-]. exists r. now rewrite Nat.add_0_r.
    + intros Hq. destruct (Hi _ _ Hq) as (r' & Hr' & ? & ?).
      exists r'. now rewrite <- Nat.add_succ_comm.
Qed.

Lemma py_range_lookup (lo hi : Z) (i : nat) (p : Z) :
  py_range lo hi !! i = Some p -> p = (lo + Z.of_nat i)%Z.
Proof.
  unfold py_range. rewrite list_lookup_fmap.
  destruct (seq 0 (Z.to_nat (hi - lo)) !! i) as [j|] eqn:Hj; [|discriminate].
  apply lookup_seq in Hj as [-> _]. simpl. now intros [= <-].
Qed.

Lemma py_range_length (lo hi : Z) :
  length (py_range lo hi) = Z.to_nat (hi - lo).
Proof. unfold py_range. now rewrite length_map, length_seq. Qed.

(** What [crawl_texts] holds: one text per page from 0 to the last page
    that page 0 announces, the text at position [i] being the response
    to the request number [n + i], sent for page [i]. *)
Lemma crawl_texts_pages (n : nat) (htmls : list str) :
  crawl_texts nd net sid n = Some htmls ->
  exists html0 rest,
    htmls = html0 :: rest
    /\ length rest = Z.to_nat (extract_last_page nd html0 0)
    /\ forall i h, htmls !! i = Some h ->
         exists r, net (n + i)%nat (page_url sid (Z.of_nat i)) = Some r
                   /\ complete r = true /\ text r = h.
Proof.
  unfold crawl_texts.
  destruct (fetch_pages net sid n [0%Z]) as [[|html0 [|]]|] eqn:H0; try discriminate.
  destruct (fetch_pages net sid (S n) _) as [rest|] eqn:Hrest; [|discriminate].
  intros [= <-]. exists html0, rest. split; [reflexivity|].
  destruct (fetch_pages_spec _ _ _ H0) as [_ Hp0].
  destruct (fetch_pages_spec _ _ _ Hrest) as [Hlen Hp].
  rewrite py_range_length in Hlen. split.
  { rewrite Hlen. f_equal. lia. }
  intros [|i] h; simpl.
  - intros [= <-]. destruct (Hp0 O 0%Z eq_refl) as (r & Hr & Hc & Ht).
    exists r. simpl in Ht. now injection Ht as <-.
  - intros Hh.
    assert (Hi : (i < length (py_range 1 (extract_last_page nd html0 0 + 1)))%nat).
    { rewrite py_range_length, <- Hlen. eapply lookup_lt_Some; eauto. }
    apply lookup_lt_is_Some in Hi as [q Hq].
    pose proof (py_range_lookup _ _ _ _ Hq) as ->.
    destruct (Hp _ _ Hq) as (r & Hr & Hc & Ht).
    exists r. rewrite Hh in Ht. injection Ht as <-.
    replace (Z.of_nat (S i)) with (1 + Z.of_nat i)%Z by lia.
    now rewrite <- Nat.add_succ_comm.
Qed.

Lemma collect_slugs_run (w : World) (htmls : list str) :
  crawl_texts nd net sid (requests w) = Some htmls ->
  length htmls = 1%nat \/ time_sleep delay = Sleeps ->
  collect_slugs nd time_sleep net sid delay w
  = (Ok (first_seen (concat (map extract_material_slugs htmls))),
     mkWorld (disk w)
       (trace w ++ crawl_events sid delay (extract_last_page nd (hd [] htmls) 0))
       (requests w + length htmls)).
Proof.
  unfold crawl_texts, collect_slugs. simpl.
  unfold bind at 1, fetch.
  destruct (net (requests w) (page_url sid 0)) as [r|] eqn:Hnet; [|discriminate].
  destruct (complete r) eqn:Hc; simpl; [|discriminate].
  destruct (fetch_pages net sid (S (requests w)) _) as [rest|] eqn:Hrest;
    [|discriminate].
  intros [= <-] Hsl. unfold bind at 1.
  pose proof (fetch_pages_spec _ _ _ Hrest) as [Hlen _].
  erewrite (crawl_loop_ok _ rest); [| exact Hrest |].
  - unfold ret. simpl. f_equal.
    + f_equal. change (fold_left add_unseen (extract_material_slugs (text r)) (∅, []))
        with (merge (∅, []) (text r)).
      change (fold_left merge rest (merge (∅, []) (text r)))
        with (fold_left merge (text r :: rest) (∅, [])).
      apply merge_first_seen.
    + unfold crawl_events. f_equal.
      * now rewrite <- app_assoc.
      * rewrite Hlen. lia.
  - destruct Hsl as [Hone|Hsl]; [left|now right].
    simpl in Hone. destruct rest; [|discriminate].
    now apply length_zero_iff_nil.
Qed.

Lemma collect_slugs_inv (w w' : World) (slugs : list str) :
  collect_slugs nd time_sleep net sid delay w = (Ok slugs, w') ->
  exists htmls,
    crawl_texts nd net sid (requests w) = Some htmls
    /\ (length htmls = 1%nat \/ time_sleep delay = Sleeps).
Proof.
  unfold crawl_texts, collect_slugs. simpl.
  unfold bind at 1, fetch.
  destruct (net (requests w) (page_url sid 0)) as [r|] eqn:Hnet; [|discriminate].
  destruct (complete r) eqn:Hc; simpl; [|discriminate].
  unfold bind at 1.
  destruct (for_fold _ _ _ _) as [[st'|e] w1] eqn:Hloop; [|discriminate].
  intros _. apply crawl_loop_inv in Hloop as [[rest Hrest] Hsl].
  simpl in Hrest. rewrite Hrest. simpl. eexists. split; [reflexivity|].
  destruct Hsl as [Hnil|Hsl]; [left|now right].
  apply fetch_pages_spec in Hrest as [Hlen _]. rewrite Hnil in Hlen.
  simpl in *. now rewrite Hlen.
Qed.

(** ** C1: the Crawl Collector *)

(** C1. A crawl that returns, returns the first-seen-order union of the
    per-page outputs of the Identifier Extractor over the pages 0 to the
    last page: the list has no duplicate, holds exactly the identifiers
    some page lists, and orders them by their first discovery, so that an
    identifier of a later page that an earlier page listed is not
    repeated.  The crawl does return when every page arrives and the
    delay is one the clock accepts.  On the catalog with the pages
    A, B, A and B, C the result is A, B, C. *)
Theorem collect_slugs_first_seen_union (w : World) :
  (forall slugs w',
      collect_slugs nd time_sleep net sid delay w = (Ok slugs, w') ->
      exists htmls,
        crawl_texts nd net sid (requests w) = Some htmls
        /\ slugs = first_seen (concat (map extract_material_slugs htmls))
        /\ NoDup slugs
        /\ (forall x, x ∈ slugs <->
                      exists h, h ∈ htmls /\ x ∈ extract_material_slugs h)
        /\ (forall i j x y,
              slugs !! i = Some x -> slugs !! j = Some y -> (i < j)%nat ->
              exists a b,
                index_of x (concat (map extract_material_slugs htmls)) = Some a
                /\ index_of y (concat (map extract_material_slugs htmls)) = Some b
                /\ (a < b)%nat))
  /\ (forall htmls,
        crawl_texts nd net sid (requests w) = Some htmls ->
        length htmls = 1%nat \/ time_sleep delay = Sleeps ->
        exists w',
          collect_slugs nd time_sleep net sid delay w
          = (Ok (first_seen (concat (map extract_material_slugs htmls))), w'))
  /\ (forall l1 l2 : list str,
        first_seen (l1 ++ l2)
        = first_seen l1 ++ filter (fun y => y ∉ l1) (first_seen l2))
  /\ fst (collect_slugs no_nd sample_sleep sample_net 7 (Finite 1) empty_world)
     = Ok [cp "A"; cp "B"; cp "C"].
Proof.
  split; [|split; [|split]].
  - intros slugs w' Hrun.
    destruct (collect_slugs_inv _ _ _ Hrun) as (htmls & Hc & Hsl).
    rewrite (collect_slugs_run _ _ Hc Hsl) in Hrun. injection Hrun as <- _.
    exists htmls. split; [exact Hc|]. split; [reflexivity|].
    split; [apply first_seen_NoDup|]. split.
    + intros x. now rewrite first_seen_elem, elem_of_concat_map.
    + apply first_seen_order.
  - intros htmls Hc Hsl. rewrite (collect_slugs_run _ _ Hc Hsl). eauto.
  - apply first_seen_app.
  - vm_compute. reflexivity.
Qed.

(** ** C7: the delays of the crawl *)

Lemma delays_between_pages (pages : list Z) (tail : list event) :
  (forall e, head tail = Some e -> is_sleep e = false) ->
  delays_between_fetches
    (flat_map (fun p => [EvGet (page_url sid p) false true; EvSleep delay]) pages
     ++ tail)
  = (match pages, tail with
     | [], _ => 0
     | _ :: _, EvGet _ _ _ :: _ => length pages
     | _ :: _, _ => length pages - 1
     end + delays_between_fetches tail)%nat.
Proof.
  intros Htail. induction pages as [|p ps IH]; [reflexivity|].
  cbn [flat_map app delays_between_fetches]. rewrite IH.
  destruct ps as [|q qs]; cbn [flat_map app length].
  - destruct tail as [|[] tail]; simpl; try lia.
  - destruct tail as [|[] tail]; simpl; lia.
Qed.

Lemma sleeps_of_pages (pages : list Z) :
  length (filter (fun e => is_sleep e = true)
            (flat_map (fun p => [EvGet (page_url sid p) false true;
                                 EvSleep delay]) pages))
  = length pages.
Proof. induction pages as [|p ps IH]; [reflexivity|]. simpl. now rewrite IH. Qed.

Lemma last_of_pages (pages : list Z) (e0 : event) :
  pages <> [] ->
  last (e0 :: flat_map (fun p => [EvGet (page_url sid p) false true;
                                  EvSleep delay]) pages)
  = Some (EvSleep delay).
Proof.
  revert e0. induction pages as [|p ps IH]; intros e0 Hne; [congruence|].
  destruct ps as [|q qs]; [reflexivity|].
  change (last (EvSleep delay
                :: flat_map (fun p => [EvGet (page_url sid p) false true;
                                       EvSleep delay]) (q :: qs))
          = Some (EvSleep delay)).
  now apply IH.
Qed.

(** C7, as the code has it.  A crawl that returns sleeps after each of
    the pages 1 to the last page, the last page included, and not after
    page 0: its events are the request for page 0 and then, for each of
    the pages 1 to the last, the request and the delay.  It sleeps as
    often as the number of the last page, and all of these delays but
    the final one lie between two page requests. *)
Theorem collect_slugs_delays (w w' : World) (slugs : list str) :
  collect_slugs nd time_sleep net sid delay w = (Ok slugs, w') ->
  exists html0 rest,
    crawl_texts nd net sid (requests w) = Some (html0 :: rest)
    /\ let last_page := extract_last_page nd html0 0 in
       trace w' = trace w ++ crawl_events sid delay last_page
       /\ crawl_events sid delay last_page
          = EvGet (page_url sid 0) false true
            :: flat_map (fun p => [EvGet (page_url sid p) false true;
                                   EvSleep delay])
                 (py_range 1 (last_page + 1))
       /\ length (filter (fun e => is_sleep e = true)
                    (crawl_events sid delay last_page))
          = Z.to_nat last_page
       /\ delays_between_fetches (crawl_events sid delay last_page)
          = Z.to_nat (Z.max (last_page - 1) 0)
       /\ ((0 < last_page)%Z ->
           last (crawl_events sid delay last_page) = Some (EvSleep delay)).
Proof.
  intros Hrun.
  destruct (collect_slugs_inv _ _ _ Hrun) as (htmls & Hc & Hsl).
  rewrite (collect_slugs_run _ _ Hc Hsl) in Hrun. injection Hrun as _ <-.
  destruct (crawl_texts_pages _ _ Hc) as (html0 & rest & -> & Hlen & _).
  exists html0, rest. split; [exact Hc|]. simpl hd. cbv zeta.
  set (last_page := extract_last_page nd html0 0) in *.
  split; [reflexivity|]. split; [reflexivity|].
  assert (Hpages : length (py_range 1 (last_page + 1)) = Z.to_nat last_page).
  { rewrite py_range_length. f_equal. lia. }
  unfold crawl_events. split; [|split].
  - rewrite filter_cons_False by (simpl; discriminate).
    now rewrite sleeps_of_pages.
  - cbn [delays_between_fetches].
    assert (Hnone : delays_between_fetches
              (flat_map (fun p => [EvGet (page_url sid p) false true;
                                   EvSleep delay]) (py_range 1 (last_page + 1)))
            = (length (py_range 1 (last_page + 1)) - 1)%nat).
    { pose proof (delays_between_pages (py_range 1 (last_page + 1)) []) as H.
      rewrite app_nil_r in H. rewrite H by discriminate.
      destruct (py_range 1 (last_page + 1)); simpl; lia. }
    rewrite Hnone, Hpages.
    destruct (flat_map _ _) as [|[] ?]; simpl; lia.
  - intros Hpos. apply last_of_pages.
    intros Hnil. rewrite Hnil in Hpages. simpl in Hpages. lia.
Qed.

End Crawl.

(** ** Paths *)

Lemma split_sep_no_sep (s : str) : 47 ∉ s -> split_sep s = [s].
Proof.
  induction s as [|c s IH]; intros Hs; [reflexivity|]. simpl.
  apply not_elem_of_cons in Hs as [Hc Hs].
  destruct (N.eqb_spec c 47); [congruence|]. now rewrite IH.
Qed.

(** Appending text without a separator extends the last piece. *)
Lemma split_sep_snoc (s : str) :
  exists F X, split_sep s = F ++ [X]
    /\ forall t, 47 ∉ t -> split_sep (s ++ t) = F ++ [X ++ t].
Proof.
  induction s as [|c s (F & X & HF & Ht)].
  - exists [], []. split; [reflexivity|]. intros t Hn. now apply split_sep_no_sep.
  - simpl. destruct (N.eqb_spec c 47).
    + exists ([] :: F), X. rewrite HF. split; [reflexivity|].
      intros t Hn. now rewrite Ht.
    + rewrite HF. destruct F as [|f F]; simpl.
      * exists [], (c :: X). split; [reflexivity|].
        intros t Hn. now rewrite Ht.
      * exists ((c :: f) :: F), X. split; [reflexivity|].
        intros t Hn. now rewrite Ht.
Qed.

Lemma split_sep_pieces (s x : str) : x ∈ split_sep s -> 47 ∉ x.
Proof.
  revert x. induction s as [|c s IH]; intros x; simpl.
  - intros Hx. apply list_elem_of_singleton in Hx as ->. apply not_elem_of_nil.
  - destruct (N.eqb_spec c 47).
    + intros Hx. apply elem_of_cons in Hx as [->|Hx]; [apply not_elem_of_nil|auto].
    + destruct (split_sep s) as [|h t] eqn:Hsp.
      * intros Hx. apply list_elem_of_singleton in Hx as ->.
        apply not_elem_of_cons. split; [congruence|apply not_elem_of_nil].
      * intros Hx. apply elem_of_cons in Hx as [->|Hx].
        -- apply not_elem_of_cons. split; [congruence|]. apply IH. left.
        -- apply IH. now right.
Qed.

Lemma components_valid (s : str) : Forall valid_component (components s).
Proof.
  apply Forall_forall. intros x Hx. unfold components in Hx.
  apply list_elem_of_filter in Hx as [[Hne Hdot] Hx].
  repeat split; [assumption| |assumption]. eapply split_sep_pieces; eauto.
Qed.

Lemma split_sep_cons_piece (x rest : str) :
  47 ∉ x -> split_sep (x ++ 47 :: rest) = x :: split_sep rest.
Proof.
  induction x as [|c x IH]; intros Hx; [reflexivity|]. simpl.
  apply not_elem_of_cons in Hx as [Hc Hx].
  destruct (N.eqb_spec c 47); [congruence|]. now rewrite IH.
Qed.

Lemma split_sep_join (L : list str) :
  L <> [] -> Forall (fun x => 47 ∉ x) L -> split_sep (join_sep L) = L.
Proof.
  induction L as [|x L IH]; intros Hne HL; [congruence|].
  apply Forall_cons in HL as [Hx HL].
  destruct L as [|y L]; [now apply split_sep_no_sep|].
  change (join_sep (x :: y :: L)) with (x ++ 47 :: join_sep (y :: L)).
  rewrite split_sep_cons_piece by assumption. f_equal. now apply IH.
Qed.

(** Parsing the text of a list of components gives the components. *)
Lemma components_join (L : list str) :
  Forall valid_component L -> components (join_sep L) = L.
Proof.
  intros HL. destruct L as [|x L]; [reflexivity|].
  unfold components. rewrite split_sep_join; [|congruence|].
  - apply filter_all. intros y Hy.
    apply (proj1 (Forall_forall _ _) HL) in Hy as (? & _ & ?). tauto.
  - eapply Forall_impl; [exact HL|]. intros y (_ & ? & _). assumption.
Qed.

Lemma join_sep_head (x : str) (L : list str) :
  exists t, join_sep (x :: L) = x ++ t.
Proof.
  destruct L as [|y L]; [exists []; simpl; now rewrite app_nil_r|].
  now exists (47 :: join_sep (y :: L)).
Qed.

Lemma relative_to_inv (p other rel : Path) :
  relative_to p other = Some rel ->
  p = mkPath (root_of other) (parts other ++ parts rel)
  /\ root_of rel = Relative.
Proof.
  unfold relative_to. destruct (decide _) as [[Hr [ext Hp]]|]; [|discriminate].
  intros [= <-]. simpl. rewrite Hp, drop_app_length.
  destruct p as [r ps]. simpl in *. now subst.
Qed.

Lemma relative_to_under (o : Path) (ext : list str) :
  relative_to (mkPath (root_of o) (parts o ++ ext)) o
  = Some (mkPath Relative ext).
Proof.
  unfold relative_to. simpl. rewrite decide_True.
  - now rewrite drop_app_length.
  - split; [reflexivity|]. now exists ext.
Qed.

(** The text of a relative path, read against the path it is relative
    to, names the path it was computed from. *)
Lemma relative_roundtrip (dest out rel : Path) :
  relative_to dest out = Some rel ->
  Forall valid_component (parts rel) ->
  joinpath out (path_str rel) = dest.
Proof.
  intros Hrel Hvalid. apply relative_to_inv in Hrel as [-> Hroot].
  destruct rel as [r L]. simpl in *. subst r. unfold path_str. simpl.
  destruct L as [|x L].
  - reflexivity.
  - destruct (join_sep_head x L) as [t Ht].
    pose proof (Forall_inv Hvalid) as (Hne & Hsep & _).
    destruct x as [|c x]; [congruence|].
    apply not_elem_of_cons in Hsep as [Hc _].
    assert (Hjoin : join_sep ((c :: x) :: L) = c :: (x ++ t)) by exact Ht.
    rewrite Hjoin. unfold joinpath. cbn [starts_with cp map list_ascii_of_string].
    destruct (N.eqb_spec (N_of_ascii "/") c) as [Heq|_].
    + exfalso. apply Hc. now rewrite <- Heq.
    + simpl. rewrite <- Hjoin. now rewrite components_join.
Qed.

(** ** The disk *)


Lemma lookup_node_exists (d : Disk) (p : Path) :
  path_exists d p = true <-> is_Some (lookup_node d p).
Proof. unfold path_exists. apply bool_decide_eq_true. Qed.

Lemma lookup_node_absent (d : Disk) (p : Path) :
  path_exists d p = false <-> lookup_node d p = None.
Proof.
  unfold path_exists. rewrite bool_decide_eq_false.
  split; [apply eq_None_not_Some|]. intros ->. apply is_Some_None.
Qed.

Lemma lookup_node_insert_ne (d : Disk) (p q : Path) (n : node) :
  p <> q -> lookup_node (<[p := n]> d) q = lookup_node d q.
Proof.
  intros Hne. unfold lookup_node. destruct (parts q); [reflexivity|].
  now apply lookup_insert_ne.
Qed.

Lemma lookup_node_insert (d : Disk) (p : Path) (n : node) :
  is_Some (lookup_node (<[p := n]> d) p).
Proof.
  unfold lookup_node. destruct (parts p); [eauto|].
  rewrite lookup_insert_eq. eauto.
Qed.

(** Writing chunks touches the one file only, and keeps it in place. *)
Lemma write_all_lookup_ne (p q : Path) (cs : list str) (d : Disk) :
  p <> q -> write_all p cs d !! q = d !! q.
Proof.
  intros Hne. unfold write_all. revert d.
  induction cs as [|c cs IH]; intros d; [reflexivity|]. simpl. rewrite IH.
  destruct c; [reflexivity|]. unfold append_file. now apply lookup_alter_ne.
Qed.

Lemma write_all_lookup (p : Path) (cs : list str) (d : Disk) (b : str) :
  d !! p = Some (File (Bytes b)) ->
  write_all p cs d !! p = Some (File (Bytes (b ++ concat cs))).
Proof.
  unfold write_all. revert d b.
  induction cs as [|c cs IH]; intros d b Hd; simpl.
  - now rewrite app_nil_r.
  - destruct c as [|x c].
    + now apply IH.
    + rewrite (IH _ (b ++ x :: c)); [now rewrite <- app_assoc|].
      unfold append_file. rewrite lookup_alter_eq, Hd. reflexivity.
Qed.

Lemma write_all_lookup_node_ne (p q : Path) (cs : list str) (d : Disk) :
  p <> q -> lookup_node (write_all p cs d) q = lookup_node d q.
Proof.
  intros Hne. unfold lookup_node. destruct (parts q); [reflexivity|].
  now apply write_all_lookup_ne.
Qed.

Lemma for_each_write_chunk (p : Path) (cs : list str) (w : World) :
  for_each cs (write_chunk p) w
  = (Ok tt, mkWorld (write_all p cs (disk w)) (trace w) (requests w)).
Proof.
  unfold write_all. revert w. induction cs as [|c cs IH]; intros w; simpl.
  - unfold ret. now destruct w.
  - unfold bind. destruct c as [|x c]; simpl.
    + apply IH.
    + now rewrite IH.
Qed.

(** Opening a missing file that has its directory creates it, empty. *)
Lemma open_write_absent (p : Path) (d d1 : Disk) :
  lookup_node d p = None ->
  open_write p d = Some d1 ->
  d1 = <[p := File (Bytes [])]> d /\ lookup_node d (parent p) = Some Dir.
Proof.
  unfold open_write. intros ->.
  destruct (lookup_node d (parent p)) as [[|c]|]; try discriminate.
  now intros [= <-].
Qed.

(** [mkdir] with parents creates directories only, on the way to the
    path, where nothing was. *)
Lemma mkdir_rev_frame (r : root) (rp : list str) (d d1 : Disk) (q : Path) :
  mkdir_rev r rp d = Some d1 ->
  d1 !! q <> d !! q ->
  root_of q = r /\ parts q `prefix_of` rev rp
  /\ d !! q = None /\ d1 !! q = Some Dir.
Proof.
  revert d1. induction rp as [|c rp IH]; intros d1; simpl.
  - intros [= <-] Hne. congruence.
  - destruct (d !! mkPath r (rev rp ++ [c])) as [[|f]|] eqn:Hl.
    + intros [= <-] Hne. congruence.
    + discriminate.
    + destruct (mkdir_rev r rp d) as [d'|]; [|discriminate].
      intros [= <-] Hne.
      destruct (decide (mkPath r (rev rp ++ [c]) = q)) as [<-|Hq].
      * rewrite lookup_insert_eq. simpl. auto.
      * rewrite lookup_insert_ne in Hne |- * by assumption.
        destruct (IH d' eq_refl Hne) as (? & ? & ? & ?).
        repeat split; try assumption. now apply prefix_app_r.
Qed.

Lemma mkdir_p_frame (p q : Path) (d d1 : Disk) :
  mkdir_p p d = Some d1 ->
  ~ parts q `prefix_of` parts p ->
  lookup_node d1 q = lookup_node d q.
Proof.
  unfold mkdir_p. intros Hm Hq. unfold lookup_node.
  destruct (parts q) eqn:Hparts; [reflexivity|].
  destruct (decide (d1 !! q = d !! q)) as [|Hne]; [assumption|].
  destruct (mkdir_rev_frame _ _ _ _ _ Hm Hne) as (_ & Hpre & _).
  rewrite rev_involutive, Hparts in Hpre. contradiction.
Qed.

Lemma mkdir_p_keeps (p q : Path) (d d1 : Disk) :
  mkdir_p p d = Some d1 ->
  is_Some (lookup_node d q) ->
  lookup_node d1 q = lookup_node d q.
Proof.
  unfold mkdir_p. intros Hm Hq. unfold lookup_node in *.
  destruct (parts q) eqn:Hparts; [reflexivity|].
  destruct (decide (d1 !! q = d !! q)) as [|Hne]; [assumption|].
  destruct (mkdir_rev_frame _ _ _ _ _ Hm Hne) as (_ & _ & Hnone & _).
  rewrite Hnone in Hq. now destruct Hq.
Qed.

Lemma mkdir_p_dir (p : Path) (d d1 : Disk) :
  mkdir_p p d = Some d1 -> lookup_node d1 p = Some Dir.
Proof.
  unfold mkdir_p, lookup_node. destruct p as [r ps]. simpl.
  destruct ps as [|a ps'] eqn:Hps using rev_ind; [reflexivity|]. clear IHps'.
  rewrite rev_app_distr. simpl.
  destruct (ps' ++ [a]) eqn:Happ; [now destruct ps'|]. rewrite <- Happ.
  rewrite rev_involutive.
  destruct (d !! mkPath r (ps' ++ [a])) as [[|f]|] eqn:Hl.
  - now intros [= <-].
  - discriminate.
  - destruct (mkdir_rev r (rev ps') d); [|discriminate].
    intros [= <-]. apply lookup_insert_eq.
Qed.

Lemma mkdir_p_existing (p : Path) (d : Disk) :
  lookup_node d p = Some Dir -> mkdir_p p d = Some d.
Proof.
  unfold mkdir_p, lookup_node. destruct p as [r ps]. simpl.
  destruct ps as [|a ps'] eqn:Hps using rev_ind; [reflexivity|]. clear IHps'.
  rewrite rev_app_distr. simpl.
  destruct (ps' ++ [a]) eqn:Happ; [now destruct ps'|]. rewrite <- Happ.
  rewrite rev_involutive. now intros ->.
Qed.

(** What exists on a well-formed disk lies under directories only. *)
Lemma disk_wf_ancestor (d : Disk) (r : root) (ps ext : list str) :
  disk_wf d -> ext <> [] ->
  is_Some (lookup_node d (mkPath r (ps ++ ext))) ->
  lookup_node d (mkPath r ps) = Some Dir.
Proof.
  intros Hwf. induction ext as [|c ext IH] using rev_ind; [congruence|].
  intros _ [n Hn]. unfold lookup_node in Hn. simpl in Hn.
  destruct (ps ++ ext ++ [c]) eqn:Happ.
  { apply app_eq_nil in Happ as [_ Happ]. now destruct ext. }
  rewrite <- Happ in Hn. apply Hwf in Hn. unfold parent in Hn. simpl in Hn.
  rewrite app_assoc, removelast_last in Hn.
  destruct ext as [|c' ext'].
  - now rewrite app_nil_r in Hn.
  - apply IH; [congruence|]. rewrite Hn. eauto.
Qed.

(** ** The files of an item *)

Lemma starts_with_slash_app (s t : str) :
  starts_with (cp "/") (s ++ 46 :: t) = starts_with (cp "/") s.
Proof. destruct s; reflexivity. Qed.

Lemma components_snoc (slug : str) :
  exists F X,
    components slug = F ++ filter (fun x => x <> [] /\ x <> cp ".") [X]
    /\ forall suffix, 47 ∉ suffix -> suffix <> [] ->
         components (slug ++ 46 :: suffix) = F ++ [X ++ 46 :: suffix].
Proof.
  destruct (split_sep_snoc slug) as (F & X & HF & Ht).
  exists (filter (fun x => x <> [] /\ x <> cp ".") F), X. unfold components.
  rewrite HF, filter_app. split; [reflexivity|]. intros suffix Hsep Hne.
  rewrite Ht by (apply not_elem_of_cons; split; [discriminate|assumption]).
  rewrite filter_app. f_equal. rewrite filter_cons_True; [reflexivity|]. split.
  - intros He. now apply app_eq_nil in He as [_ He].
  - intros He. apply (f_equal length) in He. rewrite length_app in He.
    destruct suffix; [congruence|]. simpl in He. lia.
Qed.

(** The path of a file of an item ends with a component that carries the
    suffix, and is not on the way to the directory of the item. *)
Lemma target_parts (out_dir : Path) (slug : str) :
  exists Q X,
    forall suffix, 47 ∉ suffix -> suffix <> [] ->
      parts (target out_dir slug suffix) = Q ++ [X ++ cp "." ++ suffix]
      /\ ~ parts (target out_dir slug suffix)
           `prefix_of` parts (material_dir out_dir slug).
Proof.
  destruct (components_snoc slug) as (F & X & Hc & Hcs).
  destruct (starts_with (cp "/") slug) eqn:Habs.
  - exists F, X. intros suffix Hsep Hne.
    unfold target, material_dir, joinpath.
    change (slug ++ cp "." ++ suffix) with (slug ++ 46 :: suffix).
    rewrite starts_with_slash_app, Habs. simpl. rewrite Hcs, Hc by assumption.
    split; [reflexivity|].
    intros Hpre. apply prefix_app_inv in Hpre.
    destruct (decide (X <> [] /\ X <> cp ".")) as [HX|HX].
    + rewrite filter_cons_True in Hpre by assumption.
      destruct Hpre as [k Hk]. injection Hk as Hk _.
      apply (f_equal length) in Hk. rewrite length_app in Hk. simpl in Hk. lia.
    + rewrite filter_cons_False in Hpre by assumption.
      destruct Hpre as [k Hk]. discriminate.
  - exists (parts out_dir ++ components slug ++ F), X.
    intros suffix Hsep Hne.
    unfold target, material_dir, joinpath.
    change (slug ++ cp "." ++ suffix) with (slug ++ 46 :: suffix).
    rewrite starts_with_slash_app, Habs. simpl. rewrite Hcs by assumption.
    split; [now rewrite <- !app_assoc|].
    intros [k Hk]. apply (f_equal length) in Hk.
    rewrite !length_app in Hk. simpl in Hk. lia.
Qed.

Lemma suffix_json_ok : (47 ∉ cp "json") /\ cp "json" <> [].
Proof.
  split; [|discriminate]. intros H. vm_compute in H.
  repeat (apply elem_of_cons in H as [H|H]; [discriminate|]).
  now apply elem_of_nil in H.
Qed.

Lemma suffix_cif_ok : (47 ∉ cp "cif") /\ cp "cif" <> [].
Proof.
  split; [|discriminate]. intros H. vm_compute in H.
  repeat (apply elem_of_cons in H as [H|H]; [discriminate|]).
  now apply elem_of_nil in H.
Qed.

Lemma target_json_cif (out_dir : Path) (slug : str) :
  target out_dir slug (cp "json") <> target out_dir slug (cp "cif").
Proof.
  destruct (target_parts out_dir slug) as (Q & X & H).
  destruct suffix_json_ok as [Hj1 Hj2], suffix_cif_ok as [Hc1 Hc2].
  destruct (H _ Hj1 Hj2) as [Hj _], (H _ Hc1 Hc2) as [Hc _].
  intros Heq. rewrite Heq, Hc in Hj.
  apply app_inv_head in Hj. injection Hj as Hj.
  apply app_inv_head in Hj. discriminate.
Qed.

(** ** [download_file] *)

(** Whatever [time.sleep] raises, it is no transport error. *)
Lemma sleep_exn_quiet (o : sleep_outcome) (e : exn) :
  sleep_exn o = Some e -> e <> TransportError.
Proof. destruct o; simpl; congruence. Qed.

Section Download.
Variable time_sleep : pyfloat -> sleep_outcome.
Variable net : nat -> str -> option Response.

Lemma download_file_cases (url : str) (dest : Path) (delay : pyfloat)
    (w w' : World) (r : result unit) :
  download_file time_sleep net url dest delay w = (r, w') ->
  download_file_runs time_sleep net url dest delay w r w'.
Proof.
  unfold download_file, bind at 1, get_disk.
  destruct (path_exists (disk w) dest) eqn:Hex.
  { intros [= <- <-]. now constructor. }
  unfold bind at 1, fetch. simpl.
  destruct (net (requests w) url) as [rsp|] eqn:Hnet; simpl;
    [|intros [= <- <-]; now constructor].
  unfold bind at 1, emit. simpl. unfold bind at 1, fs_op. simpl.
  destruct (open_write dest (disk w)) as [d1|] eqn:Hopen; simpl.
  2:{ intros [= <- <-]. rewrite <- app_assoc. simpl. econstructor; eauto. }
  unfold bind at 1. rewrite for_each_write_chunk. simpl.
  unfold bind at 1. destruct (complete rsp) eqn:Hc; simpl.
  - unfold ret, sleep. destruct (time_sleep delay) eqn:Hsl; simpl;
      unfold emit, raise; simpl; intros [= <- <-]; rewrite <- !app_assoc;
      simpl; econstructor; eauto; now rewrite Hsl.
  - unfold bind, emit, raise. simpl. intros [= <- <-].
    rewrite <- !app_assoc. simpl. econstructor; eauto.
Qed.

Lemma download_file_skip (url : str) (dest : Path) (delay : pyfloat)
    (w : World) :
  path_exists (disk w) dest = true ->
  download_file time_sleep net url dest delay w = (Ok tt, w).
Proof. intros Hex. unfold download_file, bind, get_disk. now rewrite Hex. Qed.


(** A call of [download_file] that returns either found the file, or
    fetched and wrote it. *)
Lemma download_file_ok (url : str) (dest : Path) (delay : pyfloat)
    (w w' : World) :
  download_file time_sleep net url dest delay w = (Ok tt, w') ->
  (path_exists (disk w) dest = true /\ w' = w)
  \/ (path_exists (disk w) dest = false
      /\ exists rsp,
           net (requests w) url = Some rsp /\ complete rsp = true
           /\ w' = mkWorld
                     (write_all dest (chunks rsp)
                        (<[dest := File (Bytes [])]> (disk w)))
                     (trace w ++ [EvGet url true true; EvOpen dest WriteBinary;
                                  EvSleep delay])
                     (S (requests w))).
Proof.
  intros Hrun. apply download_file_cases in Hrun.
  inversion Hrun; subst; [now left|right].
  split; [assumption|]. exists r. repeat split; try assumption.
  match goal with H : path_exists _ _ = false |- _ =>
    apply lookup_node_absent in H end.
  match goal with H : open_write _ _ = Some _ |- _ =>
    apply open_write_absent in H as [-> _]; [reflexivity|assumption] end.
Qed.

(** However a call of [download_file] ends, it touches no other path,
    and what existed before exists after it. *)
Lemma download_file_frame (url : str) (dest : Path) (delay : pyfloat)
    (w w' : World) (r : result unit) :
  download_file time_sleep net url dest delay w = (r, w') ->
  (forall q, q <> dest -> lookup_node (disk w') q = lookup_node (disk w) q)
  /\ (forall q, path_exists (disk w) q = true -> path_exists (disk w') q = true).
Proof.
  intros Hrun. apply download_file_cases in Hrun.
  assert (Hwr : forall rsp d1, path_exists (disk w) dest = false ->
            open_write dest (disk w) = Some d1 ->
            (forall q, q <> dest ->
               lookup_node (write_all dest (chunks rsp) d1) q
               = lookup_node (disk w) q)).
  { intros rsp d1 Habs Hopen q Hq. apply lookup_node_absent in Habs.
    apply open_write_absent in Hopen as [-> _]; [|assumption].
    rewrite write_all_lookup_node_ne by congruence.
    apply lookup_node_insert_ne. congruence. }
  assert (Hmono : forall d', path_exists (disk w) dest = false ->
            (forall q, q <> dest -> lookup_node d' q = lookup_node (disk w) q) ->
            forall q, path_exists (disk w) q = true -> path_exists d' q = true).
  { intros d' Habs Hfr q Hq. destruct (decide (q = dest)) as [->|Hne];
      [congruence|].
    apply lookup_node_exists. rewrite Hfr by assumption.
    now apply lookup_node_exists. }
  inversion Hrun; subst; simpl; split; eauto.
Qed.

(** The events of a call of [download_file], by the way it ends. *)
Lemma download_file_events (url : str) (dest : Path) (delay : pyfloat)
    (w w' : World) (r : result unit) :
  download_file time_sleep net url dest delay w = (r, w') ->
  exists evs,
    trace w' = trace w ++ evs
    /\ match r with
       | Ok _ =>
           path_exists (disk w') dest = true
           /\ (evs = []
               \/ evs = [EvGet url true true; EvOpen dest WriteBinary;
                         EvSleep delay])
       | Raise e =>
           (evs = [EvGet url true false] /\ e = TransportError)
           \/ (evs = [EvGet url true true; EvOpen dest WriteBinary]
               /\ e <> TransportError)
           \/ (evs = [EvGet url true true; EvOpen dest WriteBinary;
                      EvBroken url]
               /\ e = TransportError)
       end.
Proof.
  intros Hrun. pose proof (download_file_cases _ _ _ _ _ _ Hrun) as Hr.
  inversion Hr; subst; simpl.
  - exists []. rewrite app_nil_r. auto.
  - eexists. split; [reflexivity|]. auto.
  - eexists. split; [reflexivity|]. right; left. split; [reflexivity|discriminate].
  - eexists. split; [reflexivity|]. auto.
  - eexists. split; [reflexivity|]. right; left. split; [reflexivity|].
    eapply sleep_exn_quiet; eassumption.
  - eexists. split; [reflexivity|]. split; [|auto].
    match goal with H : path_exists _ _ = false |- _ =>
      apply lookup_node_absent in H end.
    match goal with H : open_write _ _ = Some _ |- _ =>
      apply open_write_absent in H as [-> Hpar]; [|assumption] end.
    apply lookup_node_exists. unfold lookup_node in *.
    destruct (parts dest); [eauto|].
    rewrite (write_all_lookup _ _ _ []); [eauto|apply lookup_insert_eq].
Qed.

Lemma mkdir_run (p : Path) (w : World) :
  mkdir p w
  = match mkdir_p p (disk w) with
    | Some d1 => (Ok tt, mkWorld d1 (trace w ++ [EvMkdir p]) (requests w))
    | None =>
        (Raise OSError, mkWorld (disk w) (trace w ++ [EvMkdir p]) (requests w))
    end.
Proof.
  unfold mkdir, bind, emit, fs_op. simpl. now destruct (mkdir_p p (disk w)).
Qed.

(** [download_material], step by step: the directory, the json file and
    its relative path, the cif file and its relative path, the record. *)
Lemma download_material_steps (slug : str) (out_dir : Path) (delay : pyfloat)
    (w : World) :
  download_material time_sleep net slug out_dir delay w
  = match mkdir (material_dir out_dir slug) w with
    | (Raise e, w1) => (Raise e, w1)
    | (Ok _, w1) =>
      match download_file time_sleep net (download_url slug (cp "json"))
              (target out_dir slug (cp "json")) delay w1 with
      | (Raise e, w2) => (Raise e, w2)
      | (Ok _, w2) =>
        match relative_to (target out_dir slug (cp "json")) out_dir with
        | None => (Raise ValueError, w2)
        | Some relj =>
          match download_file time_sleep net (download_url slug (cp "cif"))
                  (target out_dir slug (cp "cif")) delay w2 with
          | (Raise e, w3) => (Raise e, w3)
          | (Ok _, w3) =>
            match relative_to (target out_dir slug (cp "cif")) out_dir with
            | None => (Raise ValueError, w3)
            | Some relc =>
                (Ok [(cp "slug", slug); (cp "json", path_str relj);
                     (cp "cif", path_str relc)], w3)
            end
          end
        end
      end
    end.
Proof.
  unfold download_material. fold (material_dir out_dir slug).
  unfold bind at 1. destruct (mkdir _ w) as [[[]|e] w1]; [|reflexivity].
  unfold DOWNLOAD_TYPES. cbn [for_fold fst snd].
  fold (target out_dir slug (cp "json")). fold (target out_dir slug (cp "cif")).
  unfold bind at 1. unfold bind at 1.
  destruct (download_file _ _ _ (target out_dir slug (cp "json")) _ w1)
    as [[[]|e] w2]; [|reflexivity].
  destruct (relative_to (target out_dir slug (cp "json")) out_dir) as [relj|];
    [|reflexivity].
  unfold ret at 1. unfold bind at 1. unfold bind at 1.
  destruct (download_file _ _ _ (target out_dir slug (cp "cif")) _ w2)
    as [[[]|e] w3]; [|reflexivity].
  destruct (relative_to (target out_dir slug (cp "cif")) out_dir) as [relc|];
    reflexivity.
Qed.

End Download.

Lemma sat_events {A} (I : option exn -> list event -> Prop) (m : M A)
    (w w' : World) (r : result A) (evs : list event) :
  sat (on_events I) m -> m w = (r, w') -> trace w' = trace w ++ evs ->
  I (outcome r) evs.
Proof.
  intros Hs Hrun Htr. destruct (Hs w) as (evs' & Htr' & HI).
  rewrite Hrun in Htr', HI. simpl in *. rewrite Htr in Htr'.
  apply app_inv_head in Htr'. now subst.
Qed.

Lemma sat_trace {A} (I : option exn -> list event -> Prop) (m : M A)
    (w w' : World) (r : result A) :
  sat (on_events I) m -> m w = (r, w') ->
  exists evs, trace w' = trace w ++ evs /\ I (outcome r) evs.
Proof.
  intros Hs Hrun. destruct (Hs w) as (evs & Htr & HI).
  rewrite Hrun in Htr, HI. eauto.
Qed.

Lemma abort_inv_iff (o : option exn) (evs : list event) :
  abort_inv o evs ->
  (Exists (fun e => is_failure e = true) evs <-> o = Some TransportError).
Proof.
  intros Ha.
  assert (Hno : Forall (fun e => is_failure e = false) evs ->
                ~ Exists (fun e => is_failure e = true) evs).
  { intros Hf He. apply Exists_exists in He as (e & Hin & He).
    apply (proj1 (Forall_forall _ _) Hf) in Hin. congruence. }
  destruct o as [[]|]; simpl in Ha; split; try (intros He; now apply Hno in He);
    try discriminate; try reflexivity.
  intros _. destruct Ha as (pre & e & -> & He & _).
  apply Exists_app. right. now constructor.
Qed.

(** ** Invariants of the events of the script *)

Section OnEvents.
Variable I : option exn -> list event -> Prop.
Variable allowed : event -> Prop.
Hypothesis HI : admits I allowed.
Variable nd : N -> option Z.
Variable time_sleep : pyfloat -> sleep_outcome.
Variable net : nat -> str -> option Response.

Lemma oe_refl (w : World) : on_events I w None w.
Proof. apply on_events_refl, HI. Qed.

Lemma oe_trans (w1 w2 w3 : World) (o : option exn) :
  on_events I w1 None w2 -> on_events I w2 o w3 -> on_events I w1 o w3.
Proof. apply on_events_trans, HI. Qed.

Lemma oe_ret {A} (a : A) : sat (on_events I) (ret a).
Proof. apply sat_ret, oe_refl. Qed.

Lemma oe_bind {A B} (m : M A) (f : A -> M B) :
  sat (on_events I) m -> (forall a, sat (on_events I) (f a)) ->
  sat (on_events I) (bind m f).
Proof. apply sat_bind, oe_trans. Qed.

Lemma oe_for_fold {A S} (l : list A) (body : S -> A -> M S) (s : S) :
  (forall s x, x ∈ l -> sat (on_events I) (body s x)) ->
  sat (on_events I) (for_fold l body s).
Proof.
  revert s. induction l as [|x l IH]; intros s Hb; simpl.
  - apply oe_ret.
  - apply oe_bind; [apply Hb; left|]. intros s'. apply IH.
    intros s0 y Hy. apply Hb. now right.
Qed.

Lemma oe_for_each {A} (l : list A) (body : A -> M unit) :
  (forall x, sat (on_events I) (body x)) -> sat (on_events I) (for_each l body).
Proof. apply sat_for_each; [apply oe_refl|apply oe_trans]. Qed.

(** A command that leaves the trace as it is and raises nothing but
    an exception other than [TransportError]. *)
Lemma oe_quiet {A} (m : M A) :
  (forall w, trace (snd (m w)) = trace w
             /\ outcome (fst (m w)) <> Some TransportError) ->
  sat (on_events I) m.
Proof.
  intros Hm w. destruct (Hm w) as [Ht Ho]. exists []. rewrite app_nil_r.
  split; [assumption|]. destruct (outcome (fst (m w))) as [e|]; [|apply HI].
  apply HI. congruence.
Qed.

Lemma oe_raise {A} (e : exn) :
  e <> TransportError -> sat (on_events I) (@raise A e).
Proof. intros He. apply oe_quiet. intros w. simpl. split; congruence. Qed.

Lemma oe_fs_op (f : Disk -> option Disk) : sat (on_events I) (fs_op f).
Proof.
  apply oe_quiet. intros w. unfold fs_op. destruct (f (disk w)); simpl;
    split; congruence.
Qed.

Lemma oe_write_chunk (p : Path) (c : str) : sat (on_events I) (write_chunk p c).
Proof. apply oe_quiet. intros w. destruct c; simpl; split; congruence. Qed.

Lemma oe_emit (e : event) :
  allowed e -> is_failure e = false -> sat (on_events I) (emit e).
Proof. intros Ha Hf w. exists [e]. split; [reflexivity|]. now apply HI. Qed.

Lemma oe_fetch (url : str) (stream : bool) :
  (forall ok, allowed (EvGet url stream ok)) ->
  sat (on_events I) (fetch net url stream).
Proof.
  intros Ha w. unfold fetch.
  destruct (net (requests w) url) as [r|];
    [destruct (stream || complete r)|]; simpl;
    eexists; (split; [reflexivity|]); now apply HI.
Qed.

Lemma oe_sleep (d : pyfloat) :
  allowed (EvSleep d) -> sat (on_events I) (sleep time_sleep d).
Proof.
  intros Ha. unfold sleep. destruct (time_sleep d); simpl.
  - now apply oe_emit.
  - now apply oe_raise.
  - now apply oe_raise.
Qed.

Lemma oe_mkdir (p : Path) :
  allowed (EvMkdir p) -> sat (on_events I) (mkdir p).
Proof.
  intros Ha. apply oe_bind; [now apply oe_emit|]. intros _. apply oe_fs_op.
Qed.

Lemma oe_broken (url : str) :
  allowed (EvBroken url) ->
  sat (on_events I) (let* _ := emit (EvBroken url) in @raise unit TransportError).
Proof. intros Ha w. exists [EvBroken url]. split; [reflexivity|]. now apply HI. Qed.

Lemma oe_download_file (url : str) (dest : Path) (delay : pyfloat) :
  (forall ok, allowed (EvGet url true ok)) ->
  allowed (EvOpen dest WriteBinary) ->
  allowed (EvBroken url) ->
  allowed (EvSleep delay) ->
  sat (on_events I) (download_file time_sleep net url dest delay).
Proof.
  intros Hg Ho Hb Hs. unfold download_file.
  apply oe_bind; [apply oe_quiet; intros w; simpl; split; congruence|].
  intros d. destruct (path_exists d dest); [apply oe_ret|].
  apply oe_bind; [now apply oe_fetch|]. intros r.
  apply oe_bind; [now apply oe_emit|]. intros _.
  apply oe_bind; [apply oe_fs_op|]. intros _.
  apply oe_bind; [apply oe_for_each, oe_write_chunk|]. intros _.
  apply oe_bind; [|intros _; now apply oe_sleep].
  destruct (complete r); [apply oe_ret|now apply oe_broken].
Qed.

Lemma oe_collect_slugs (sid : Z) (delay : pyfloat) :
  (forall e, crawl_event sid delay e -> allowed e) ->
  sat (on_events I) (collect_slugs nd time_sleep net sid delay).
Proof.
  intros Ha. unfold collect_slugs.
  apply oe_bind; [apply oe_fetch; intros ok; apply Ha; simpl; eauto|].
  intros r. cbv zeta. apply oe_bind; [|intros st; apply oe_ret].
  apply oe_for_fold. intros st page _.
  apply oe_bind; [apply oe_fetch; intros ok; apply Ha; simpl; eauto|].
  intros r'. apply oe_bind; [|intros _; apply oe_ret].
  apply oe_sleep, Ha. reflexivity.
Qed.

Lemma oe_download_material (slug : str) (out_dir : Path) (delay : pyfloat) :
  (forall e, item_event slug out_dir delay e -> allowed e) ->
  sat (on_events I) (download_material time_sleep net slug out_dir delay).
Proof.
  intros Ha. unfold download_material.
  apply oe_bind; [apply oe_mkdir, Ha; reflexivity|]. intros _.
  apply oe_for_fold. intros en ks Hks.
  apply oe_bind.
  - apply oe_download_file; [intros ok|..]; apply Ha; simpl; eauto.
  - intros _. destruct (relative_to _ _); [apply oe_ret|now apply oe_raise].
Qed.

Lemma oe_download_all (out_dir : Path) (delay : pyfloat) (slugs : list str)
    (records : list entry) :
  (forall slug e, slug ∈ slugs -> item_event slug out_dir delay e -> allowed e) ->
  sat (on_events I)
    (download_all time_sleep net out_dir delay slugs records).
Proof.
  intros Ha. unfold download_all. apply oe_for_fold. intros recs slug Hs.
  apply oe_bind; [|intros en; apply oe_ret].
  apply oe_download_material. intros e. now apply Ha.
Qed.

Lemma oe_write_manifest (records : list entry) (p : Path) :
  (forall e, manifest_event p e -> allowed e) ->
  sat (on_events I) (write_manifest records p).
Proof.
  intros Ha. unfold write_manifest.
  apply oe_bind; [apply oe_mkdir, Ha; reflexivity|]. intros _.
  apply oe_bind; [apply oe_emit; [apply Ha|]; reflexivity|]. intros _.
  apply oe_bind; [apply oe_fs_op|]. intros _.
  apply oe_bind; [apply oe_emit; [apply Ha|]; reflexivity|]. intros _.
  apply oe_quiet. intros w. simpl. split; congruence.
Qed.

Lemma oe_main (args : Args) :
  (forall e, allowed e) ->
  sat (on_events I) (main nd time_sleep net args).
Proof.
  intros Ha. unfold main. cbv zeta.
  apply oe_bind; [now apply oe_mkdir|]. intros _.
  apply oe_bind; [now apply oe_collect_slugs|]. intros slugs.
  apply oe_bind; [now apply oe_download_all|]. intros records.
  apply oe_bind; [now apply oe_write_manifest|]. intros _. apply oe_ret.
Qed.

End OnEvents.

Lemma admits_abort : admits abort_inv (fun _ => True).
Proof.
  split; [constructor|]. split; [|split; [|split]].
  - intros o e1 e2 H1 H2. simpl in H1.
    destruct o as [[]|]; simpl in *; try (now apply Forall_app).
    destruct H2 as (pre & e & -> & He & Hpre).
    exists (e1 ++ pre), e. rewrite app_assoc. repeat split; [assumption|].
    now apply Forall_app.
  - intros e _ He. simpl. now repeat constructor.
  - intros e _ He. exists [], e. repeat split; [assumption|constructor].
  - intros [] He; simpl; try constructor. congruence.
Qed.

Lemma admits_all (P allowed : event -> Prop) :
  (forall e, allowed e -> P e) ->
  admits (fun _ evs => Forall P evs) allowed.
Proof.
  intros HP. split; [constructor|]. split; [|split; [|split]].
  - intros o e1 e2 H1 H2. now apply Forall_app.
  - intros e He _. repeat constructor. now apply HP.
  - intros e He _. repeat constructor. now apply HP.
  - intros e _. constructor.
Qed.

(** ** The Item Downloader *)

Lemma target_relative (out_dir : Path) (slug sfx : str) :
  starts_with (cp "/") slug = false ->
  material_dir out_dir slug
  = mkPath (root_of out_dir) (parts out_dir ++ components slug)
  /\ target out_dir slug sfx
     = mkPath (root_of out_dir)
         (parts out_dir ++ components slug ++ components (slug ++ 46 :: sfx)).
Proof.
  intros Hrel. unfold target, material_dir, joinpath.
  change (slug ++ cp "." ++ sfx) with (slug ++ 46 :: sfx).
  rewrite starts_with_slash_app, Hrel. simpl. now rewrite <- app_assoc.
Qed.

(** The relative path of a file of an item consists of components. *)
Lemma target_relative_valid (out_dir : Path) (slug sfx : str) (rel : Path) :
  relative_to (target out_dir slug sfx) out_dir = Some rel ->
  Forall valid_component (parts rel).
Proof.
  destruct (starts_with (cp "/") slug) eqn:Hslash.
  - unfold relative_to. destruct (decide _); [|discriminate].
    intros [= <-]. simpl. apply Forall_drop.
    unfold target, joinpath.
    change (slug ++ cp "." ++ sfx) with (slug ++ 46 :: sfx).
    rewrite starts_with_slash_app, Hslash. simpl. apply components_valid.
  - destruct (target_relative out_dir slug sfx Hslash) as [_ Ht].
    intros Hrel. apply relative_to_inv in Hrel as [Hrel _].
    rewrite Ht in Hrel. injection Hrel as Hrel.
    apply app_inv_head in Hrel. rewrite <- Hrel.
    apply Forall_app. split; apply components_valid.
Qed.



Lemma open_not_in_mkdir (p mdir : Path) : EvOpen p WriteBinary ∉ [EvMkdir mdir].
Proof. intros H. apply list_elem_of_singleton in H. inversion H. Qed.

Lemma open_not_in_fetched (p q mdir : Path) (url : str) (delay : pyfloat) :
  p <> q ->
  EvOpen p WriteBinary
  ∉ [EvMkdir mdir; EvGet url true true; EvOpen q WriteBinary; EvSleep delay].
Proof.
  intros Hne H.
  repeat (apply elem_of_cons in H as [H|H]; [inversion H; congruence|]).
  now apply elem_of_nil in H.
Qed.

(** Closes a goal from the membership of an event in a list of events
    none of which it can be. *)
Ltac no_such_event H :=
  repeat (apply elem_of_cons in H as [H|H];
          [first [discriminate H | inversion H; subst; congruence]|]);
  now apply elem_of_nil in H.

Section ItemDownloader.
Variable time_sleep : pyfloat -> sleep_outcome.
Variable net : nat -> str -> option Response.

(** ** C5: an item whose files exist *)

(** C5, as the code has it.  For every identifier that does not begin
    with a slash and whose two target files exist on the disk,
    [download_material] sends no request and changes nothing on the
    disk: it only calls [mkdir] for the directory of the item, which
    exists, and returns the record whose two paths, read against the
    output root, name the two existing files. *)
Theorem download_material_existing (slug : str) (out_dir : Path)
    (delay : pyfloat) (w : World) :
  starts_with (cp "/") slug = false ->
  disk_wf (disk w) ->
  path_exists (disk w) (target out_dir slug (cp "json")) = true ->
  path_exists (disk w) (target out_dir slug (cp "cif")) = true ->
  exists pj pc,
    download_material time_sleep net slug out_dir delay w
    = (Ok [(cp "slug", slug); (cp "json", pj); (cp "cif", pc)],
       mkWorld (disk w)
         (trace w ++ [EvMkdir (material_dir out_dir slug)])
         (requests w))
    /\ joinpath out_dir pj = target out_dir slug (cp "json")
    /\ joinpath out_dir pc = target out_dir slug (cp "cif").
Proof.
  intros Hslash Hwf Hj Hc.
  destruct (target_relative out_dir slug (cp "json") Hslash) as [Hm Htj].
  destruct (target_relative out_dir slug (cp "cif") Hslash) as [_ Htc].
  assert (Hdir : lookup_node (disk w) (material_dir out_dir slug) = Some Dir).
  { rewrite Hm. apply (disk_wf_ancestor _ _ _ (components (slug ++ 46 :: cp "json")));
      [assumption| |].
    - destruct (components_snoc slug) as (F & X & _ & Hs).
      destruct suffix_json_ok as [H1 H2]. rewrite (Hs _ H1 H2).
      intros He. now apply app_eq_nil in He as [_ He].
    - apply lookup_node_exists in Hj. rewrite Htj, app_assoc in Hj. exact Hj. }
  rewrite download_material_steps, mkdir_run, (mkdir_p_existing _ _ Hdir).
  rewrite download_file_skip by exact Hj.
  destruct (relative_to (target out_dir slug (cp "json")) out_dir) as [relj|] eqn:Hrj.
  2:{ rewrite Htj, relative_to_under in Hrj. discriminate. }
  rewrite download_file_skip by exact Hc.
  destruct (relative_to (target out_dir slug (cp "cif")) out_dir) as [relc|] eqn:Hrc.
  2:{ rewrite Htc, relative_to_under in Hrc. discriminate. }
  exists (path_str relj), (path_str relc). split; [reflexivity|].
  split; eapply relative_roundtrip; eauto using target_relative_valid.
Qed.

(** ** C6: a fresh item *)


(** ** C9: the files of a record exist *)

Lemma lookup_node_target (d : Disk) (out_dir : Path) (slug sfx : str) :
  47 ∉ sfx -> sfx <> [] ->
  lookup_node d (target out_dir slug sfx) = d !! target out_dir slug sfx.
Proof.
  intros H1 H2. destruct (target_parts out_dir slug) as (Q & X & H).
  destruct (H _ H1 H2) as [Hp _]. unfold lookup_node. rewrite Hp.
  now destruct Q.
Qed.

(** C9. Whenever [download_material] returns a record, no request of
    the call failed, the record holds the identifier and one path per
    kind, each path read against the output root names the target file
    of its kind, and both target files exist on the disk at that
    moment; each of them was either on the disk before the call and is
    untouched, or was fetched and written by the call. *)
Theorem download_material_record (slug : str) (out_dir : Path)
    (delay : pyfloat) (w w' : World) (e : entry) :
  download_material time_sleep net slug out_dir delay w = (Ok e, w') ->
  exists pj pc evs,
    e = [(cp "slug", slug); (cp "json", pj); (cp "cif", pc)]
    /\ joinpath out_dir pj = target out_dir slug (cp "json")
    /\ joinpath out_dir pc = target out_dir slug (cp "cif")
    /\ path_exists (disk w') (target out_dir slug (cp "json")) = true
    /\ path_exists (disk w') (target out_dir slug (cp "cif")) = true
    /\ trace w' = trace w ++ evs
    /\ Forall (fun ev => is_failure ev = false) evs
    /\ provenance w w' evs (download_url slug (cp "json"))
         (target out_dir slug (cp "json"))
    /\ provenance w w' evs (download_url slug (cp "cif"))
         (target out_dir slug (cp "cif")).
Proof.
  intros Hrun. rewrite download_material_steps, mkdir_run in Hrun.
  set (mdir := material_dir out_dir slug) in *.
  set (tj := target out_dir slug (cp "json")) in *.
  set (tc := target out_dir slug (cp "cif")) in *.
  destruct (mkdir_p mdir (disk w)) as [d1|] eqn:Hmk; [|discriminate].
  destruct (download_file _ _ _ tj _ _) as [[[]|e1] w2] eqn:Hj; [|discriminate].
  destruct (relative_to tj out_dir) as [relj|] eqn:Hrj; [|discriminate].
  destruct (download_file _ _ _ tc _ _) as [[[]|e2] w3] eqn:Hc; [|discriminate].
  destruct (relative_to tc out_dir) as [relc|] eqn:Hrc; [|discriminate].
  injection Hrun as <- <-.
  exists (path_str relj), (path_str relc).
  destruct suffix_json_ok as [Hsj Hsj'], suffix_cif_ok as [Hsc Hsc'].
  destruct (target_parts out_dir slug) as (Q & X & Hparts).
  destruct (Hparts _ Hsj Hsj') as [_ Hnpj].
  destruct (Hparts _ Hsc Hsc') as [_ Hnpc].
  fold tj mdir in Hnpj. fold tc mdir in Hnpc.
  pose proof (mkdir_p_frame _ _ _ _ Hmk Hnpj) as Hfj.
  pose proof (mkdir_p_frame _ _ _ _ Hmk Hnpc) as Hfc.
  assert (Hjc : tj <> tc) by apply target_json_cif.
  assert (Hcj : tc <> tj) by (intros Heq; now apply Hjc).
  assert (Hlj : forall d, lookup_node d tj = d !! tj)
    by (intros d; now apply lookup_node_target).
  assert (Hlc : forall d, lookup_node d tc = d !! tc)
    by (intros d; now apply lookup_node_target).
  assert (Hpj : joinpath out_dir (path_str relj) = tj)
    by (eapply relative_roundtrip; eauto using target_relative_valid).
  assert (Hpc : joinpath out_dir (path_str relc) = tc)
    by (eapply relative_roundtrip; eauto using target_relative_valid).
  assert (Hex : forall d q, path_exists d q = bool_decide (is_Some (lookup_node d q)))
    by reflexivity.
  destruct (download_file_ok _ _ _ _ _ _ _ Hj)
    as [[Hexj ->]|(Habsj & rspj & Hnj & Hwj & ->)];
  destruct (download_file_ok _ _ _ _ _ _ _ Hc)
    as [[Hexc ->]|(Habsc & rspc & Hnc & Hwc & ->)];
  cbn [disk trace requests] in *.
  - (* both files were there *)
    exists [EvMkdir mdir].
    split; [reflexivity|]. split; [exact Hpj|]. split; [exact Hpc|].
    split; [assumption|]. split; [assumption|].
    split; [reflexivity|]. split; [repeat constructor|].
    rewrite Hex, Hfj in Hexj. rewrite Hex, Hfc in Hexc.
    split; left; (split; [assumption|]); (split; [assumption|]);
      apply open_not_in_mkdir.
  - (* the json file was there, the cif file is fetched *)
    exists [EvMkdir mdir; EvGet (download_url slug (cp "cif")) true true;
            EvOpen tc WriteBinary; EvSleep delay].
    split; [reflexivity|]. split; [exact Hpj|]. split; [exact Hpc|].
    rewrite Hex, Hfj in Hexj. rewrite Hex, Hfc in Habsc.
    assert (Hj3 : lookup_node
              (write_all tc (chunks rspc) (<[tc := File (Bytes [])]> d1)) tj
            = lookup_node (disk w) tj).
    { rewrite write_all_lookup_node_ne, lookup_node_insert_ne by assumption.
      assumption. }
    assert (Hc3 : lookup_node
              (write_all tc (chunks rspc) (<[tc := File (Bytes [])]> d1)) tc
            = Some (File (Bytes (concat (chunks rspc))))).
    { rewrite Hlc, (write_all_lookup _ _ _ []); [reflexivity|].
      apply lookup_insert_eq. }
    split; [now rewrite Hex, Hj3|]. split; [now rewrite Hex, Hc3|].
    split; [now rewrite <- app_assoc|]. split; [repeat constructor|].
    split; [left|right].
    + split; [assumption|]. split; [assumption|].
      now apply open_not_in_fetched.
    + split; [assumption|]. split; [|split; [|eauto]];
        rewrite !elem_of_cons; tauto.
  - (* the json file is fetched, the cif file was there *)
    exists [EvMkdir mdir; EvGet (download_url slug (cp "json")) true true;
            EvOpen tj WriteBinary; EvSleep delay].
    split; [reflexivity|]. split; [exact Hpj|]. split; [exact Hpc|].
    rewrite Hex, Hfj in Habsj.
    assert (Hc3 : lookup_node
              (write_all tj (chunks rspj) (<[tj := File (Bytes [])]> d1)) tc
            = lookup_node (disk w) tc).
    { rewrite write_all_lookup_node_ne, lookup_node_insert_ne by assumption.
      assumption. }
    assert (Hj3 : lookup_node
              (write_all tj (chunks rspj) (<[tj := File (Bytes [])]> d1)) tj
            = Some (File (Bytes (concat (chunks rspj))))).
    { rewrite Hlj, (write_all_lookup _ _ _ []); [reflexivity|].
      apply lookup_insert_eq. }
    rewrite Hex, Hc3 in Hexc.
    split; [now rewrite Hex, Hj3|]. split; [now rewrite Hex, Hc3|].
    split; [now rewrite <- app_assoc|]. split; [repeat constructor|].
    split; [right|left].
    + split; [assumption|]. split; [|split; [|eauto]];
        rewrite !elem_of_cons; tauto.
    + split; [assumption|]. split; [assumption|].
      now apply open_not_in_fetched.
  - (* both files are fetched *)
    exists [EvMkdir mdir; EvGet (download_url slug (cp "json")) true true;
            EvOpen tj WriteBinary; EvSleep delay;
            EvGet (download_url slug (cp "cif")) true true;
            EvOpen tc WriteBinary; EvSleep delay].
    split; [reflexivity|]. split; [exact Hpj|]. split; [exact Hpc|].
    rewrite Hex, Hfj in Habsj.
    set (d2 := write_all tj (chunks rspj) (<[tj := File (Bytes [])]> d1)) in *.
    assert (Hc2 : lookup_node d2 tc = lookup_node (disk w) tc).
    { unfold d2.
      rewrite write_all_lookup_node_ne, lookup_node_insert_ne by assumption.
      assumption. }
    rewrite Hex, Hc2 in Habsc.
    assert (Hj3 : lookup_node
              (write_all tc (chunks rspc) (<[tc := File (Bytes [])]> d2)) tj
            = Some (File (Bytes (concat (chunks rspj))))).
    { rewrite write_all_lookup_node_ne, lookup_node_insert_ne by assumption.
      unfold d2. rewrite Hlj, (write_all_lookup _ _ _ []); [reflexivity|].
      apply lookup_insert_eq. }
    assert (Hc3 : lookup_node
              (write_all tc (chunks rspc) (<[tc := File (Bytes [])]> d2)) tc
            = Some (File (Bytes (concat (chunks rspc))))).
    { rewrite Hlc, (write_all_lookup _ _ _ []); [reflexivity|].
      apply lookup_insert_eq. }
    split; [now rewrite Hex, Hj3|]. split; [now rewrite Hex, Hc3|].
    split; [now rewrite <- !app_assoc|]. split; [repeat constructor|].
    split; right; (split; [assumption|]);
      (split; [|split; [|eauto]]); rewrite !elem_of_cons; tauto.
Qed.

(** ** C10: json first, then cif *)

Lemma download_url_json_cif (slug : str) :
  download_url slug (cp "json") <> download_url slug (cp "cif").
Proof.
  unfold download_url. intros H.
  repeat apply app_inv_head in H. discriminate.
Qed.

(** C10. In every call of [download_material] that sends the request
    for the cif file, the json file was dealt with first: the events of
    the call are the [mkdir], then nothing (the json file was there) or
    the request, the write and the delay of the json file, and only then
    the cif request; the json file is on the disk when the call ends.
    When the cif request fails, or its body breaks off, the call raises
    [TransportError] and returns no record. *)
Theorem download_material_json_before_cif (slug : str) (out_dir : Path)
    (delay : pyfloat) (w w' : World) (r : result entry) (evs : list event)
    (ok : bool) :
  download_material time_sleep net slug out_dir delay w = (r, w') ->
  trace w' = trace w ++ evs ->
  EvGet (download_url slug (cp "cif")) true ok ∈ evs ->
  path_exists (disk w') (target out_dir slug (cp "json")) = true
  /\ exists evsj rest,
       evs = EvMkdir (material_dir out_dir slug)
             :: evsj ++ EvGet (download_url slug (cp "cif")) true ok :: rest
       /\ (evsj = []
           \/ evsj = [EvGet (download_url slug (cp "json")) true true;
                      EvOpen (target out_dir slug (cp "json")) WriteBinary;
                      EvSleep delay])
       /\ (ok = false -> r = Raise TransportError /\ rest = [])
       /\ (EvBroken (download_url slug (cp "cif")) ∈ rest ->
           r = Raise TransportError).
Proof.
  intros Hrun Htr Hin. rewrite download_material_steps, mkdir_run in Hrun.
  set (mdir := material_dir out_dir slug) in *.
  set (tj := target out_dir slug (cp "json")) in *.
  set (tc := target out_dir slug (cp "cif")) in *.
  set (uj := download_url slug (cp "json")) in *.
  set (uc := download_url slug (cp "cif")) in *.
  assert (Hu : uj <> uc) by apply download_url_json_cif.
  destruct (mkdir_p mdir (disk w)) as [d1|] eqn:Hmk.
  2:{ injection Hrun as <- <-. simpl in Htr. apply app_inv_head in Htr as <-.
      apply list_elem_of_singleton in Hin. discriminate. }
  destruct (download_file _ _ uj tj _ _) as [rj w2] eqn:Hj.
  destruct (download_file_events _ _ _ _ _ _ _ _ Hj) as (ej & Htj & Hej).
  simpl in Htj.
  destruct rj as [[]|e1].
  2:{ injection Hrun as <- <-. rewrite Htj, <- app_assoc in Htr.
      apply app_inv_head in Htr as <-.
      destruct Hej as [[-> _]|[[-> _]|[-> _]]]; no_such_event Hin. }
  destruct Hej as [Hexj Hej].
  destruct (relative_to tj out_dir) as [relj|].
  2:{ injection Hrun as <- <-. rewrite Htj, <- app_assoc in Htr.
      apply app_inv_head in Htr as <-.
      destruct Hej as [->| ->]; no_such_event Hin. }
  destruct (download_file _ _ uc tc _ _) as [rc w3] eqn:Hc.
  destruct (download_file_events _ _ _ _ _ _ _ _ Hc) as (ec & Htc & Hec).
  destruct (download_file_frame _ _ _ _ _ _ _ _ Hc) as [_ Hmono].
  assert (Hw' : w' = w3) by (destruct rc as [[]|]; [destruct (relative_to tc _)|];
                              now injection Hrun).
  subst w'. split; [now apply Hmono|].
  rewrite Htc, Htj, <- !app_assoc in Htr. apply app_inv_head in Htr as <-.
  exists ej. cbn [app].
  assert (Hnj : EvGet uc true ok ∉ ej).
  { intros Hin'. destruct Hej as [->| ->]; no_such_event Hin'. }
  apply elem_of_cons in Hin as [Hin|Hin]; [discriminate|].
  apply elem_of_app in Hin as [Hin|Hin]; [contradiction|].
  destruct rc as [[]|e2].
  - destruct Hec as [_ [->| ->]]; [no_such_event Hin|].
    apply elem_of_cons in Hin as [Hin|Hin]; [|no_such_event Hin].
    injection Hin as ->. eexists. split; [reflexivity|]. split; [assumption|].
    split; [discriminate|]. intros Hb. no_such_event Hb.
  - injection Hrun as <-.
    destruct Hec as [[-> ->]|[[-> Hne]|[-> ->]]];
      (apply elem_of_cons in Hin as [Hin|Hin]; [|no_such_event Hin]);
      injection Hin as ->; eexists; (split; [reflexivity|]);
      (split; [assumption|]); split; try discriminate; auto.
    intros Hb. no_such_event Hb.
Qed.

End ItemDownloader.

(** ** The run *)

Section Run.
Variable nd : N -> option Z.
Variable time_sleep : pyfloat -> sleep_outcome.
Variable net : nat -> str -> option Response.

(** [main], step by step: the output directory, the crawl, the
    downloads of the identifiers kept, the manifest. *)
Lemma main_steps (args : Args) (w : World) :
  main nd time_sleep net args w
  = match mkdir (output args) w with
    | (Raise e, w1) => (Raise e, w1)
    | (Ok _, w1) =>
      match collect_slugs nd time_sleep net (sid args) (delay args) w1 with
      | (Raise e, w2) => (Raise e, w2)
      | (Ok slugs, w2) =>
        match download_all time_sleep net (output args) (delay args)
                (kept args slugs) [] w2 with
        | (Raise e, w3) => (Raise e, w3)
        | (Ok records, w3) =>
          match write_manifest records (manifest_path args) w3 with
          | (Raise e, w4) => (Raise e, w4)
          | (Ok _, w4) => (Ok 0%Z, w4)
          end
        end
      end
    end.
Proof.
  unfold main, download_all, kept, manifest_path. cbv zeta.
  unfold bind at 1. destruct (mkdir _ w) as [[[]|e] w1]; [|reflexivity].
  unfold bind at 1. destruct (collect_slugs _ _ _ _ _ w1) as [[slugs|e] w2];
    [|reflexivity].
  unfold bind at 1. destruct (for_fold _ _ _ w2) as [[records|e] w3];
    [|reflexivity].
  unfold bind at 1.
  destruct (write_manifest records _ w3) as [[[]|e] w4]; reflexivity.
Qed.

(** The loop of [main] over the identifiers is a chain of calls of the
    Item Downloader, and returns the records in the order of the calls. *)
Lemma download_all_downloads (out_dir : Path) (delay : pyfloat)
    (slugs : list str) (acc : list entry) (w w' : World)
    (r : result (list entry)) :
  download_all time_sleep net out_dir delay slugs acc w = (r, w') ->
  exists recs,
    downloads time_sleep net out_dir delay slugs w recs (outcome r) w'
    /\ forall final, r = Ok final -> final = acc ++ recs.
Proof.
  unfold download_all. revert acc w. induction slugs as [|slug slugs IH];
    intros acc w; simpl.
  - intros [= <- <-]. exists []. split; [constructor|].
    intros final [= <-]. now rewrite app_nil_r.
  - unfold bind at 1, bind at 1.
    destruct (download_material _ _ slug _ _ w) as [[rec|e] w1] eqn:Hd.
    + unfold ret at 1. intros Hrest. apply IH in Hrest as (recs & Hds & Hfin).
      exists (rec :: recs). split; [econstructor; eauto|].
      intros final Hf. rewrite (Hfin _ Hf), <- app_assoc. reflexivity.
    + intros [= <- <-]. exists []. split; [now constructor|]. discriminate.
Qed.

(** The records of a chain of calls name the identifiers, in order. *)
Lemma downloads_slugs (out_dir : Path) (delay : pyfloat) (slugs : list str)
    (w w' : World) (recs : list entry) (o : option exn) :
  downloads time_sleep net out_dir delay slugs w recs o w' ->
  map (dict_get (cp "slug")) recs = map Some (take (length recs) slugs)
  /\ (o = None -> length recs = length slugs).
Proof.
  induction 1 as [w|slug slugs w e w' Hd|slug slugs w rec w1 recs o w' Hd Hds IH].
  - split; reflexivity.
  - split; [reflexivity|discriminate].
  - destruct IH as [IH1 IH2]. split.
    + simpl. rewrite IH1. f_equal.
      rewrite download_material_steps in Hd.
      destruct (mkdir _ w) as [[[]|] ?]; [|discriminate].
      destruct (download_file _ _ _ _ _ _) as [[[]|] ?]; [|discriminate].
      destruct (relative_to _ _); [|discriminate].
      destruct (download_file _ _ _ _ _ _) as [[[]|] ?]; [|discriminate].
      destruct (relative_to _ _); [|discriminate].
      injection Hd as <- _. reflexivity.
    + intros Ho. simpl. now rewrite IH2.
Qed.

Lemma write_manifest_ok (records : list entry) (p : Path) (w w' : World) :
  write_manifest records p w = (Ok tt, w') ->
  trace w' = trace w ++ [EvMkdir (parent p); EvOpen p WriteText;
                         EvDump p records]
  /\ disk w' !! p = Some (File (Json records)).
Proof.
  unfold write_manifest. unfold bind at 1. rewrite mkdir_run.
  destruct (mkdir_p (parent p) (disk w)) as [d1|]; [|discriminate].
  unfold bind at 1, emit at 1. simpl. unfold bind at 1, fs_op. simpl.
  destruct (open_write p d1) as [d2|]; [|discriminate].
  unfold bind, emit, set_disk_file. simpl. intros [= <-]. simpl.
  split; [now rewrite <- !app_assoc|apply lookup_insert_eq].
Qed.

Lemma slice_to_take {A} (n : Z) (l : list A) :
  (0 <= n)%Z -> slice_to n l = take (Z.to_nat n) l.
Proof.
  intros Hn. unfold slice_to. destruct (Z.ltb_spec n 0); [lia|reflexivity].
Qed.

(** ** C8: the cap on the number of items *)

(** C8. With the option of the cap set to a count [n], in a run whose
    crawl returned the identifiers [slugs]: the identifiers kept are the
    first [n]; what happens after the crawl is a chain of calls of the
    Item Downloader for these, in order, and every event of that chain
    belongs to the download of one of them; when a call raises, the run
    ends there with that exception; otherwise the run goes on to the
    Manifest Writer with one record per identifier kept, in order, and
    when the writer returns, the manifest holds exactly these records. *)
Theorem main_max_materials (args : Args) (n : Z) (w w' w1 wc : World)
    (r : result Z) (slugs : list str) :
  max_materials args = Some n ->
  (0 <= n)%Z ->
  main nd time_sleep net args w = (r, w') ->
  mkdir (output args) w = (Ok tt, w1) ->
  collect_slugs nd time_sleep net (sid args) (delay args) w1 = (Ok slugs, wc) ->
  exists recs o wd evs,
    kept args slugs = take (Z.to_nat n) slugs
    /\ downloads time_sleep net (output args) (delay args)
         (take (Z.to_nat n) slugs) wc recs o wd
    /\ trace wd = trace wc ++ evs
    /\ Forall (fun e => exists slug,
                 slug ∈ take (Z.to_nat n) slugs
                 /\ item_event slug (output args) (delay args) e) evs
    /\ match o with
       | Some e => r = Raise e /\ w' = wd
       | None =>
           map (dict_get (cp "slug")) recs = map Some (take (Z.to_nat n) slugs)
           /\ exists rw,
                write_manifest recs (manifest_path args) wd = (rw, w')
                /\ r = match rw with Ok _ => Ok 0%Z | Raise e => Raise e end
                /\ (rw = Ok tt ->
                    last (trace w') = Some (EvDump (manifest_path args) recs)
                    /\ disk w' !! manifest_path args = Some (File (Json recs)))
       end.
Proof.
  intros Hmax Hn Hrun Hmk Hcrawl.
  rewrite main_steps, Hmk, Hcrawl in Hrun.
  assert (Hkept : kept args slugs = take (Z.to_nat n) slugs).
  { unfold kept. rewrite Hmax. now apply slice_to_take. }
  rewrite Hkept in Hrun.
  destruct (download_all _ _ _ _ _ _ wc) as [rd wd] eqn:Hd.
  destruct (download_all_downloads _ _ _ _ _ _ _ Hd) as (recs & Hds & Hfin).
  destruct (sat_trace
              (fun _ evs =>
                 Forall (fun e => exists slug,
                           slug ∈ take (Z.to_nat n) slugs
                           /\ item_event slug (output args) (delay args) e) evs)
              _ _ _ _
              (oe_download_all _ _
                 (admits_all _ _ (fun e H => H))
                 time_sleep net (output args) (delay args)
                 (take (Z.to_nat n) slugs) []
                 (fun slug e Hs He => ex_intro _ slug (conj Hs He)))
              Hd) as (evs & Htr & Hev).
  exists recs, (outcome rd), wd, evs.
  split; [exact Hkept|]. split; [exact Hds|]. split; [exact Htr|].
  split; [exact Hev|].
  destruct rd as [records|e]; simpl.
  - rewrite (Hfin _ eq_refl) in Hrun. simpl in Hrun.
    destruct (downloads_slugs _ _ _ _ _ _ _ Hds) as [Hs Hlen].
    rewrite Hlen, firstn_all in Hs by reflexivity. split; [exact Hs|].
    destruct (write_manifest recs _ wd) as [rw w4] eqn:Hw.
    exists rw. destruct rw as [[]|e]; injection Hrun as <- <-;
      (split; [reflexivity|]); (split; [reflexivity|]); [|discriminate].
    intros _. destruct (write_manifest_ok _ _ _ _ Hw) as [Ht Hdisk].
    split; [|exact Hdisk]. rewrite Ht.
    change (trace wd ++ [EvMkdir (parent (manifest_path args));
                         EvOpen (manifest_path args) WriteText;
                         EvDump (manifest_path args) recs])
      with (trace wd ++ [EvMkdir (parent (manifest_path args));
                         EvOpen (manifest_path args) WriteText]
              ++ [EvDump (manifest_path args) recs]).
    rewrite app_assoc. apply last_snoc.
  - now injection Hrun as <- <-.
Qed.

(** ** C4: a failed request ends the run *)

Lemma crawl_event_quiet (sid : Z) (delay : pyfloat) (e : event) :
  crawl_event sid delay e -> is_manifest_event e = false.
Proof. destruct e as [? [] ?| | | |? []|]; simpl; tauto. Qed.

Lemma item_event_quiet (slug : str) (out_dir : Path) (delay : pyfloat)
    (e : event) :
  item_event slug out_dir delay e -> is_manifest_event e = false.
Proof. destruct e as [? [] ?| | | |? []|]; simpl; tauto. Qed.

Lemma manifest_event_sound (p : Path) (e : event) :
  manifest_event p e -> is_failure e = false.
Proof. destruct e as [? ? []| | | |? []|]; simpl; tauto. Qed.

Lemma aborts_main (args : Args) :
  sat (on_events abort_inv) (main nd time_sleep net args).
Proof. apply (oe_main _ _ admits_abort). intros _. exact Logic.I. Qed.

Lemma aborts_collect_slugs (sid : Z) (delay : pyfloat) :
  sat (on_events abort_inv) (collect_slugs nd time_sleep net sid delay).
Proof. apply (oe_collect_slugs _ _ admits_abort). intros _ _. exact Logic.I. Qed.

Lemma aborts_download_material (slug : str) (out_dir : Path) (delay : pyfloat) :
  sat (on_events abort_inv)
    (download_material time_sleep net slug out_dir delay).
Proof.
  apply (oe_download_material _ _ admits_abort). intros _ _. exact Logic.I.
Qed.

Lemma aborts_write_manifest (records : list entry) (p : Path) :
  sat (on_events abort_inv) (write_manifest records p).
Proof. apply (oe_write_manifest _ _ admits_abort). intros _ _. exact Logic.I. Qed.

Lemma quiet_collect_slugs (sid : Z) (delay : pyfloat) :
  sat (on_events (fun _ evs => Forall (fun e => is_manifest_event e = false) evs))
    (collect_slugs nd time_sleep net sid delay).
Proof.
  apply (oe_collect_slugs _ (crawl_event sid delay)); [|auto].
  apply admits_all, crawl_event_quiet.
Qed.

Lemma quiet_download_all (out_dir : Path) (delay : pyfloat)
    (slugs : list str) (records : list entry) :
  sat (on_events (fun _ evs => Forall (fun e => is_manifest_event e = false) evs))
    (download_all time_sleep net out_dir delay slugs records).
Proof.
  apply (oe_download_all _ (fun e => exists slug, item_event slug out_dir delay e));
    [|eauto].
  apply admits_all. intros e [slug He]. eapply item_event_quiet; eauto.
Qed.

Lemma sound_write_manifest (records : list entry) (p : Path) :
  sat (on_events (fun _ evs => Forall (fun e => is_failure e = false) evs))
    (write_manifest records p).
Proof.
  apply (oe_write_manifest _ (manifest_event p)); [|auto].
  apply admits_all, manifest_event_sound.
Qed.

(** The Manifest Writer sends no request: it never raises the error of
    a failed request. *)
Lemma write_manifest_no_transport (records : list entry) (p : Path)
    (w w' : World) :
  write_manifest records p w <> (Raise TransportError, w').
Proof.
  intros Hw.
  destruct (sat_trace _ _ _ _ _ (aborts_write_manifest records p) Hw)
    as (evs & Ht & Hab).
  pose proof (sat_events _ _ _ _ _ _ (sound_write_manifest records p) Hw Ht)
    as Hnf.
  cbn [outcome abort_inv] in Hab, Hnf. destruct Hab as (pre & e & -> & He & _).
  apply Forall_app in Hnf as [_ Hnf]. apply Forall_inv in Hnf. congruence.
Qed.

(** A run that raises [TransportError] opened and wrote no manifest. *)
Lemma main_abort_quiet (args : Args) (w w' : World) (evs : list event) :
  main nd time_sleep net args w = (Raise TransportError, w') ->
  trace w' = trace w ++ evs ->
  Forall (fun e => is_manifest_event e = false) evs.
Proof.
  intros Hrun Htr. rewrite main_steps, mkdir_run in Hrun.
  destruct (mkdir_p (output args) (disk w)) as [d1|]; [|discriminate].
  destruct (collect_slugs _ _ _ _ _ _) as [rc w2] eqn:Hc.
  destruct (sat_trace _ _ _ _ _ (quiet_collect_slugs _ _) Hc)
    as (ev1 & Ht1 & H1). cbn [trace] in Ht1.
  destruct rc as [slugs|e1].
  2:{ injection Hrun as _ <-. rewrite Ht1, <- app_assoc in Htr.
      apply app_inv_head in Htr as <-. now constructor. }
  destruct (download_all _ _ _ _ _ _ w2) as [rd w3] eqn:Hd.
  destruct (sat_trace _ _ _ _ _ (quiet_download_all _ _ _ _) Hd)
    as (ev2 & Ht2 & H2).
  destruct rd as [records|e2].
  2:{ injection Hrun as _ <-. rewrite Ht2, Ht1, <- !app_assoc in Htr.
      apply app_inv_head in Htr as <-. constructor; [reflexivity|].
      now apply Forall_app. }
  destruct (write_manifest records _ w3) as [[[]|e3] w4] eqn:Hw;
    [discriminate|].
  injection Hrun as -> _. now apply write_manifest_no_transport in Hw.
Qed.

(** C4. In every run of [main], a request fails (the request itself or
    the stream of its body, for a page or for a file) exactly when the
    run raises [TransportError]; the failure is then the last event of
    the run, so nothing follows it: the Manifest Writer is not called
    and no manifest is opened or written.  In every crawl, a request
    fails exactly when the crawl raises [TransportError], and so returns
    no list; in every download of an item, exactly when the download
    raises [TransportError], and so returns no record. *)
Theorem transport_error_aborts :
  (forall args w r w' evs,
      main nd time_sleep net args w = (r, w') ->
      trace w' = trace w ++ evs ->
      (Exists (fun e => is_failure e = true) evs <-> r = Raise TransportError)
      /\ (r = Raise TransportError ->
          (exists pre e,
              evs = pre ++ [e] /\ is_failure e = true
              /\ Forall (fun e => is_failure e = false) pre)
          /\ Forall (fun e => is_manifest_event e = false) evs))
  /\ (forall sid delay w r w' evs,
        collect_slugs nd time_sleep net sid delay w = (r, w') ->
        trace w' = trace w ++ evs ->
        (Exists (fun e => is_failure e = true) evs <-> r = Raise TransportError))
  /\ (forall slug out_dir delay w r w' evs,
        download_material time_sleep net slug out_dir delay w = (r, w') ->
        trace w' = trace w ++ evs ->
        (Exists (fun e => is_failure e = true) evs <-> r = Raise TransportError)).
Proof.
  assert (Hout : forall A (r : result A),
            outcome r = Some TransportError <-> r = Raise TransportError).
  { intros A [a|e]; simpl; split; congruence. }
  split; [|split].
  - intros args w r w' evs Hrun Htr.
    pose proof (sat_events _ _ _ _ _ _ (aborts_main args) Hrun Htr) as Hab.
    split; [rewrite <- Hout; now apply abort_inv_iff|].
    intros ->. split; [exact Hab|]. eapply main_abort_quiet; eauto.
  - intros sid delay w r w' evs Hrun Htr. rewrite <- Hout.
    apply abort_inv_iff.
    exact (sat_events _ _ _ _ _ _ (aborts_collect_slugs sid delay) Hrun Htr).
  - intros slug out_dir delay w r w' evs Hrun Htr. rewrite <- Hout.
    apply abort_inv_iff.
    exact (sat_events _ _ _ _ _ _
             (aborts_download_material slug out_dir delay) Hrun Htr).
Qed.

End Run.

Lemma collect_slugs_delays_witness :
  sample_crawl = (Ok [cp "A"; cp "B"; cp "C"], snd sample_crawl)
  /\ exists html0 rest,
       crawl_texts no_nd sample_net 7 (requests empty_world) = Some (html0 :: rest)
       /\ let last_page := extract_last_page no_nd html0 0 in
          trace (snd sample_crawl)
          = trace empty_world ++ crawl_events 7 (Finite 1) last_page
          /\ crawl_events 7 (Finite 1) last_page
             = EvGet (page_url 7 0) false true
               :: flat_map (fun p => [EvGet (page_url 7 p) false true;
                                      EvSleep (Finite 1)])
                    (py_range 1 (last_page + 1))
          /\ length (filter (fun e => is_sleep e = true)
                       (crawl_events 7 (Finite 1) last_page))
             = Z.to_nat last_page
          /\ delays_between_fetches (crawl_events 7 (Finite 1) last_page)
             = Z.to_nat (Z.max (last_page - 1) 0)
          /\ ((0 < last_page)%Z ->
              last (crawl_events 7 (Finite 1) last_page)
              = Some (EvSleep (Finite 1))).
Proof.
  split.
  - vm_compute. reflexivity.
  - apply (collect_slugs_delays no_nd sample_sleep sample_net 7 (Finite 1)
             empty_world (snd sample_crawl) [cp "A"; cp "B"; cp "C"]).
    vm_compute. reflexivity.
Defined.

(** C7, as stated, fails on the sample catalog: its last page is page 1,
    the crawl sleeps once, after that final page, and not
    max (1 - 1) 0 = 0 times. *)
Lemma crawl_sleeps_after_final_page :
  extract_last_page no_nd sample_page0 0 = 1%Z
  /\ trace (snd sample_crawl)
     = [EvGet (page_url 7 0) false true; EvGet (page_url 7 1) false true;
        EvSleep (Finite 1)]
  /\ last (trace (snd sample_crawl)) = Some (EvSleep (Finite 1))
  /\ length (filter (fun e => is_sleep e = true) (trace (snd sample_crawl)))
     <> Z.to_nat (Z.max (1 - 1) 0).
Proof.
  split; [vm_compute; reflexivity|].
  split; [vm_compute; reflexivity|].
  split; [vm_compute; reflexivity|].
  vm_compute. discriminate.
Qed.

(** ** Sample runs *)

(** The item A of the resumed disk: nothing is fetched. *)
Lemma download_material_existing_witness :
  exists pj pc,
    download_material sample_sleep sample_net (cp "A") out_root (Finite 1)
      resumed_world
    = (Ok [(cp "slug", cp "A"); (cp "json", pj); (cp "cif", pc)],
       mkWorld (disk resumed_world)
         (trace resumed_world ++ [EvMkdir (material_dir out_root (cp "A"))])
         (requests resumed_world))
    /\ joinpath out_root pj = target out_root (cp "A") (cp "json")
    /\ joinpath out_root pc = target out_root (cp "A") (cp "cif").
Proof.
  apply (download_material_existing sample_sleep sample_net (cp "A")
           out_root (Finite 1) resumed_world).
  - reflexivity.
  - apply (bool_decide_unpack _). vm_compute. exact Logic.I.
  - vm_compute. reflexivity.
  - vm_compute. reflexivity.
Defined.

(** C5, as stated, fails for an identifier that begins with a slash:
    both of its target files exist, on a well-formed disk, and yet the
    call returns no record, for the files do not lie under the output
    root and [relative_to] raises. *)
Lemma download_material_absolute_slug :
  path_exists (disk absolute_world) (target out_root absolute_slug (cp "json"))
  = true
  /\ path_exists (disk absolute_world) (target out_root absolute_slug (cp "cif"))
     = true
  /\ disk_wf (disk absolute_world)
  /\ fst (download_material sample_sleep sample_net absolute_slug out_root
            (Finite 1) absolute_world)
     = Raise ValueError.
Proof.
  split; [vm_compute; reflexivity|]. split; [vm_compute; reflexivity|].
  split; [|vm_compute; reflexivity].
  apply (bool_decide_unpack _). vm_compute. exact Logic.I.
Qed.



(** The record of the item A, fetched onto the fresh disk. *)
Lemma download_material_record_witness :
  exists pj pc evs,
    [(cp "slug", cp "A"); (cp "json", cp "A/A.json"); (cp "cif", cp "A/A.cif")]
    = [(cp "slug", cp "A"); (cp "json", pj); (cp "cif", pc)]
    /\ joinpath out_root pj = target out_root (cp "A") (cp "json")
    /\ joinpath out_root pc = target out_root (cp "A") (cp "cif")
    /\ path_exists
         (disk (snd (download_material sample_sleep sample_net (cp "A")
                       out_root (Finite 1) fresh_world)))
         (target out_root (cp "A") (cp "json")) = true
    /\ path_exists
         (disk (snd (download_material sample_sleep sample_net (cp "A")
                       out_root (Finite 1) fresh_world)))
         (target out_root (cp "A") (cp "cif")) = true
    /\ trace (snd (download_material sample_sleep sample_net (cp "A")
                     out_root (Finite 1) fresh_world))
       = trace fresh_world ++ evs
    /\ Forall (fun ev => is_failure ev = false) evs
    /\ provenance fresh_world
         (snd (download_material sample_sleep sample_net (cp "A")
                 out_root (Finite 1) fresh_world))
         evs (download_url (cp "A") (cp "json"))
         (target out_root (cp "A") (cp "json"))
    /\ provenance fresh_world
         (snd (download_material sample_sleep sample_net (cp "A")
                 out_root (Finite 1) fresh_world))
         evs (download_url (cp "A") (cp "cif"))
         (target out_root (cp "A") (cp "cif")).
Proof.
  apply (download_material_record sample_sleep sample_net (cp "A") out_root
           (Finite 1) fresh_world).
  vm_compute. reflexivity.
Defined.

(** The item B on the server that fails for its cif file: the json file
    is fetched and written, then the cif request fails. *)
Lemma download_material_json_before_cif_witness :
  path_exists
    (disk (snd (download_material sample_sleep failing_net (cp "B") out_root
                  (Finite 1) fresh_world)))
    (target out_root (cp "B") (cp "json")) = true
  /\ exists evsj rest,
       [EvMkdir (material_dir out_root (cp "B"));
        EvGet (download_url (cp "B") (cp "json")) true true;
        EvOpen (target out_root (cp "B") (cp "json")) WriteBinary;
        EvSleep (Finite 1);
        EvGet (download_url (cp "B") (cp "cif")) true false]
       = EvMkdir (material_dir out_root (cp "B"))
         :: evsj ++ EvGet (download_url (cp "B") (cp "cif")) true false :: rest
       /\ (evsj = []
           \/ evsj = [EvGet (download_url (cp "B") (cp "json")) true true;
                      EvOpen (target out_root (cp "B") (cp "json")) WriteBinary;
                      EvSleep (Finite 1)])
       /\ (false = false ->
           fst (download_material sample_sleep failing_net (cp "B") out_root
                  (Finite 1) fresh_world)
           = Raise TransportError /\ rest = [])
       /\ (EvBroken (download_url (cp "B") (cp "cif")) ∈ rest ->
           fst (download_material sample_sleep failing_net (cp "B") out_root
                  (Finite 1) fresh_world)
           = Raise TransportError).
Proof.
  apply (download_material_json_before_cif sample_sleep failing_net (cp "B")
           out_root (Finite 1) fresh_world).
  - apply surjective_pairing.
  - vm_compute. reflexivity.
  - do 4 apply list_elem_of_further. apply list_elem_of_here.
Defined.

(** The capped run over the sample catalog: of A, B and C, the items A
    and B are downloaded and recorded. *)
Lemma main_max_materials_witness :
  exists recs o wd evs,
    kept capped_args [cp "A"; cp "B"; cp "C"]
    = take (Z.to_nat 2) [cp "A"; cp "B"; cp "C"]
    /\ downloads sample_sleep sample_net (output capped_args)
         (delay capped_args) (take (Z.to_nat 2) [cp "A"; cp "B"; cp "C"])
         (snd capped_crawl) recs o wd
    /\ trace wd = trace (snd capped_crawl) ++ evs
    /\ Forall (fun e => exists slug,
                 slug ∈ take (Z.to_nat 2) [cp "A"; cp "B"; cp "C"]
                 /\ item_event slug (output capped_args) (delay capped_args) e)
         evs
    /\ match o with
       | Some e => fst capped_run = Raise e /\ snd capped_run = wd
       | None =>
           map (dict_get (cp "slug")) recs
           = map Some (take (Z.to_nat 2) [cp "A"; cp "B"; cp "C"])
           /\ exists rw,
                write_manifest recs (manifest_path capped_args) wd
                = (rw, snd capped_run)
                /\ fst capped_run
                   = match rw with Ok _ => Ok 0%Z | Raise e => Raise e end
                /\ (rw = Ok tt ->
                    last (trace (snd capped_run))
                    = Some (EvDump (manifest_path capped_args) recs)
                    /\ disk (snd capped_run) !! manifest_path capped_args
                       = Some (File (Json recs)))
       end.
Proof.
  apply (main_max_materials no_nd sample_sleep sample_net capped_args 2
           empty_world (snd capped_run) capped_made (snd capped_crawl)
           (fst capped_run) [cp "A"; cp "B"; cp "C"]).
  - reflexivity.
  - lia.
  - apply surjective_pairing.
  - vm_compute. reflexivity.
  - vm_compute. reflexivity.
Defined.

(** The end of the capped run: it returns 0, and its manifest holds the
    records of A and B, in this order. *)
Example capped_run_manifest :
  fst capped_run = Ok 0%Z
  /\ disk (snd capped_run) !! manifest_path capped_args
     = Some (File (Json
         [[(cp "slug", cp "A"); (cp "json", cp "A/A.json"); (cp "cif", cp "A/A.cif")];
          [(cp "slug", cp "B"); (cp "json", cp "B/B.json"); (cp "cif", cp "B/B.cif")]])).
Proof. split; vm_compute; reflexivity. Qed.

(** * Further properties *)

(** ** What the Identifier Extractor returns *)

Lemma span_take (cls : N -> bool) (s : str) :
  Forall (fun c => cls c = true) (take (span cls s) s).
Proof.
  induction s as [|c s IH]; simpl; [constructor|].
  destruct (cls c) eqn:Hc; simpl; [now constructor|constructor].
Qed.

Lemma span_stop (cls : N -> bool) (s : str) :
  match drop (span cls s) s with [] => True | c :: _ => cls c = false end.
Proof.
  induction s as [|c s IH]; simpl; [exact Logic.I|].
  destruct (cls c) eqn:Hc; simpl; assumption.
Qed.

Lemma starts_with_split (p s : str) :
  starts_with p s = true -> s = p ++ drop (length p) s.
Proof.
  revert s. induction p as [|a p IH]; intros [|b s]; simpl; try discriminate;
    try reflexivity.
  intros H. apply andb_true_iff in H as [Hab H].
  apply N.eqb_eq in Hab as ->. f_equal. now apply IH.
Qed.

Lemma link_to_cons (g s : str) (c : N) : link_to g s -> link_to g (c :: s).
Proof.
  intros (pre & post & -> & Hpost). exists (c :: pre), post. now split.
Qed.

Lemma scan_material (s : str) (skip : nat) (g : str) :
  g ∈ scan MATERIAL_PATH_RE skip s ->
  g <> [] /\ Forall (fun c => slug_char c = true) g /\ link_to g s.
Proof.
  revert skip. induction s as [|c s IH]; intros skip; cbn [scan].
  - intros Hg. now apply elem_of_nil in Hg.
  - destruct skip as [|k].
    + rewrite match_at_material.
      destruct (starts_with (cp "href=/material/") (c :: s)) eqn:Hs.
      * cbv zeta. destruct (span slug_char (drop 15 (c :: s))) as [|n] eqn:Hn.
        -- intros Hg. destruct (IH _ Hg) as (? & ? & ?).
           auto using link_to_cons.
        -- intros Hg. apply elem_of_cons in Hg as [->|Hg].
           ++ pose proof (span_le slug_char (drop 15 (c :: s))) as Hle.
              pose proof (span_take slug_char (drop 15 (c :: s))) as Ht.
              pose proof (span_stop slug_char (drop 15 (c :: s))) as Hstop.
              rewrite Hn in Hle, Ht, Hstop. split; [|split; [exact Ht|]].
              ** intros He. apply (f_equal length) in He.
                 rewrite length_take in He. simpl length in He at 2. lia.
              ** exists [], (drop (S n) (drop 15 (c :: s))).
                 split; [|exact Hstop]. rewrite take_drop.
                 now apply starts_with_split in Hs.
           ++ destruct (IH _ Hg) as (? & ? & ?). auto using link_to_cons.
      * intros Hg. destruct (IH _ Hg) as (? & ? & ?). auto using link_to_cons.
    + intros Hg. destruct (IH _ Hg) as (? & ? & ?). auto using link_to_cons.
Qed.

(** X1. Every identifier [extract_material_slugs] returns is not empty,
    holds no whitespace and no quote, and stands in the text right
    after the literal of a link, up to the end of the text or to the
    next whitespace or quote. *)
Theorem extract_material_slugs_links (html slug : str) :
  slug ∈ extract_material_slugs html ->
  slug <> []
  /\ Forall (fun c => is_space c = false /\ c <> 34 /\ c <> 39) slug
  /\ link_to slug html.
Proof.
  intros Hin.
  assert (Hf : slug ∈ findall MATERIAL_PATH_RE html).
  { unfold extract_material_slugs in Hin.
    destruct (fold_add_unseen (findall MATERIAL_PATH_RE html) ∅ []) as [Heq _].
    - intros x. rewrite elem_of_nil. set_solver.
    - rewrite Heq in Hin. simpl in Hin.
      apply list_elem_of_filter in Hin as [_ Hin]. now apply first_seen_elem. }
  destruct (scan_material _ _ _ Hf) as (Hne & Hcls & Hlink).
  split; [exact Hne|]. split; [|exact Hlink].
  eapply Forall_impl; [exact Hcls|]. intros c Hc. unfold slug_char in Hc.
  apply negb_true_iff in Hc. apply orb_false_iff in Hc as [Hc H39].
  apply orb_false_iff in Hc as [Hsp H34].
  apply N.eqb_neq in H34, H39. auto.
Qed.

Lemma extract_material_slugs_links_witness :
  cp "C" <> []
  /\ Forall (fun c => is_space c = false /\ c <> 34 /\ c <> 39) (cp "C")
  /\ link_to (cp "C") sample_page1.
Proof.
  apply (extract_material_slugs_links sample_page1 (cp "C")).
  vm_compute. apply list_elem_of_further, list_elem_of_here.
Defined.

(** ** What the Pagination Resolver returns *)

Lemma int_nonneg (nd : N -> option Z) (s : str) :
  (forall c d, nd c = Some d -> (0 <= d)%Z) -> (0 <= int nd s)%Z.
Proof.
  intros Hnd. unfold int.
  assert (H : forall acc, (0 <= acc)%Z ->
            (0 <= fold_left
                    (fun acc c => (10 * acc + default 0 (decimal nd c))%Z) s acc)%Z).
  { induction s as [|c s IH]; intros acc Hacc; simpl; [assumption|].
    apply IH.
    assert (0 <= default 0 (decimal nd c))%Z; [|lia].
    unfold decimal. destruct ((48 <=? c) && (c <=? 57)); simpl; [lia|].
    destruct (c <? 128); simpl; [lia|].
    destruct (nd c) as [d|] eqn:Hd; simpl; [eauto|lia]. }
  now apply H.
Qed.

(** X2. With a table of digits whose values are not negative,
    [extract_last_page] never returns a negative page when its fallback
    is not negative; and the fallback plays no part when the text has a
    page marker. *)
Theorem extract_last_page_nonneg (nd : N -> option Z) (html : str)
    (fallback : Z) :
  (forall c d, nd c = Some d -> (0 <= d)%Z) ->
  (0 <= fallback)%Z ->
  (0 <= extract_last_page nd html fallback)%Z
  /\ (findall (PAGE_RE nd) html <> [] ->
      forall fallback',
        extract_last_page nd html fallback' = extract_last_page nd html fallback).
Proof.
  intros Hnd Hf. unfold extract_last_page.
  destruct (findall (PAGE_RE nd) html) as [|g gs] eqn:Hfind; simpl.
  - split; [assumption|congruence].
  - split; [|reflexivity].
    destruct (py_max_spec (int nd g) (map (int nd) gs)) as [Hin _].
    apply elem_of_cons in Hin as [->|Hin]; [now apply int_nonneg|].
    apply list_elem_of_In, in_map_iff in Hin as (x & <- & _).
    now apply int_nonneg.
Qed.

Lemma extract_last_page_nonneg_witness :
  (0 <= extract_last_page no_nd sample_pagination 0)%Z
  /\ (findall (PAGE_RE no_nd) sample_pagination <> [] ->
      forall fallback',
        extract_last_page no_nd sample_pagination fallback'
        = extract_last_page no_nd sample_pagination 0).
Proof.
  apply (extract_last_page_nonneg no_nd sample_pagination 0).
  - intros c d. discriminate.
  - lia.
Defined.

(** ** The requests of a crawl *)

Section CrawlRequests.
Variable nd : N -> option Z.
Variable time_sleep : pyfloat -> sleep_outcome.
Variable net : nat -> str -> option Response.
Variable sid : Z.
Variable delay : pyfloat.

(** The loop over the pages, however it ends: it requests the pages of
    the list in order, each once, up to the end of the list or to the
    page at which it raises, and leaves the disk alone. *)
Lemma crawl_loop_requests (pages : list Z) (st : gset str * list str)
    (w w' : World) (r : result (gset str * list str)) :
  for_fold pages (page_body time_sleep net sid delay) st w = (r, w') ->
  exists evs k,
    trace w' = trace w ++ evs
    /\ disk w' = disk w
    /\ requests w' = (requests w + k)%nat
    /\ requested evs = map (page_url sid) (take k pages)
    /\ (k <= length pages)%nat
    /\ (forall st', r = Ok st' -> k = length pages).
Proof.
  revert st w. induction pages as [|p ps IH]; intros st w; simpl.
  - intros [= <- <-]. exists [], O. rewrite app_nil_r, Nat.add_0_r.
    repeat split; auto.
  - unfold bind at 1, page_body at 1, bind at 1, fetch.
    destruct (net (requests w) (page_url sid p)) as [rsp|] eqn:Hnet.
    2:{ intros [= <- <-]. exists [EvGet (page_url sid p) false false], 1%nat.
        simpl. rewrite Nat.add_1_r. repeat split; try lia. discriminate. }
    destruct (complete rsp) eqn:Hc; simpl.
    2:{ intros [= <- <-]. exists [EvGet (page_url sid p) false false], 1%nat.
        simpl. rewrite Nat.add_1_r. repeat split; try lia. discriminate. }
    unfold bind at 1, sleep.
    destruct (sleep_exn (time_sleep delay)) as [e|] eqn:Hsl.
    { unfold raise. intros [= <- <-].
      exists [EvGet (page_url sid p) false true], 1%nat.
      simpl. rewrite Nat.add_1_r. repeat split; try lia. discriminate. }
    unfold emit, ret. simpl. intros Hrest.
    apply IH in Hrest as (evs & k & Ht & Hd & Hr & Hq & Hk & Hok).
    simpl in Ht, Hd, Hr.
    exists ([EvGet (page_url sid p) false true; EvSleep delay] ++ evs), (S k).
    rewrite Ht, Hr, <- !app_assoc. simpl. rewrite Hq.
    repeat split; try lia; auto. intros st' Hst. f_equal. eauto.
Qed.

Lemma pages_from_zero (k n : nat) :
  (k <= n)%nat ->
  map (page_url sid) (0%Z :: take k (py_range 1 (Z.of_nat n + 1)))
  = map (fun i => page_url sid (Z.of_nat i)) (seq 0 (S k)).
Proof.
  intros Hk. unfold py_range.
  replace (Z.to_nat (Z.of_nat n + 1 - 1)) with n by lia.
  cbn [seq map]. f_equal.
  rewrite firstn_map, take_seq, Nat.min_l by assumption.
  rewrite <- seq_shift, !map_map. apply map_ext. intros i. f_equal. lia.
Qed.

(** X3. A crawl, however it ends, leaves the disk as it was and sends
    no request twice: its requests are those for the pages 0, 1, 2, and
    so on in this order, up to the page at which it ends; and it counts
    one request sent for each of them. *)
Theorem collect_slugs_requests (w w' : World) (r : result (list str))
    (evs : list event) :
  collect_slugs nd time_sleep net sid delay w = (r, w') ->
  trace w' = trace w ++ evs ->
  disk w' = disk w
  /\ requests w' = (requests w + length (requested evs))%nat
  /\ exists k,
       requested evs = map (fun i => page_url sid (Z.of_nat i)) (seq 0 (S k)).
Proof.
  unfold collect_slugs. unfold bind at 1, fetch.
  assert (Hfail : forall wf,
            wf = mkWorld (disk w) (trace w ++ [EvGet (page_url sid 0) false false])
                   (S (requests w)) ->
            trace wf = trace w ++ evs ->
            disk wf = disk w
            /\ requests wf = (requests w + length (requested evs))%nat
            /\ exists k, requested evs
                         = map (fun i => page_url sid (Z.of_nat i)) (seq 0 (S k))).
  { intros wf -> Ht. simpl in Ht. apply app_inv_head in Ht as <-. simpl.
    split; [reflexivity|]. split; [lia|]. now exists O. }
  destruct (net (requests w) (page_url sid 0)) as [rsp|] eqn:Hnet;
    [|intros [= _ <-]; now apply Hfail].
  destruct (complete rsp) eqn:Hc; simpl;
    [|intros [= _ <-]; now apply Hfail].
  cbv zeta. unfold bind at 1.
  destruct (for_fold _ _ _ _) as [rl wl] eqn:Hloop.
  apply crawl_loop_requests in Hloop as (evl & k & Ht & Hd & Hr & Hq & Hk & _).
  simpl in Ht, Hd, Hr. intros Hrun Htr.
  assert (Hw : w' = wl) by (destruct rl; now injection Hrun). subst wl.
  rewrite Ht, <- app_assoc in Htr. apply app_inv_head in Htr as <-.
  split; [exact Hd|]. cbn [requested flat_map app].
  fold (requested evl). rewrite Hq. split.
  - rewrite Hr. simpl. rewrite length_map, length_take. lia.
  - exists k. rewrite py_range_length in Hk.
    set (last_page := extract_last_page nd (text rsp) 0) in *.
    destruct (Z.le_gt_cases 0 last_page) as [Hpos|Hneg].
    + pose proof (pages_from_zero k (Z.to_nat last_page)) as Hz.
      rewrite Z2Nat.id in Hz by assumption. apply Hz. lia.
    + replace k with O by lia. reflexivity.
Qed.

End CrawlRequests.

Lemma collect_slugs_requests_witness :
  disk (snd sample_crawl) = disk empty_world
  /\ requests (snd sample_crawl)
     = (requests empty_world
        + length (requested [EvGet (page_url 7 0) false true;
                             EvGet (page_url 7 1) false true;
                             EvSleep (Finite 1)]))%nat
  /\ exists k,
       requested [EvGet (page_url 7 0) false true;
                  EvGet (page_url 7 1) false true; EvSleep (Finite 1)]
       = map (fun i => page_url 7 (Z.of_nat i)) (seq 0 (S k)).
Proof.
  apply (collect_slugs_requests no_nd sample_sleep sample_net 7 (Finite 1)
           empty_world (snd sample_crawl) (fst sample_crawl)).
  - apply surjective_pairing.
  - vm_compute. reflexivity.
Defined.

(** ** A delay the clock rejects *)

Lemma first_seen_id (l : list str) : NoDup l -> first_seen l = l.
Proof.
  induction 1 as [|x l Hx Hl IH]; simpl; [reflexivity|]. rewrite IH. f_equal.
  apply filter_all. intros y Hy ->. contradiction.
Qed.

Lemma extract_material_slugs_NoDup (html : str) :
  NoDup (extract_material_slugs html).
Proof.
  unfold extract_material_slugs.
  destruct (fold_add_unseen (findall MATERIAL_PATH_RE html) ∅ []) as [-> _].
  - intros x. rewrite elem_of_nil. set_solver.
  - simpl. apply NoDup_filter, first_seen_NoDup.
Qed.

(** X4. With a delay that [time.sleep] rejects, the crawl of a catalog
    of one page still returns the identifiers of that page, for it never
    sleeps; the crawl of a catalog of more pages raises the exception of
    [time.sleep] ([ValueError] for a negative delay or NaN,
    [OverflowError] for an infinite one or one beyond the clock's range)
    right after page 1 arrived, and returns nothing. *)
Theorem collect_slugs_rejected_delay (nd : N -> option Z)
    (time_sleep : pyfloat -> sleep_outcome) (net : nat -> str -> option Response)
    (sid : Z) (delay : pyfloat) (w : World) (r0 : Response) (e : exn) :
  sleep_exn (time_sleep delay) = Some e ->
  net (requests w) (page_url sid 0) = Some r0 ->
  complete r0 = true ->
  ((extract_last_page nd (text r0) 0 <= 0)%Z ->
   collect_slugs nd time_sleep net sid delay w
   = (Ok (extract_material_slugs (text r0)),
      mkWorld (disk w) (trace w ++ [EvGet (page_url sid 0) false true])
        (S (requests w))))
  /\ (forall r1,
        (0 < extract_last_page nd (text r0) 0)%Z ->
        net (S (requests w)) (page_url sid 1) = Some r1 ->
        complete r1 = true ->
        collect_slugs nd time_sleep net sid delay w
        = (Raise e,
           mkWorld (disk w)
             (trace w ++ [EvGet (page_url sid 0) false true;
                          EvGet (page_url sid 1) false true])
             (S (S (requests w))))).
Proof.
  intros Hsl Hnet Hc. split.
  - intros Hlast.
    rewrite (collect_slugs_run nd time_sleep net sid delay w [text r0]).
    + simpl. rewrite app_nil_r, first_seen_id by apply extract_material_slugs_NoDup.
      unfold crawl_events, py_range.
      replace (Z.to_nat (extract_last_page nd (text r0) 0 + 1 - 1)) with O by lia.
      simpl. now rewrite Nat.add_1_r.
    + unfold crawl_texts. simpl. rewrite Hnet, Hc. simpl. unfold py_range.
      replace (Z.to_nat (extract_last_page nd (text r0) 0 + 1 - 1)) with O by lia.
      reflexivity.
    + now left.
  - intros r1 Hlast Hnet1 Hc1. unfold collect_slugs, bind at 1, fetch.
    rewrite Hnet, Hc. simpl. unfold py_range.
    destruct (Z.to_nat (extract_last_page nd (text r0) 0 + 1 - 1)) as [|m] eqn:Hm;
      [lia|].
    cbn [seq map for_fold]. unfold bind at 1, bind at 1, bind at 1, fetch.
    cbn [requests]. change (1 + Z.of_nat 0)%Z with 1%Z.
    rewrite Hnet1, Hc1. simpl. unfold bind, sleep. rewrite Hsl.
    unfold raise. simpl. now rewrite <- app_assoc.
Qed.

Lemma collect_slugs_rejected_delay_witness :
  ((extract_last_page no_nd (text (whole sample_page0)) 0 <= 0)%Z ->
   collect_slugs no_nd sample_sleep sample_net 7 (Infinity false) empty_world
   = (Ok (extract_material_slugs (text (whole sample_page0))),
      mkWorld (disk empty_world)
        (trace empty_world ++ [EvGet (page_url 7 0) false true])
        (S (requests empty_world))))
  /\ (forall r1,
        (0 < extract_last_page no_nd (text (whole sample_page0)) 0)%Z ->
        sample_net (S (requests empty_world)) (page_url 7 1) = Some r1 ->
        complete r1 = true ->
        collect_slugs no_nd sample_sleep sample_net 7 (Infinity false)
          empty_world
        = (Raise OverflowError,
           mkWorld (disk empty_world)
             (trace empty_world ++ [EvGet (page_url 7 0) false true;
                                    EvGet (page_url 7 1) false true])
             (S (S (requests empty_world))))).
Proof.
  apply (collect_slugs_rejected_delay no_nd sample_sleep sample_net 7
           (Infinity false) empty_world (whole sample_page0) OverflowError).
  - reflexivity.
  - vm_compute. reflexivity.
  - reflexivity.
Defined.

(** ** Downloading again *)

Section Again.
Variable time_sleep : pyfloat -> sleep_outcome.
Variable net : nat -> str -> option Response.

(** X5. A call of [download_file] that returned is not repeated: a
    second call for the same destination, in the world the first one
    left, sends no request, writes nothing and does not sleep. *)
Theorem download_file_idempotent (url url' : str) (dest : Path)
    (delay delay' : pyfloat) (w w' : World) :
  download_file time_sleep net url dest delay w = (Ok tt, w') ->
  download_file time_sleep net url' dest delay' w' = (Ok tt, w').
Proof.
  intros Hrun. apply download_file_skip.
  destruct (download_file_events _ _ _ _ _ _ _ _ Hrun) as (evs & _ & Hex & _).
  exact Hex.
Qed.

(** X6. When the body of a download breaks off, [download_file] raises
    [TransportError] without sleeping and leaves on the disk a file that
    holds the chunks that arrived; a second call then takes the file
    for downloaded and fetches nothing. *)
Theorem download_file_broken (url : str) (dest : Path) (delay : pyfloat)
    (w : World) (r : Response) :
  lookup_node (disk w) dest = None ->
  lookup_node (disk w) (parent dest) = Some Dir ->
  net (requests w) url = Some r ->
  complete r = false ->
  exists w',
    download_file time_sleep net url dest delay w = (Raise TransportError, w')
    /\ trace w' = trace w ++ [EvGet url true true; EvOpen dest WriteBinary;
                              EvBroken url]
    /\ disk w' !! dest = Some (File (Bytes (concat (chunks r))))
    /\ download_file time_sleep net url dest delay w' = (Ok tt, w').
Proof.
  intros Habs Hpar Hnet Hc.
  destruct (download_file time_sleep net url dest delay w) as [res w'] eqn:Hrun.
  pose proof (download_file_cases _ _ _ _ _ _ _ _ Hrun) as Hcases.
  assert (Hopen : open_write dest (disk w)
                  = Some (<[dest := File (Bytes [])]> (disk w))).
  { unfold open_write. now rewrite Hpar, Habs. }
  pose proof Habs as Hex. apply lookup_node_absent in Hex.
  assert (Hparts : parts dest <> []).
  { intros He. unfold lookup_node in Habs. now rewrite He in Habs. }
  inversion Hcases; subst; try congruence.
  assert (r0 = r) by congruence. assert (d1 = <[dest := File (Bytes [])]> (disk w))
    by congruence. subst r0 d1.
  eexists. split; [reflexivity|]. split; [reflexivity|].
  assert (Hfile : write_all dest (chunks r) (<[dest := File (Bytes [])]> (disk w))
                  !! dest = Some (File (Bytes (concat (chunks r))))).
  { rewrite (write_all_lookup _ _ _ []); [reflexivity|apply lookup_insert_eq]. }
  split; [exact Hfile|]. apply download_file_skip. simpl.
  apply lookup_node_exists. unfold lookup_node.
  destruct (parts dest); [congruence|]. rewrite Hfile. eauto.
Qed.

End Again.

Lemma download_file_idempotent_witness :
  download_file sample_sleep sample_net (download_url (cp "A") (cp "cif"))
    (target out_root (cp "A") (cp "json")) (Finite 0)
    (snd (download_file sample_sleep sample_net
            (download_url (cp "A") (cp "json"))
            (target out_root (cp "A") (cp "json")) (Finite 1)
            (snd (mkdir (material_dir out_root (cp "A")) fresh_world))))
  = (Ok tt,
     snd (download_file sample_sleep sample_net
            (download_url (cp "A") (cp "json"))
            (target out_root (cp "A") (cp "json")) (Finite 1)
            (snd (mkdir (material_dir out_root (cp "A")) fresh_world)))).
Proof.
  apply (download_file_idempotent sample_sleep sample_net
           (download_url (cp "A") (cp "json"))
           (download_url (cp "A") (cp "cif"))
           (target out_root (cp "A") (cp "json")) (Finite 1) (Finite 0)
           (snd (mkdir (material_dir out_root (cp "A")) fresh_world))).
  vm_compute. reflexivity.
Defined.

Lemma download_file_broken_witness :
  exists w',
    download_file sample_sleep broken_net (download_url (cp "A") (cp "json"))
      (target out_root (cp "A") (cp "json")) (Finite 1)
      (snd (mkdir (material_dir out_root (cp "A")) fresh_world))
    = (Raise TransportError, w')
    /\ trace w'
       = trace (snd (mkdir (material_dir out_root (cp "A")) fresh_world))
         ++ [EvGet (download_url (cp "A") (cp "json")) true true;
             EvOpen (target out_root (cp "A") (cp "json")) WriteBinary;
             EvBroken (download_url (cp "A") (cp "json"))]
    /\ disk w' !! target out_root (cp "A") (cp "json")
       = Some (File (Bytes (concat (chunks (mkResponse [] [cp "da"] false)))))
    /\ download_file sample_sleep broken_net
         (download_url (cp "A") (cp "json"))
         (target out_root (cp "A") (cp "json")) (Finite 1) w'
       = (Ok tt, w').
Proof.
  apply (download_file_broken sample_sleep broken_net
           (download_url (cp "A") (cp "json"))
           (target out_root (cp "A") (cp "json")) (Finite 1)
           (snd (mkdir (material_dir out_root (cp "A")) fresh_world))
           (mkResponse [] [cp "da"] false)).
  - vm_compute. reflexivity.
  - vm_compute. reflexivity.
  - vm_compute. reflexivity.
  - reflexivity.
Defined.

(** ** What the Item Downloader leaves alone *)

Lemma target_not_dir (out_dir : Path) (slug sfx : str) :
  47 ∉ sfx -> sfx <> [] ->
  target out_dir slug sfx <> material_dir out_dir slug.
Proof.
  intros H1 H2 Heq. destruct (target_parts out_dir slug) as (Q & X & H).
  destruct (H _ H1 H2) as [_ Hn]. apply Hn. now rewrite Heq.
Qed.

Section Keeps.
Variable time_sleep : pyfloat -> sleep_outcome.
Variable net : nat -> str -> option Response.

Lemma download_file_keeps (url : str) (dest : Path) (delay : pyfloat)
    (w w' : World) (r : result unit) (q : Path) :
  download_file time_sleep net url dest delay w = (r, w') ->
  is_Some (lookup_node (disk w) q) ->
  lookup_node (disk w') q = lookup_node (disk w) q.
Proof.
  intros Hrun Hq. destruct (decide (q = dest)) as [->|Hne].
  - apply lookup_node_exists in Hq.
    rewrite (download_file_skip _ _ _ _ _ _ Hq) in Hrun. now injection Hrun as _ <-.
  - now apply (download_file_frame _ _ _ _ _ _ _ _ Hrun).
Qed.

(** X7. Whatever was on the disk before a call of [download_material]
    is the same after it, however the call ends: the call overwrites
    and removes nothing.  What is new after it is a directory on the way
    to the directory of the item, or one of the two files of the item. *)
Theorem download_material_keeps (slug : str) (out_dir : Path)
    (delay : pyfloat) (w w' : World) (r : result entry) :
  download_material time_sleep net slug out_dir delay w = (r, w') ->
  (forall q, is_Some (lookup_node (disk w) q) ->
             lookup_node (disk w') q = lookup_node (disk w) q)
  /\ (forall q, lookup_node (disk w) q = None ->
                is_Some (lookup_node (disk w') q) ->
                (parts q `prefix_of` parts (material_dir out_dir slug)
                 /\ lookup_node (disk w') q = Some Dir)
                \/ q = target out_dir slug (cp "json")
                \/ q = target out_dir slug (cp "cif")).
Proof.
  intros Hrun. rewrite download_material_steps, mkdir_run in Hrun.
  set (mdir := material_dir out_dir slug) in *.
  set (tj := target out_dir slug (cp "json")) in *.
  set (tc := target out_dir slug (cp "cif")) in *.
  destruct (mkdir_p mdir (disk w)) as [d1|] eqn:Hmk.
  2:{ injection Hrun as _ <-. simpl. split; [reflexivity|].
      intros q Hn [x Hx]. congruence. }
  destruct (download_file _ _ _ tj _ _) as [rj w2] eqn:Hj.
  assert (H2 : exists w3 rc,
            (rj = Ok tt /\ download_file time_sleep net
                             (download_url slug (cp "cif")) tc delay w2
                           = (rc, w3) /\ w' = w3)
            \/ w' = w2).
  { destruct rj as [[]|]; [|exists w2, (Ok tt); right; now injection Hrun].
    destruct (relative_to tj out_dir);
      [|exists w2, (Ok tt); right; now injection Hrun].
    destruct (download_file _ _ _ tc _ _) as [rc w3] eqn:Hc.
    exists w3, rc. left. split; [reflexivity|]. split; [reflexivity|].
    destruct rc as [[]|]; [destruct (relative_to tc out_dir)|];
      now injection Hrun. }
  assert (Hk1 : forall q, is_Some (lookup_node (disk w) q) ->
                          lookup_node d1 q = lookup_node (disk w) q)
    by (intros q; now apply mkdir_p_keeps with (p := mdir)).
  assert (Hk2 : forall q, is_Some (lookup_node d1 q) ->
                          lookup_node (disk w2) q = lookup_node d1 q)
    by (intros q; exact (download_file_keeps _ _ _ _ _ _ q Hj)).
  assert (Hn1 : forall q, lookup_node (disk w) q = None ->
                          is_Some (lookup_node d1 q) ->
                          parts q `prefix_of` parts mdir
                          /\ lookup_node d1 q = Some Dir).
  { intros q Hn Hs.
    destruct (decide (parts q `prefix_of` parts mdir)) as [Hp|Hp].
    - split; [exact Hp|]. unfold lookup_node in *.
      destruct (parts q); [reflexivity|].
      destruct (decide (d1 !! q = disk w !! q)) as [He|Hne].
      + rewrite He, Hn in Hs. now destruct Hs.
      + unfold mkdir_p in Hmk.
        now destruct (mkdir_rev_frame _ _ _ _ _ Hmk Hne) as (_ & _ & _ & ?).
    - rewrite (mkdir_p_frame _ _ _ _ Hmk Hp), Hn in Hs. now destruct Hs. }
  assert (Hn2 : forall q, q <> tj -> lookup_node (disk w2) q = lookup_node d1 q)
    by (intros q; apply (download_file_frame _ _ _ _ _ _ _ _ Hj)).
  destruct H2 as (w3 & rc & [(-> & Hc & ->)| ->]).
  - assert (Hk3 : forall q, is_Some (lookup_node (disk w2) q) ->
                            lookup_node (disk w3) q = lookup_node (disk w2) q)
      by (intros q; exact (download_file_keeps _ _ _ _ _ _ q Hc)).
    assert (Hn3 : forall q, q <> tc -> lookup_node (disk w3) q
                                      = lookup_node (disk w2) q)
      by (intros q; apply (download_file_frame _ _ _ _ _ _ _ _ Hc)).
    split.
    + intros q Hq. rewrite Hk3, Hk2, Hk1; auto; rewrite ?Hk2, Hk1; auto;
        rewrite Hk1; auto.
    + intros q Hn Hs.
      destruct (decide (q = tc)) as [|Hqc]; [auto|].
      destruct (decide (q = tj)) as [|Hqj]; [auto|].
      left. rewrite Hn3, Hn2 in Hs |- * by assumption. now apply Hn1.
  - split.
    + intros q Hq. rewrite Hk2, Hk1; auto. rewrite Hk1; auto.
    + intros q Hn Hs.
      destruct (decide (q = tj)) as [|Hqj]; [auto|].
      left. rewrite Hn2 in Hs |- * by assumption. now apply Hn1.
Qed.

(** X8. A call of [download_material] that returned a record, when
    repeated in the world it left, sends no request, writes nothing and
    returns the same record: its only event is the [mkdir] of the
    directory of the item, which is there. *)
Theorem download_material_rerun (slug : str) (out_dir : Path)
    (delay delay' : pyfloat) (w w' : World) (e : entry) :
  download_material time_sleep net slug out_dir delay w = (Ok e, w') ->
  download_material time_sleep net slug out_dir delay' w'
  = (Ok e,
     mkWorld (disk w') (trace w' ++ [EvMkdir (material_dir out_dir slug)])
       (requests w')).
Proof.
  intros Hrun. rewrite download_material_steps, mkdir_run in Hrun.
  set (mdir := material_dir out_dir slug) in *.
  set (tj := target out_dir slug (cp "json")) in *.
  set (tc := target out_dir slug (cp "cif")) in *.
  destruct (mkdir_p mdir (disk w)) as [d1|] eqn:Hmk; [|discriminate].
  destruct (download_file _ _ _ tj _ _) as [[[]|] w2] eqn:Hj; [|discriminate].
  destruct (relative_to tj out_dir) as [relj|] eqn:Hrj; [|discriminate].
  destruct (download_file _ _ _ tc _ _) as [[[]|] w3] eqn:Hc; [|discriminate].
  destruct (relative_to tc out_dir) as [relc|] eqn:Hrc; [|discriminate].
  injection Hrun as <- <-.
  destruct suffix_json_ok as [Hsj Hsj'], suffix_cif_ok as [Hsc Hsc'].
  pose proof (target_not_dir out_dir slug _ Hsj Hsj') as Hmj.
  pose proof (target_not_dir out_dir slug _ Hsc Hsc') as Hmc.
  fold tj mdir in Hmj. fold tc mdir in Hmc.
  destruct (download_file_frame _ _ _ _ _ _ _ _ Hj) as [Hfj _].
  destruct (download_file_frame _ _ _ _ _ _ _ _ Hc) as [Hfc Hmono].
  destruct (download_file_events _ _ _ _ _ _ _ _ Hj) as (? & _ & Hexj & _).
  destruct (download_file_events _ _ _ _ _ _ _ _ Hc) as (? & _ & Hexc & _).
  assert (Hdir : lookup_node (disk w3) mdir = Some Dir).
  { rewrite Hfc, Hfj by (intros He; now symmetry in He).
    apply (mkdir_p_dir _ _ _ Hmk). }
  rewrite download_material_steps, mkdir_run. fold mdir tj tc.
  rewrite (mkdir_p_existing _ _ Hdir).
  rewrite download_file_skip by (now apply Hmono).
  rewrite Hrj. rewrite download_file_skip by exact Hexc.
  now rewrite Hrc.
Qed.

End Keeps.

Lemma download_material_keeps_witness :
  (forall q, is_Some (lookup_node (disk fresh_world) q) ->
             lookup_node
               (disk (snd (download_material sample_sleep failing_net (cp "B")
                             out_root (Finite 1) fresh_world))) q
             = lookup_node (disk fresh_world) q)
  /\ (forall q, lookup_node (disk fresh_world) q = None ->
                is_Some
                  (lookup_node
                     (disk (snd (download_material sample_sleep failing_net
                                   (cp "B") out_root (Finite 1) fresh_world))) q) ->
                (parts q `prefix_of` parts (material_dir out_root (cp "B"))
                 /\ lookup_node
                      (disk (snd (download_material sample_sleep failing_net
                                    (cp "B") out_root (Finite 1) fresh_world))) q
                    = Some Dir)
                \/ q = target out_root (cp "B") (cp "json")
                \/ q = target out_root (cp "B") (cp "cif")).
Proof.
  apply (download_material_keeps sample_sleep failing_net (cp "B") out_root
           (Finite 1) fresh_world _
           (fst (download_material sample_sleep failing_net (cp "B") out_root
                   (Finite 1) fresh_world))).
  apply surjective_pairing.
Defined.

Lemma download_material_rerun_witness :
  download_material sample_sleep sample_net (cp "A") out_root (Finite 0)
    (snd (download_material sample_sleep sample_net (cp "A") out_root
            (Finite 1) fresh_world))
  = (Ok [(cp "slug", cp "A"); (cp "json", cp "A/A.json");
         (cp "cif", cp "A/A.cif")],
     mkWorld
       (disk (snd (download_material sample_sleep sample_net (cp "A") out_root
                     (Finite 1) fresh_world)))
       (trace (snd (download_material sample_sleep sample_net (cp "A")
                      out_root (Finite 1) fresh_world))
        ++ [EvMkdir (material_dir out_root (cp "A"))])
       (requests (snd (download_material sample_sleep sample_net (cp "A")
                         out_root (Finite 1) fresh_world)))).
Proof.
  apply (download_material_rerun sample_sleep sample_net (cp "A") out_root
           (Finite 1) (Finite 0) fresh_world).
  vm_compute. reflexivity.
Defined.

(** ** The Manifest Writer *)

(** [write_manifest], by the way it ends. *)
Lemma write_manifest_run (records : list entry) (p : Path) (w : World) :
  write_manifest records p w
  = match mkdir_p (parent p) (disk w) with
    | None =>
        (Raise OSError,
         mkWorld (disk w) (trace w ++ [EvMkdir (parent p)]) (requests w))
    | Some d1 =>
        match open_write p d1 with
        | None =>
            (Raise OSError,
             mkWorld d1 (trace w ++ [EvMkdir (parent p); EvOpen p WriteText])
               (requests w))
        | Some d2 =>
            (Ok tt,
             mkWorld (<[p := File (Json records)]> d2)
               (trace w ++ [EvMkdir (parent p); EvOpen p WriteText;
                            EvDump p records])
               (requests w))
        end
    end.
Proof.
  unfold write_manifest. unfold bind at 1. rewrite mkdir_run.
  destruct (mkdir_p (parent p) (disk w)) as [d1|]; [|reflexivity].
  unfold bind at 1, emit at 1. simpl. unfold bind at 1, fs_op. simpl.
  destruct (open_write p d1) as [d2|]; simpl.
  - unfold bind, emit, set_disk_file. simpl. now rewrite <- !app_assoc.
  - now rewrite <- !app_assoc.
Qed.



(** ** The order of a run *)

Section RunShape.
Variable nd : N -> option Z.
Variable time_sleep : pyfloat -> sleep_outcome.
Variable net : nat -> str -> option Response.






End RunShape.


(** ** The files of the items downloaded before a failure *)

Section Completed.
Variable time_sleep : pyfloat -> sleep_outcome.
Variable net : nat -> str -> option Response.

Lemma download_material_mono (slug : str) (out_dir : Path) (delay : pyfloat)
    (w w' : World) (r : result entry) (q : Path) :
  download_material time_sleep net slug out_dir delay w = (r, w') ->
  path_exists (disk w) q = true -> path_exists (disk w') q = true.
Proof.
  intros Hrun Hq. rewrite download_material_steps, mkdir_run in Hrun.
  destruct (mkdir_p _ (disk w)) as [d1|] eqn:Hmk;
    [|now injection Hrun as _ <-].
  assert (Hq1 : path_exists d1 q = true).
  { apply lookup_node_exists. apply lookup_node_exists in Hq.
    now rewrite (mkdir_p_keeps _ _ _ _ Hmk Hq). }
  destruct (download_file _ _ _ _ _ _) as [rj w2] eqn:Hj.
  destruct (download_file_frame _ _ _ _ _ _ _ _ Hj) as [_ Hm2].
  specialize (Hm2 q Hq1).
  destruct rj as [[]|]; [|now injection Hrun as _ <-].
  destruct (relative_to _ _); [|now injection Hrun as _ <-].
  destruct (download_file _ _ _ _ _ w2) as [rc w3] eqn:Hc.
  destruct (download_file_frame _ _ _ _ _ _ _ _ Hc) as [_ Hm3].
  specialize (Hm3 q Hm2).
  destruct rc as [[]|]; [destruct (relative_to _ _)|]; now injection Hrun as _ <-.
Qed.

Lemma download_material_ok_exists (slug : str) (out_dir : Path)
    (delay : pyfloat) (w w' : World) (e : entry) :
  download_material time_sleep net slug out_dir delay w = (Ok e, w') ->
  path_exists (disk w') (target out_dir slug (cp "json")) = true
  /\ path_exists (disk w') (target out_dir slug (cp "cif")) = true.
Proof.
  intros Hrun. rewrite download_material_steps, mkdir_run in Hrun.
  destruct (mkdir_p _ (disk w)) as [d1|]; [|discriminate].
  destruct (download_file _ _ _ _ _ _) as [[[]|] w2] eqn:Hj; [|discriminate].
  destruct (relative_to _ _); [|discriminate].
  destruct (download_file _ _ _ _ _ w2) as [[[]|] w3] eqn:Hc; [|discriminate].
  destruct (relative_to _ _); [|discriminate].
  injection Hrun as _ <-.
  destruct (download_file_events _ _ _ _ _ _ _ _ Hj) as (? & _ & Hexj & _).
  destruct (download_file_events _ _ _ _ _ _ _ _ Hc) as (? & _ & Hexc & _).
  destruct (download_file_frame _ _ _ _ _ _ _ _ Hc) as [_ Hmono].
  split; [now apply Hmono|exact Hexc].
Qed.

Lemma downloads_keep_files (out_dir : Path) (delay : pyfloat)
    (slugs : list str) (w w' : World) (recs : list entry) (o : option exn) :
  downloads time_sleep net out_dir delay slugs w recs o w' ->
  (forall slug, slug ∈ take (length recs) slugs ->
     path_exists (disk w') (target out_dir slug (cp "json")) = true
     /\ path_exists (disk w') (target out_dir slug (cp "cif")) = true)
  /\ (forall q, path_exists (disk w) q = true -> path_exists (disk w') q = true).
Proof.
  induction 1 as [w|slug slugs w e w' Hd|slug slugs w rec w1 recs o w' Hd Hds IH].
  - split; [|auto]. intros s Hs. now apply elem_of_nil in Hs.
  - split; [intros s Hs; now apply elem_of_nil in Hs|].
    intros q Hq. eapply download_material_mono; eauto.
  - destruct IH as [Hfiles Hmono].
    destruct (download_material_ok_exists _ _ _ _ _ _ Hd) as [Hj Hc]. split.
    + intros s Hs. simpl in Hs. apply elem_of_cons in Hs as [->|Hs]; auto.
    + intros q Hq. apply Hmono. eapply download_material_mono; eauto.
Qed.

(** X11. However the loop of [main] over the identifiers ends, the
    items it completed keep their files.  The loop is a chain of calls
    of the Item Downloader that ends with the list or with the first
    call that raises; both files of every identifier whose call
    returned are on the disk when the loop ends, and so is everything
    that was on it before the loop.  When the loop returns, it returns
    the records of the calls, after those it was given. *)
Theorem completed_items_keep_files (out_dir : Path) (delay : pyfloat)
    (slugs : list str) (acc : list entry) (w w' : World)
    (r : result (list entry)) :
  download_all time_sleep net out_dir delay slugs acc w = (r, w') ->
  exists recs,
    downloads time_sleep net out_dir delay slugs w recs (outcome r) w'
    /\ (forall final, r = Ok final -> final = acc ++ recs)
    /\ (forall slug, slug ∈ take (length recs) slugs ->
          path_exists (disk w') (target out_dir slug (cp "json")) = true
          /\ path_exists (disk w') (target out_dir slug (cp "cif")) = true)
    /\ (forall q, path_exists (disk w) q = true ->
                  path_exists (disk w') q = true).
Proof.
  intros Hrun.
  destruct (download_all_downloads _ _ _ _ _ _ _ _ _ Hrun) as (recs & Hds & Hfin).
  exists recs. split; [exact Hds|]. split; [exact Hfin|].
  exact (downloads_keep_files _ _ _ _ _ _ _ Hds).
Qed.

End Completed.

Lemma completed_items_keep_files_witness :
  exists recs,
    downloads sample_sleep failing_net out_root (Finite 1)
      [cp "A"; cp "B"; cp "C"] fresh_world recs
      (outcome (fst (download_all sample_sleep failing_net out_root (Finite 1)
                       [cp "A"; cp "B"; cp "C"] [] fresh_world)))
      (snd (download_all sample_sleep failing_net out_root (Finite 1)
              [cp "A"; cp "B"; cp "C"] [] fresh_world))
    /\ (forall final,
          fst (download_all sample_sleep failing_net out_root (Finite 1)
                 [cp "A"; cp "B"; cp "C"] [] fresh_world) = Ok final ->
          final = [] ++ recs)
    /\ (forall slug, slug ∈ take (length recs) [cp "A"; cp "B"; cp "C"] ->
          path_exists
            (disk (snd (download_all sample_sleep failing_net out_root
                          (Finite 1) [cp "A"; cp "B"; cp "C"] [] fresh_world)))
            (target out_root slug (cp "json")) = true
          /\ path_exists
               (disk (snd (download_all sample_sleep failing_net out_root
                             (Finite 1) [cp "A"; cp "B"; cp "C"] [] fresh_world)))
               (target out_root slug (cp "cif")) = true)
    /\ (forall q, path_exists (disk fresh_world) q = true ->
                  path_exists
                    (disk (snd (download_all sample_sleep failing_net out_root
                                  (Finite 1) [cp "A"; cp "B"; cp "C"] []
                                  fresh_world))) q = true).
Proof.
  apply (completed_items_keep_files sample_sleep failing_net out_root
           (Finite 1) [cp "A"; cp "B"; cp "C"] [] fresh_world).
  apply surjective_pairing.
Defined.

(** ** The identifiers kept *)

(** X12. The identifiers [main] keeps for downloading are a prefix of
    those the crawl returned, so they have no duplicate when those have
    none: all of them without the cap; with a cap that is not negative,
    as many as the cap says or all when there are fewer; with a negative
    cap, all but as many at the end as the cap says below zero. *)
Theorem kept_prefix (args : Args) (slugs : list str) :
  kept args slugs `prefix_of` slugs
  /\ (NoDup slugs -> NoDup (kept args slugs))
  /\ (max_materials args = None -> kept args slugs = slugs)
  /\ (forall n, max_materials args = Some n -> (0 <= n)%Z ->
        length (kept args slugs) = Nat.min (Z.to_nat n) (length slugs))
  /\ (forall n, max_materials args = Some n -> (n < 0)%Z ->
        length (kept args slugs) = (length slugs - Z.to_nat (- n))%nat).
Proof.
  assert (Hpre : kept args slugs `prefix_of` slugs).
  { unfold kept, slice_to. destruct (max_materials args) as [n|]; [|reflexivity].
    eexists. symmetry. apply take_drop. }
  split; [exact Hpre|]. split.
  { intros Hnd. destruct Hpre as [k Hk]. rewrite Hk in Hnd.
    now apply NoDup_app in Hnd as [? _]. }
  unfold kept, slice_to. split; [now intros ->|]. split.
  - intros n -> Hn. destruct (Z.ltb_spec n 0); [lia|]. apply length_take.
  - intros n -> Hn. destruct (Z.ltb_spec n 0); [|lia].
    rewrite length_take. lia.
Qed.

(** ** What a run leaves alone *)

Section RunKeeps.
Variable nd : N -> option Z.
Variable time_sleep : pyfloat -> sleep_outcome.
Variable net : nat -> str -> option Response.

Lemma collect_slugs_disk (sid : Z) (delay : pyfloat) (w w' : World)
    (r : result (list str)) :
  collect_slugs nd time_sleep net sid delay w = (r, w') -> disk w' = disk w.
Proof.
  unfold collect_slugs. unfold bind at 1, fetch.
  destruct (net (requests w) (page_url sid 0)) as [rsp|];
    [|now intros [= _ <-]].
  destruct (complete rsp); simpl; [|now intros [= _ <-]].
  cbv zeta. unfold bind at 1.
  destruct (for_fold _ _ _ _) as [rl wl] eqn:Hloop.
  apply crawl_loop_requests in Hloop as (evl & k & _ & Hd & _).
  intros Hrun. assert (Hw : w' = wl) by (destruct rl; now injection Hrun).
  now subst.
Qed.

Lemma download_material_kept (slug : str) (out_dir : Path) (delay : pyfloat)
    (w w' : World) (r : result entry) (q : Path) :
  download_material time_sleep net slug out_dir delay w = (r, w') ->
  is_Some (lookup_node (disk w) q) ->
  lookup_node (disk w') q = lookup_node (disk w) q.
Proof.
  intros Hrun Hq. rewrite download_material_steps, mkdir_run in Hrun.
  destruct (mkdir_p _ (disk w)) as [d1|] eqn:Hmk;
    [|now injection Hrun as _ <-].
  pose proof (mkdir_p_keeps _ _ _ _ Hmk Hq) as H1.
  destruct (download_file _ _ _ _ _ _) as [rj w2] eqn:Hj.
  assert (H2 : lookup_node (disk w2) q = lookup_node (disk w) q).
  { rewrite <- H1. apply (download_file_keeps _ _ _ _ _ _ _ _ q Hj).
    simpl. now rewrite H1. }
  destruct rj as [[]|]; [|now injection Hrun as _ <-].
  destruct (relative_to _ _); [|now injection Hrun as _ <-].
  destruct (download_file _ _ _ _ _ w2) as [rc w3] eqn:Hc.
  assert (H3 : lookup_node (disk w3) q = lookup_node (disk w) q).
  { rewrite <- H2. apply (download_file_keeps _ _ _ _ _ _ _ _ q Hc).
    now rewrite H2. }
  destruct rc as [[]|]; [destruct (relative_to _ _)|]; now injection Hrun as _ <-.
Qed.

Lemma download_all_kept (out_dir : Path) (delay : pyfloat) (slugs : list str)
    (acc : list entry) (w w' : World) (r : result (list entry)) (q : Path) :
  download_all time_sleep net out_dir delay slugs acc w = (r, w') ->
  is_Some (lookup_node (disk w) q) ->
  lookup_node (disk w') q = lookup_node (disk w) q.
Proof.
  unfold download_all. revert acc w.
  induction slugs as [|slug slugs IH]; intros acc w; simpl.
  - now intros [= _ <-].
  - unfold bind at 1, bind at 1.
    destruct (download_material _ _ slug _ _ w) as [[rec|e] w1] eqn:Hd.
    + unfold ret at 1. intros Hrest Hq.
      pose proof (download_material_kept _ _ _ _ _ _ q Hd Hq) as H1.
      rewrite <- H1. eapply IH; [exact Hrest|]. now rewrite H1.
    + intros [= _ <-] Hq. eapply download_material_kept; eauto.
Qed.

(** X13. A run of [main], however it ends, changes and removes nothing
    that was on the disk before it, except that it may write the file
    at the manifest path anew. *)
Theorem main_keeps (args : Args) (w w' : World) (r : result Z) (q : Path) :
  main nd time_sleep net args w = (r, w') ->
  is_Some (lookup_node (disk w) q) ->
  q <> manifest_path args ->
  lookup_node (disk w') q = lookup_node (disk w) q.
Proof.
  intros Hrun Hq Hne. rewrite main_steps, mkdir_run in Hrun.
  destruct (mkdir_p (output args) (disk w)) as [d1|] eqn:Hmk;
    [|now injection Hrun as _ <-].
  pose proof (mkdir_p_keeps _ _ _ _ Hmk Hq) as H1.
  destruct (collect_slugs _ _ _ _ _ _) as [rc w2] eqn:Hc.
  apply collect_slugs_disk in Hc. simpl in Hc.
  destruct rc as [slugs|]; [|injection Hrun as _ <-; now rewrite Hc].
  destruct (download_all _ _ _ _ _ _ w2) as [rd w3] eqn:Hd.
  assert (H3 : lookup_node (disk w3) q = lookup_node (disk w) q).
  { rewrite <- H1, <- Hc. apply (download_all_kept _ _ _ _ _ _ _ q Hd).
    now rewrite Hc, H1. }
  destruct rd as [records|]; [|now injection Hrun as _ <-].
  rewrite write_manifest_run in Hrun.
  destruct (mkdir_p (parent (manifest_path args)) (disk w3)) as [d3|] eqn:Hm3;
    [|now injection Hrun as _ <-].
  assert (H4 : lookup_node d3 q = lookup_node (disk w) q).
  { rewrite <- H3. apply (mkdir_p_keeps _ _ _ _ Hm3). now rewrite H3. }
  unfold open_write in Hrun.
  destruct (lookup_node d3 (parent (manifest_path args))) as [[|]|];
    try (now injection Hrun as _ <-).
  destruct (lookup_node d3 (manifest_path args)) as [[|]|];
    injection Hrun as _ <-; simpl; try assumption;
    rewrite !lookup_node_insert_ne by congruence; assumption.
Qed.

End RunKeeps.

Lemma main_keeps_witness :
  lookup_node (disk (snd (main no_nd sample_sleep sample_net capped_args
                            resumed_world)))
    (target out_root (cp "A") (cp "json"))
  = lookup_node (disk resumed_world) (target out_root (cp "A") (cp "json")).
Proof.
  apply (main_keeps no_nd sample_sleep sample_net capped_args resumed_world
           _ (fst (main no_nd sample_sleep sample_net capped_args
                     resumed_world))).
  - apply surjective_pairing.
  - vm_compute. eauto.
  - vm_compute. discriminate.
Defined.

(** ** Only missing files are fetched *)

Section Missing.
Variable time_sleep : pyfloat -> sleep_outcome.
Variable net : nat -> str -> option Response.

Lemma download_file_fetches_missing (url : str) (dest : Path)
    (delay : pyfloat) (w w' : World) (r : result unit) (evs : list event)
    (u : str) (s ok : bool) :
  download_file time_sleep net url dest delay w = (r, w') ->
  trace w' = trace w ++ evs ->
  EvGet u s ok ∈ evs ->
  u = url /\ path_exists (disk w) dest = false.
Proof.
  intros Hrun Htr Hin. apply download_file_cases in Hrun.
  inversion Hrun; subst; simpl in Htr.
  { apply (f_equal length) in Htr. rewrite length_app in Htr.
    destruct evs; [now apply elem_of_nil in Hin|simpl in Htr; lia]. }
  all: apply app_inv_head in Htr; subst evs.
  all: split; [|assumption].
  all: repeat (apply elem_of_cons in Hin as [Hin|Hin];
               [first [now injection Hin | discriminate Hin]|]).
  all: now apply elem_of_nil in Hin.
Qed.

Lemma download_material_fetches_missing (slug : str) (out_dir : Path)
    (delay : pyfloat) (w w' : World) (r : result entry) (evs : list event)
    (u : str) (s ok : bool) :
  download_material time_sleep net slug out_dir delay w = (r, w') ->
  trace w' = trace w ++ evs ->
  EvGet u s ok ∈ evs ->
  exists ks, ks ∈ DOWNLOAD_TYPES
             /\ u = download_url slug (fst ks)
             /\ path_exists (disk w) (target out_dir slug (snd ks)) = false.
Proof.
  intros Hrun Htr Hin. rewrite download_material_steps, mkdir_run in Hrun.
  set (mdir := material_dir out_dir slug) in *.
  set (tj := target out_dir slug (cp "json")) in *.
  set (tc := target out_dir slug (cp "cif")) in *.
  destruct (mkdir_p mdir (disk w)) as [d1|] eqn:Hmk.
  2:{ injection Hrun as _ <-. simpl in Htr. apply app_inv_head in Htr as <-.
      apply list_elem_of_singleton in Hin. discriminate. }
  destruct suffix_json_ok as [Hsj Hsj'], suffix_cif_ok as [Hsc Hsc'].
  destruct (target_parts out_dir slug) as (Q & X & Hparts).
  destruct (Hparts _ Hsj Hsj') as [_ Hnpj].
  destruct (Hparts _ Hsc Hsc') as [_ Hnpc].
  fold tj mdir in Hnpj. fold tc mdir in Hnpc.
  assert (Hback : forall q, ~ parts q `prefix_of` parts mdir ->
                            path_exists d1 q = false ->
                            path_exists (disk w) q = false).
  { intros q Hp Hq. apply lookup_node_absent. apply lookup_node_absent in Hq.
    now rewrite <- (mkdir_p_frame _ _ _ _ Hmk Hp). }
  destruct (download_file _ _ _ tj _ _) as [rj w2] eqn:Hj.
  destruct (sat_trace _ _ _ _ _
              (oe_download_file _ _ (admits_all (fun _ => True) (fun _ => True)
                                       (fun _ H => H))
                 time_sleep net _ tj delay
                 (fun _ => Logic.I) Logic.I Logic.I Logic.I) Hj)
    as (ej & Htj & _). cbn [trace] in Htj.
  assert (Hjson : EvGet u s ok ∈ ej ->
                  exists ks, ks ∈ DOWNLOAD_TYPES
                             /\ u = download_url slug (fst ks)
                             /\ path_exists (disk w) (target out_dir slug (snd ks))
                                = false).
  { intros Hin'.
    destruct (download_file_fetches_missing _ _ _ _ _ _ _ _ _ _ Hj Htj Hin')
      as [-> Habs].
    exists (cp "json", cp "json"). split; [left|]. split; [reflexivity|].
    now apply Hback. }
  assert (Hstop : w' = w2 -> exists ks, ks ∈ DOWNLOAD_TYPES
                     /\ u = download_url slug (fst ks)
                     /\ path_exists (disk w) (target out_dir slug (snd ks)) = false).
  { intros ->. rewrite Htj, <- app_assoc in Htr. apply app_inv_head in Htr as <-.
    apply elem_of_cons in Hin as [Hin|Hin]; [discriminate|]. auto. }
  destruct rj as [[]|]; [|apply Hstop; now injection Hrun].
  destruct (relative_to tj out_dir); [|apply Hstop; now injection Hrun].
  destruct (download_file _ _ _ tc _ _) as [rc w3] eqn:Hc.
  destruct (sat_trace _ _ _ _ _
              (oe_download_file _ _ (admits_all (fun _ => True) (fun _ => True)
                                       (fun _ H => H))
                 time_sleep net _ tc delay
                 (fun _ => Logic.I) Logic.I Logic.I Logic.I) Hc)
    as (ec & Htc & _).
  assert (Hw : w' = w3)
    by (destruct rc as [[]|]; [destruct (relative_to tc out_dir)|];
        now injection Hrun).
  subst w'. rewrite Htc, Htj, <- !app_assoc in Htr.
  apply app_inv_head in Htr as <-.
  apply elem_of_cons in Hin as [Hin|Hin]; [discriminate|].
  apply elem_of_app in Hin as [Hin|Hin]; [auto|].
  destruct (download_file_fetches_missing _ _ _ _ _ _ _ _ _ _ Hc Htc Hin)
    as [-> Habs].
  exists (cp "cif", cp "cif"). split; [right; left|]. split; [reflexivity|].
  apply Hback; [exact Hnpc|]. change (path_exists d1 tc = false).
  destruct (path_exists d1 tc) eqn:Hex; [|reflexivity].
  destruct (download_file_frame _ _ _ _ _ _ _ _ Hj) as [_ Hmono].
  apply Hmono in Hex. congruence.
Qed.

(** X14. The loop of [main] over the identifiers fetches missing files
    only: every request it sends is the download of a file of one of
    the identifiers, for a kind whose target file was not on the disk
    when the loop began.  So a run after a run that failed does not
    fetch again what the failed run had stored. *)
Theorem download_all_fetches_missing (out_dir : Path) (delay : pyfloat)
    (slugs : list str) (acc : list entry) (w w' : World)
    (r : result (list entry)) (evs : list event) (u : str) (s ok : bool) :
  download_all time_sleep net out_dir delay slugs acc w = (r, w') ->
  trace w' = trace w ++ evs ->
  EvGet u s ok ∈ evs ->
  exists slug ks,
    slug ∈ slugs /\ ks ∈ DOWNLOAD_TYPES
    /\ u = download_url slug (fst ks)
    /\ path_exists (disk w) (target out_dir slug (snd ks)) = false.
Proof.
  unfold download_all. revert acc w evs.
  induction slugs as [|slug slugs IH]; intros acc w evs; simpl.
  - intros [= _ <-] Htr Hin. rewrite <- (app_nil_r (trace w)) in Htr at 1.
    apply app_inv_head in Htr as <-. now apply elem_of_nil in Hin.
  - unfold bind at 1, bind at 1.
    destruct (download_material _ _ slug _ _ w) as [rm w1] eqn:Hd.
    destruct (sat_trace _ _ _ _ _
                (oe_download_material _ _
                   (admits_all (fun _ => True) (fun _ => True) (fun _ H => H))
                   time_sleep net slug out_dir delay (fun _ _ => Logic.I)) Hd)
      as (e1 & Ht1 & _).
    assert (Hfirst : EvGet u s ok ∈ e1 ->
              exists slug0 ks, slug0 ∈ slug :: slugs /\ ks ∈ DOWNLOAD_TYPES
                /\ u = download_url slug0 (fst ks)
                /\ path_exists (disk w) (target out_dir slug0 (snd ks)) = false).
    { intros Hin.
      destruct (download_material_fetches_missing _ _ _ _ _ _ _ _ _ _ Hd Ht1 Hin)
        as (ks & Hks & Hu & Habs).
      exists slug, ks. split; [left|]. auto. }
    destruct rm as [rec|e].
    + unfold ret at 1. intros Hrest Htr Hin.
      destruct (sat_trace _ _ _ _ _
                  (oe_for_fold _ _
                     (admits_all (fun _ => True) (fun _ => True) (fun _ H => H))
                     slugs
                     (fun records slug0 =>
                        let* e := download_material time_sleep net slug0
                                    out_dir delay in
                        ret (records ++ [e]))
                     (acc ++ [rec])
                     (fun recs slug0 _ =>
                        oe_bind _ _
                          (admits_all (fun _ => True) (fun _ => True)
                             (fun _ H => H)) _ _
                          (oe_download_material _ _
                             (admits_all (fun _ => True) (fun _ => True)
                                (fun _ H => H))
                             time_sleep net slug0 out_dir delay
                             (fun _ _ => Logic.I))
                          (fun en => oe_ret _ _
                             (admits_all (fun _ => True) (fun _ => True)
                                (fun _ H => H)) _)))
                  Hrest) as (e2 & Ht2 & _).
      pose proof Htr as Htr'. rewrite Ht2, Ht1, <- app_assoc in Htr'.
      apply app_inv_head in Htr' as <-.
      apply elem_of_app in Hin as [Hin|Hin]; [auto|].
      destruct (IH _ _ _ Hrest Ht2 Hin) as (slug0 & ks & Hs & Hks & Hu & Habs).
      exists slug0, ks. split; [now right|]. split; [exact Hks|].
      split; [exact Hu|].
      destruct (path_exists (disk w) (target out_dir slug0 (snd ks))) eqn:Hex;
        [|reflexivity].
      rewrite (download_material_mono _ _ _ _ _ _ _ _ _ Hd Hex) in Habs.
      discriminate.
    + intros [= _ <-] Htr Hin. rewrite Ht1 in Htr.
      apply app_inv_head in Htr as <-. auto.
Qed.

End Missing.

Lemma download_all_fetches_missing_witness :
  exists slug ks,
    slug ∈ [cp "A"; cp "B"] /\ ks ∈ DOWNLOAD_TYPES
    /\ download_url (cp "B") (cp "json") = download_url slug (fst ks)
    /\ path_exists (disk resumed_world) (target out_root slug (snd ks)) = false.
Proof.
  apply (download_all_fetches_missing sample_sleep sample_net out_root
           (Finite 1) [cp "A"; cp "B"] [] resumed_world
           (snd (download_all sample_sleep sample_net out_root (Finite 1)
                   [cp "A"; cp "B"] [] resumed_world))
           (fst (download_all sample_sleep sample_net out_root (Finite 1)
                   [cp "A"; cp "B"] [] resumed_world))
           (drop (length (trace resumed_world))
              (trace (snd (download_all sample_sleep sample_net out_root
                             (Finite 1) [cp "A"; cp "B"] [] resumed_world))))
           (download_url (cp "B") (cp "json")) true true).
  - apply surjective_pairing.
  - vm_compute. reflexivity.
  - vm_compute. do 2 apply list_elem_of_further. apply list_elem_of_here.
Defined.


(** ** A file where the directory of the item goes *)

Lemma mkdir_p_blocked (p : Path) (d : Disk) (c : content) :
  lookup_node d p = Some (File c) -> mkdir_p p d = None.
Proof.
  unfold lookup_node, mkdir_p. destruct p as [r ps]. simpl.
  destruct ps as [|x ps] using rev_ind; [discriminate|]. clear IHps.
  rewrite rev_app_distr. simpl.
  destruct (ps ++ [x]) eqn:Hps; [now destruct ps|]. rewrite <- Hps.
  intros Hd. rewrite rev_involutive. now rewrite Hd.
Qed.

(** X15. When a regular file stands where the directory of the item
    goes, [download_material] raises [OSError] at once: [mkdir] is its
    only event, no request is sent and the disk stays as it was,
    whether or not the target files are missing. *)
Theorem download_material_blocked (time_sleep : pyfloat -> sleep_outcome)
    (net : nat -> str -> option Response) (slug : str) (out_dir : Path)
    (delay : pyfloat) (w : World) (c : content) :
  lookup_node (disk w) (material_dir out_dir slug) = Some (File c) ->
  download_material time_sleep net slug out_dir delay w
  = (Raise OSError,
     mkWorld (disk w) (trace w ++ [EvMkdir (material_dir out_dir slug)])
       (requests w)).
Proof.
  intros Hfile. rewrite download_material_steps, mkdir_run.
  now rewrite (mkdir_p_blocked _ _ _ Hfile).
Qed.

Lemma download_material_blocked_witness :
  download_material sample_sleep sample_net (cp "A") out_root (Finite 1)
    blocked_world
  = (Raise OSError,
     mkWorld (disk blocked_world)
       (trace blocked_world ++ [EvMkdir (material_dir out_root (cp "A"))])
       (requests blocked_world)).
Proof.
  apply (download_material_blocked sample_sleep sample_net (cp "A") out_root
           (Finite 1) blocked_world (Bytes (cp "x"))).
  vm_compute. reflexivity.
Defined.
